(** * CrowdSurfer edge agent: queue, device identity and SSID reconciliation

    A shallow embedding of [src/telemetry_queue.py], [src/config.py] and
    [src/management_agent.py], and the properties of the design
    specification that concern them; then of the batch synchronisation and
    the first heartbeat of [src/telemetry_agent.py] and of the submission
    handling of [src/portal_handler.py], which run on the same queue and
    the same configuration.

    Conventions used throughout:
    - a Python [int] is a [Z]; a Python [str] is a [string] whose characters
      are read as code points below 256;
    - [None] is [None]; a method that may raise returns a [result];
    - everything outside the process (the SQLite file, the clock, the file
      system, the backend, [systemctl]) is part of an explicit world value
      that every operation receives and returns. *)

From Stdlib Require Import ZArith List String Ascii Bool Lia.
From Stdlib Require Import Sorting.Sorted Sorting.Permutation.
From Stdlib Require Import Numbers.DecimalString.
From Stdlib Require DecimalN DecimalPos DecimalFacts.
Import ListNotations.

Open Scope string_scope.
Open Scope list_scope.
Open Scope Z_scope.

Set Implicit Arguments.

(* ================================================================== *)
(** * Exceptions and results *)
(* ================================================================== *)

(** The exception classes the modelled code can see. *)
Inductive exn : Type :=
| SqliteError                       (* sqlite3.Error from connect/execute/commit *)
| ValueError (msg : string)
| OverflowError
| TypeError
| FileNotFoundError
| PermissionError
| OSError                           (* any other I/O failure *)
| RequestException                  (* requests: timeout, connection error *)
| TimeoutExpired                    (* subprocess.TimeoutExpired *)
| JSONDecodeError
| AttributeError.

Inductive result (A : Type) : Type :=
| Ok (a : A)
| Raise (e : exn).

Arguments Ok {A} a.
Arguments Raise {A} e.

(* ================================================================== *)
(** * A state and exception monad *)
(* ================================================================== *)

(** A method is a function of the world [S] it runs in: it returns or raises,
    and leaves a world behind either way. *)
Definition M (S A : Type) : Type := S -> result A * S.

Definition ret {S A} (a : A) : M S A := fun w => (Ok a, w).

Definition raise {S A} (e : exn) : M S A := fun w => (Raise e, w).

Definition bind {S A B} (m : M S A) (k : A -> M S B) : M S B :=
  fun w => match m w with
           | (Ok a, w') => k a w'
           | (Raise e, w') => (Raise e, w')
           end.

(** [try: m  except Exception as e: h e] *)
Definition try_except {S A} (m : M S A) (h : exn -> M S A) : M S A :=
  fun w => match m w with
           | (Ok a, w') => (Ok a, w')
           | (Raise e, w') => h e w'
           end.

Definition gets {S A} (f : S -> A) : M S A := fun w => (Ok (f w), w).

Definition modify {S} (f : S -> S) : M S unit := fun w => (Ok tt, f w).

Notation "x <- m ;; k" := (bind m (fun x => k))
  (at level 61, m at next level, right associativity).
Notation "m ;;; k" := (bind m (fun _ => k))
  (at level 61, right associativity).

(* ================================================================== *)
(** * datetime *)
(* ================================================================== *)

Module Datetime.

(** A naive [datetime.datetime], as returned by [datetime.utcnow()]. *)
Record datetime : Type := mkDatetime {
  year : Z; month : Z; day : Z;
  hour : Z; minute : Z; second : Z; microsecond : Z
}.

Definition is_leap (y : Z) : bool :=
  (y mod 4 =? 0) && (negb (y mod 100 =? 0) || (y mod 400 =? 0)).

Definition days_in_month (y m : Z) : Z :=
  if m =? 2 then (if is_leap y then 29 else 28)
  else if (m =? 4) || (m =? 6) || (m =? 9) || (m =? 11) then 30
  else 31.

(** The values a [datetime] object can hold. *)
Definition valid (d : datetime) : Prop :=
  1 <= year d <= 9999 /\ 1 <= month d <= 12 /\
  1 <= day d <= days_in_month (year d) (month d) /\
  0 <= hour d <= 23 /\ 0 <= minute d <= 59 /\ 0 <= second d <= 59 /\
  0 <= microsecond d <= 999999.

(** [d.replace(hour=0, minute=0, second=0, microsecond=0)] *)
Definition replace_midnight (d : datetime) : datetime :=
  mkDatetime (year d) (month d) (day d) 0 0 0 0.

(** [d.replace(day=n)]: the constructor re-validates the fields and raises
    [ValueError] when [n] is not a day of that month. *)
Definition replace_day (d : datetime) (n : Z) : result datetime :=
  if (1 <=? n) && (n <=? days_in_month (year d) (month d))
  then Ok (mkDatetime (year d) (month d) n
                      (hour d) (minute d) (second d) (microsecond d))
  else Raise (ValueError "day is out of range for month").

Definition digits (n : Z) : string :=
  NilZero.string_of_uint (N.to_uint (Z.to_N n)).

Fixpoint zeros (k : nat) : string :=
  match k with O => "" | S k' => String "0" (zeros k') end.

(** ["%0<w>d" % n] for a non-negative [n] *)
Definition pad (w : nat) (n : Z) : string :=
  let s := digits n in (zeros (w - String.length s) ++ s)%string.

(** [d.isoformat()]: the fraction is printed only when it is not zero. *)
Definition isoformat (d : datetime) : string :=
  (pad 4 (year d) ++ "-" ++ pad 2 (month d) ++ "-" ++ pad 2 (day d) ++ "T" ++
   pad 2 (hour d) ++ ":" ++ pad 2 (minute d) ++ ":" ++ pad 2 (second d) ++
   (if (microsecond d =? 0)%Z then "" else "." ++ pad 6 (microsecond d)))%string.

(** Day number of a civil date (days since 1970-01-01), and back. *)
Definition days_from_civil (y m d : Z) : Z :=
  let y' := if m <=? 2 then y - 1 else y in
  let era := y' / 400 in
  let yoe := y' - era * 400 in
  let doy := (153 * (if 2 <? m then m - 3 else m + 9) + 2) / 5 + d - 1 in
  let doe := yoe * 365 + yoe / 4 - yoe / 100 + doy in
  era * 146097 + doe - 719468.

Definition civil_from_days (z : Z) : Z * Z * Z :=
  let z' := z + 719468 in
  let era := z' / 146097 in
  let doe := z' - era * 146097 in
  let yoe := (doe - doe / 1460 + doe / 36524 - doe / 146096) / 365 in
  let doy := doe - (365 * yoe + yoe / 4 - yoe / 100) in
  let mp := (5 * doy + 2) / 153 in
  let d := doy - (153 * mp + 2) / 5 + 1 in
  let m := if mp <? 10 then mp + 3 else mp - 9 in
  ((yoe + era * 400) + (if m <=? 2 then 1 else 0), m, d).

(** [d - timedelta(days=n)]: the calendar date moves, the time of day stays. *)
Definition minus_days (d : datetime) (n : Z) : datetime :=
  let '(y, m, dd) := civil_from_days (days_from_civil (year d) (month d) (day d) - n) in
  mkDatetime y m dd (hour d) (minute d) (second d) (microsecond d).

End Datetime.

(* ================================================================== *)
(** * ORDER BY: a stable sort *)
(* ================================================================== *)

Section OrderBy.

Variable A : Type.
Variable leb : A -> A -> bool.

Fixpoint insert_by (x : A) (l : list A) : list A :=
  match l with
  | [] => [x]
  | y :: l' => if leb x y then x :: l else y :: insert_by x l'
  end.

(** Rows come out in key order; rows with equal keys keep table order. *)
Fixpoint order_by (l : list A) : list A :=
  match l with
  | [] => []
  | x :: l' => insert_by x (order_by l')
  end.

End OrderBy.

(* ================================================================== *)
(** * telemetry_queue.py *)
(* ================================================================== *)

Module TelemetryQueue.

Import Datetime.

(** ** Data *)

(** [class QueueItemType(Enum)] *)
Inductive QueueItemType : Type :=
| PORTAL_SUBMISSION
| ANALYTICS_RECORD.

Definition value (t : QueueItemType) : Z :=
  match t with
  | PORTAL_SUBMISSION => 1
  | ANALYTICS_RECORD => 2
  end.

(** [QueueItemType(v)]: [ValueError] when no member has the value. *)
Definition QueueItemType_of (v : Z) : result QueueItemType :=
  if v =? 1 then Ok PORTAL_SUBMISSION
  else if v =? 2 then Ok ANALYTICS_RECORD
  else Raise (ValueError "not a valid QueueItemType").

(** A row of the [queue_items] table.  [data] is the JSON document stored in
    the TEXT column, identified with its text. *)
Record Row : Type := mkRow {
  id : Z;
  item_type : Z;
  priority : Z;
  data : string;
  created_at : string;
  retry_count : Z;
  last_retry_at : option string
}.

(** The database file: the rows in rowid order, and the [sqlite_sequence]
    entry that AUTOINCREMENT keeps (the largest rowid ever handed out). *)
Record Table : Type := mkTable {
  rows : list Row;
  seq : Z
}.

(** What [_init_database] leaves on a fresh file. *)
Definition empty_table : Table := mkTable [] 0.

(** The class attributes read through [self]. *)
Record QueueManager : Type := mkQueueManager {
  MAX_ANALYTICS_RECORDS : Z;
  MAX_SUBMISSIONS : Z
}.

Definition the_QueueManager : QueueManager := mkQueueManager 10000 1000.

(** The largest rowid SQLite can hand out: an INTEGER holds 64 bits. *)
Definition MAX_ROWID : Z := 2 ^ 63 - 1.

(** What the schema and the two INSERT statements guarantee of every table
    the module has written: ids are unique (PRIMARY KEY), start at 1 and are
    not above the AUTOINCREMENT counter, which is itself a rowid; and a
    row's priority is its type, 1 or 2. *)
Definition wf_row (r : Row) : Prop :=
  (item_type r = 1 \/ item_type r = 2) /\ priority r = item_type r.

Definition wf_table (t : Table) : Prop :=
  NoDup (map id (rows t)) /\
  Forall (fun r => 1 <= id r <= seq t) (rows t) /\
  Forall wf_row (rows t) /\
  0 <= seq t <= MAX_ROWID.

(** ** The world of the queue

    [faults] scripts the storage engine: the n-th access to the database
    raises [sqlite3.Error] when the n-th entry is [true] (busy store, I/O
    error, corruption, a statement the engine refuses, such as one with
    more host parameters than it allows); an exhausted script means no
    further fault.  A faulting access changes nothing: every access of the
    module is a single statement in its own transaction. *)
Record World : Type := mkWorld {
  table : Table;
  faults : list bool;
  utcnow : datetime
}.

Definition fault_free (w : World) : Prop := Forall (fun b => b = false) (faults w).

(** The methods of the module run in this world. *)
Definition Sql (A : Type) : Type := M World A.

(** The world once an access has been answered, with [t] in the file. *)
Definition after (w : World) (t : Table) : World :=
  mkWorld t (tl (faults w)) (utcnow w).

(** [with sqlite3.connect(self.db_path) as conn: conn.execute(stmt); conn.commit()].
    [stmt] stands for the arguments of [execute] and the statement: what
    the evaluation or the binding of an argument raises leaves through the
    [with], and nothing is written. *)
Definition transaction {A} (stmt : Table -> result (A * Table)) : Sql A :=
  fun w =>
    if hd false (faults w) then (Raise SqliteError, after w (table w))
    else match stmt (table w) with
         | Ok (a, t') => (Ok a, after w t')
         | Raise e => (Raise e, after w (table w))
         end.

(** [_get_timestamp]: [datetime.utcnow().isoformat() + 'Z'] *)
Definition _get_timestamp : Sql string :=
  fun w => (Ok (isoformat (utcnow w) ++ "Z")%string, w).

(** ** The SQL statements *)

Definition has_type (v : Z) (r : Row) : bool := item_type r =? v.

(** [SELECT COUNT( * ) FROM queue_items WHERE item_type = ?] *)
Definition count_type (v : Z) (t : Table) : Z :=
  Z.of_nat (List.length (filter (has_type v) (rows t))).

(** [INSERT INTO queue_items (item_type, priority, data, created_at)]: the
    rowid is one more than the largest ever used, [retry_count] takes its
    default and [last_retry_at] is NULL. *)
Definition insert_item (ty prio : Z) (d ts : string) (t : Table) : Table :=
  mkTable (rows t ++ [mkRow (seq t + 1) ty prio d ts 0 None]) (seq t + 1).

(** The INSERT with AUTOINCREMENT: once the largest rowid was handed out no
    row can be added, and the statement fails with [SQLITE_FULL]
    ([sqlite3.OperationalError]). *)
Definition insert_new (ty prio : Z) (d ts : string) (t : Table)
  : result (unit * Table) :=
  if seq t <? MAX_ROWID then Ok (tt, insert_item ty prio d ts t)
  else Raise SqliteError.

(** The values bound to an INSERT: [json.dumps(record)] is evaluated where
    the tuple of arguments is built, and what it raises ([TypeError] for a
    value it cannot serialise, [ValueError] for a circular reference)
    prevents the statement. *)
Definition insert_dumped (ty prio : Z) (dumped : result string) (ts : string)
                         (t : Table) : result (unit * Table) :=
  match dumped with
  | Ok text => insert_new ty prio text ts t
  | Raise e => Raise e
  end.

(** The INSERT of either [enqueue_*] method at instant [now], as a
    transaction of a store that answers: whether it returned, and the world
    it leaves. *)
Definition inserting (ty : Z) (dumped : result string) (now : datetime)
                     (w : World) : result unit * World :=
  match insert_dumped ty ty dumped (isoformat now ++ "Z")%string (table w) with
  | Ok (_, t') => (Ok tt, after w t')
  | Raise e => (Raise e, after w (table w))
  end.

(** The row either [enqueue_*] method adds in world [w] to table [t]. *)
Definition inserted (ty : Z) (d : string) (now : datetime) (t : Table) : Row :=
  mkRow (seq t + 1) ty ty d (isoformat now ++ "Z")%string 0 None.

(** [ORDER BY priority ASC, created_at ASC] *)
Definition priority_created_leb (a b : Row) : bool :=
  (priority a <? priority b) ||
  ((priority a =? priority b) && String.leb (created_at a) (created_at b)).

(** [ORDER BY created_at ASC] *)
Definition created_leb (a b : Row) : bool :=
  String.leb (created_at a) (created_at b).

(** [LIMIT n]: SQLite reads a negative limit as no limit. *)
Definition sql_limit {A} (n : Z) (l : list A) : list A :=
  if n <? 0 then l else firstn (Z.to_nat n) l.

(** A Python int bound to a parameter must fit SQLite's 64-bit INTEGER. *)
Definition fits_int64 (n : Z) : bool :=
  (- 2 ^ 63 <=? n) && (n <=? 2 ^ 63 - 1).

(** [SELECT ... FROM queue_items ORDER BY priority ASC, created_at ASC LIMIT ?] *)
Definition select_batch (batch_size : Z) (t : Table) : result (list Row * Table) :=
  if fits_int64 batch_size
  then Ok (sql_limit batch_size (order_by priority_created_leb (rows t)), t)
  else Raise OverflowError.

(** [DELETE FROM queue_items WHERE <p>]; the value is [cursor.rowcount]. *)
Definition delete_where (p : Row -> bool) (t : Table) : Z * Table :=
  (Z.of_nat (List.length (filter p (rows t))),
   mkTable (filter (fun r => negb (p r)) (rows t)) (seq t)).

Definition id_in (ids : list Z) (r : Row) : bool :=
  existsb (Z.eqb (id r)) ids.

(** [SELECT id FROM queue_items WHERE item_type = ? ORDER BY created_at ASC LIMIT 1] *)
Definition oldest_of_type (v : Z) (t : Table) : option Row :=
  hd_error (order_by created_leb (filter (has_type v) (rows t))).

(** [DELETE FROM queue_items WHERE id = (SELECT id ... LIMIT 1)]: an empty
    subquery is NULL, which equals no id. *)
Definition delete_oldest_of_type (v : Z) (t : Table) : Table :=
  match oldest_of_type v t with
  | Some o => snd (delete_where (fun r => id r =? id o) t)
  | None => t
  end.

(** [UPDATE queue_items SET retry_count = retry_count + 1, last_retry_at = ?
     WHERE id IN (...)] *)
Definition bump_retry (ts : string) (ids : list Z) (t : Table) : Table :=
  mkTable
    (map (fun r => if id_in ids r
                   then mkRow (id r) (item_type r) (priority r) (data r)
                              (created_at r) (retry_count r + 1) (Some ts)
                   else r)
         (rows t))
    (seq t).

(** ** The methods of [QueueManager] *)

Section Methods.

Variable self : QueueManager.

Definition _get_analytics_count : Sql Z :=
  try_except
    (transaction (fun t => Ok (count_type (value ANALYTICS_RECORD) t, t)))
    (fun _ => ret 0).

Definition _get_submission_count : Sql Z :=
  try_except
    (transaction (fun t => Ok (count_type (value PORTAL_SUBMISSION) t, t)))
    (fun _ => ret 0).

Definition _drop_oldest_analytics : Sql unit :=
  try_except
    (transaction (fun t =>
       Ok (tt, delete_oldest_of_type (value ANALYTICS_RECORD) t)))
    (fun _ => ret tt).

(** [enqueue_analytics(record)].  The record is given by what
    [json.dumps(record)] makes of it: the text that is stored, or the
    exception it raises.  The eviction is committed before the INSERT is
    prepared. *)
Definition enqueue_analytics (record : result string) : Sql unit :=
  try_except
    (n <- _get_analytics_count ;;
     (if n >=? MAX_ANALYTICS_RECORDS self
      then _drop_oldest_analytics
      else ret tt) ;;;
     ts <- _get_timestamp ;;
     transaction (insert_dumped (value ANALYTICS_RECORD)
                                (value ANALYTICS_RECORD) record ts))
    (fun e => raise e).

(** [enqueue_submission(submission)], the submission given like the record
    of [enqueue_analytics]. *)
Definition enqueue_submission (submission : result string) : Sql unit :=
  try_except
    (n <- _get_submission_count ;;
     (if n >=? MAX_SUBMISSIONS self
      then raise (ValueError "Submission queue full")
      else ret tt) ;;;
     ts <- _get_timestamp ;;
     transaction (insert_dumped (value PORTAL_SUBMISSION)
                                (value PORTAL_SUBMISSION) submission ts))
    (fun e => raise e).

(** The loop body of [dequeue_batch]: one returned tuple per selected row. *)
Definition row_item (r : Row) : result (Z * QueueItemType * string) :=
  match QueueItemType_of (item_type r) with
  | Ok ty => Ok (id r, ty, data r)
  | Raise e => Raise e
  end.

Fixpoint row_items (l : list Row) : result (list (Z * QueueItemType * string)) :=
  match l with
  | [] => Ok []
  | r :: l' =>
      match row_item r with
      | Raise e => Raise e
      | Ok i => match row_items l' with
                | Raise e => Raise e
                | Ok is' => Ok (i :: is')
                end
      end
  end.

Definition dequeue_batch (batch_size : Z) : Sql (list (Z * QueueItemType * string)) :=
  try_except
    (transaction (fun t =>
       match select_batch batch_size t with
       | Raise e => Raise e
       | Ok (sel, t') =>
           match row_items sel with
           | Raise e => Raise e
           | Ok items => Ok (items, t')
           end
       end))
    (fun _ => ret []).

(** Binding a list of ids to the placeholders of a statement: an id that
    does not fit SQLite's INTEGER raises [OverflowError], and the statement
    is not run. *)
Definition bind_ids {A} (item_ids : list Z) (run : result A) : result A :=
  if forallb fits_int64 item_ids then run else Raise OverflowError.

Definition mark_synced (item_ids : list Z) : Sql unit :=
  match item_ids with
  | [] => ret tt
  | _ =>
      try_except
        (transaction (fun t =>
           bind_ids item_ids (Ok (tt, snd (delete_where (id_in item_ids) t)))))
        (fun _ => ret tt)
  end.

Definition mark_failed (item_ids : list Z) : Sql unit :=
  match item_ids with
  | [] => ret tt
  | _ =>
      try_except
        (ts <- _get_timestamp ;;
         transaction (fun t =>
           bind_ids item_ids (Ok (tt, bump_retry ts item_ids t))))
        (fun _ => ret tt)
  end.

(** The first two statements of [cleanup_old_records]: midnight of today,
    then the day of the month lowered by [days]. *)
Definition cutoff_date (now : datetime) (days : Z) : result datetime :=
  let d := replace_midnight now in
  replace_day d (day d - days).

Definition cutoff_str (now : datetime) (days : Z) : result string :=
  match cutoff_date now days with
  | Ok d => Ok (isoformat d ++ "Z")%string
  | Raise e => Raise e
  end.

(** [WHERE created_at < ?] *)
Definition older_than (cutoff : string) (r : Row) : bool :=
  String.ltb (created_at r) cutoff.

Definition cleanup_old_records (days : Z) : Sql Z :=
  try_except
    (cutoff <- (fun w => (cutoff_str (utcnow w) days, w)) ;;
     transaction (fun t => Ok (delete_where (older_than cutoff) t)))
    (fun _ => ret 0).

End Methods.

(** ** The cutoff as the specification words it

    "Items whose createdAt predates the cutoff (current time minus the
    duration)": the instant [days] days before now, printed like every
    created_at. *)
Definition spec_cutoff_str (now : datetime) (days : Z) : string :=
  (isoformat (minus_days now days) ++ "Z")%string.

End TelemetryQueue.

(** ** Small queues used to exercise the statements *)

Module QueueExamples.

Import Datetime TelemetryQueue.

(** A manager whose capacities are 2 Analytics records and 1 submission. *)
Definition small_manager : QueueManager := mkQueueManager 2 1.

Definition noon_jan_5 : datetime := mkDatetime 2024 1 5 12 0 7 0.
Definition afternoon_jan_20 : datetime := mkDatetime 2024 1 20 15 0 0 0.

Definition a1 : Row := mkRow 1 2 2 "{}" "2024-01-05T11:00:00Z" 0 None.
Definition a2 : Row := mkRow 2 2 2 "{}" "2024-01-05T11:00:01Z" 0 None.
Definition s3 : Row := mkRow 3 1 1 "{}" "2024-01-05T11:00:02Z" 0 None.

(** Two Analytics records, then a submission. *)
Definition full_table : Table := mkTable [a1; a2; s3] 3.

Definition full_world : World := mkWorld full_table [] noon_jan_5.

(** The same queue, with a storage engine that fails the next access. *)
Definition busy_world : World := mkWorld full_table [true] noon_jan_5.

Definition last_june : Row := mkRow 1 2 2 "{}" "2023-06-01T08:00:00Z" 3 None.
Definition jan_12 : Row := mkRow 2 1 1 "{}" "2024-01-12T23:59:59.999999Z" 0 None.
Definition jan_13 : Row := mkRow 3 2 2 "{}" "2024-01-13T10:00:00Z" 0 None.

(** On the 5th of the month, one record from last June. *)
Definition stale_world : World := mkWorld (mkTable [last_june] 1) [] noon_jan_5.

(** On the 20th at 15:00, records of the 12th and of the 13th at 10:00. *)
Definition week_world : World :=
  mkWorld (mkTable [jan_12; jan_13] 3) [] afternoon_jan_20.

End QueueExamples.

(* ================================================================== *)
(** * JSON values and json.dumps *)
(* ================================================================== *)

Module Json.

#[local] Set Warnings "-register-all".


(** The Python values [json.dumps] is given here.  A float is carried by its
    [repr], which is what the encoder prints. *)
Inductive json : Type :=
| JNull
| JBool (b : bool)
| JInt (n : Z)
| JFloat (repr : string)
| JStr (s : string)
| JList (l : list json)
| JDict (items : list (string * json)).

(** A dict with string keys, in insertion order. *)
Definition dict : Type := list (string * json).

(** [d.get(k)] *)
Fixpoint dict_get (k : string) (d : dict) : option json :=
  match d with
  | [] => None
  | (k', v) :: d' => if String.eqb k k' then Some v else dict_get k d'
  end.

(** [k in d] *)
Definition dict_has (k : string) (d : dict) : bool :=
  match dict_get k d with Some _ => true | None => false end.

(** [d[k] = v]: an existing key keeps its place. *)
Fixpoint dict_set (k : string) (v : json) (d : dict) : dict :=
  match d with
  | [] => [(k, v)]
  | (k', v') :: d' =>
      if String.eqb k k' then (k, v) :: d' else (k', v') :: dict_set k v d'
  end.

(** [{k2: v for k2, v in d.items() if k2 != k}] *)
Definition dict_remove (k : string) (d : dict) : dict :=
  filter (fun kv => negb (String.eqb k (fst kv))) d.

(** [{**d1, **d2}] *)
Definition dict_merge (d1 d2 : dict) : dict :=
  fold_left (fun acc kv => dict_set (fst kv) (snd kv) acc) d2 d1.

(** ** Strings *)

Definition hex_digit (n : N) : ascii :=
  ascii_of_N (if (n <? 10)%N then 48 + n else 87 + n).

(** ['\\u{:04x}'.format(n)] for a code point below 256 *)
Definition escape_u (n : N) : string :=
  String "\" (String "u" (String "0" (String "0"
    (String (hex_digit (n / 16)) (String (hex_digit (n mod 16)) ""))))).

(** One character under [ensure_ascii=True]: the replacement table of the
    encoder, then [\uXXXX] for what is not printable ASCII. *)
Definition escape_char (c : ascii) : string :=
  let n := N_of_ascii c in
  if (n =? 34)%N then String "\" (String c "")
  else if (n =? 92)%N then String "\" (String c "")
  else if (n =? 10)%N then String "\" "n"
  else if (n =? 13)%N then String "\" "r"
  else if (n =? 9)%N then String "\" "t"
  else if (n =? 8)%N then String "\" "b"
  else if (n =? 12)%N then String "\" "f"
  else if ((32 <=? n) && (n <=? 126))%N then String c ""
  else escape_u n.

Fixpoint escape (s : string) : string :=
  match s with
  | EmptyString => ""
  | String c s' => (escape_char c ++ escape s')%string
  end.

(** A string literal of the output. *)
Definition quoted (s : string) : string :=
  (String (ascii_of_N 34) (escape s) ++ String (ascii_of_N 34) "")%string.

(** [str(n)] for an int *)
Definition str_int (n : Z) : string :=
  if n <? 0
  then String "-" (NilZero.string_of_uint (N.to_uint (Z.to_N (- n))))
  else NilZero.string_of_uint (N.to_uint (Z.to_N n)).

(** [sep.join(l)] *)
Fixpoint join (sep : string) (l : list string) : string :=
  match l with
  | [] => ""
  | [x] => x
  | x :: l' => (x ++ sep ++ join sep l')%string
  end.

(** The key order of [sort_keys=True]. *)
Definition key_leb (a b : string * string) : bool := String.leb (fst a) (fst b).

(** [json.dumps(j, sort_keys=True, separators=(',', ':'))].  The members of
    an object are rendered, then put in key order. *)
Fixpoint dumps_canonical (j : json) : string :=
  match j with
  | JNull => "null"
  | JBool true => "true"
  | JBool false => "false"
  | JInt n => str_int n
  | JFloat r => r
  | JStr s => quoted s
  | JList l => ("[" ++ join "," (map dumps_canonical l) ++ "]")%string
  | JDict items =>
      let rendered := map (fun kv => match kv with
                                     | (k, v) => (k, dumps_canonical v)
                                     end) items in
      ("{" ++ join "," (map (fun kv => (quoted (fst kv) ++ ":" ++ snd kv)%string)
                            (order_by key_leb rendered))
           ++ "}")%string
  end.

(** [s.encode('utf-8')] for code points below 256: one byte below 128, two
    bytes from there on. *)
Fixpoint utf8 (s : string) : string :=
  match s with
  | EmptyString => ""
  | String c s' =>
      let n := N_of_ascii c in
      if (n <? 128)%N then String c (utf8 s')
      else String (ascii_of_N (192 + n / 64))
                  (String (ascii_of_N (128 + n mod 64)) (utf8 s'))
  end.

End Json.

(* ================================================================== *)
(** * Python text *)
(* ================================================================== *)

Module Text.

(** [str.isspace] on the code points below 256. *)
Definition isspace (c : ascii) : bool :=
  let n := N_of_ascii c in
  ((9 <=? n) && (n <=? 13) || (28 <=? n) && (n <=? 32) ||
   (n =? 133) || (n =? 160))%N.

Fixpoint lstrip (s : string) : string :=
  match s with
  | EmptyString => ""
  | String c s' => if isspace c then lstrip s' else s
  end.

Fixpoint rev_string (s acc : string) : string :=
  match s with
  | EmptyString => acc
  | String c s' => rev_string s' (String c acc)
  end.

Definition rstrip (s : string) : string :=
  rev_string (lstrip (rev_string s "")) "".

(** [s.strip()] *)
Definition strip (s : string) : string := rstrip (lstrip s).

(** [s.startswith(p)] *)
Definition startswith (p s : string) : bool := String.prefix p s.

Definition LF : ascii := ascii_of_N 10.
Definition CR : ascii := ascii_of_N 13.

(** What text mode hands to the reader ([newline=None]): a CR LF pair and a
    lone CR both arrive as LF. *)
Fixpoint universal_newlines (s : string) : string :=
  match s with
  | EmptyString => ""
  | String c s' =>
      if Ascii.eqb c CR
      then String LF (match s' with
                      | String c' s'' =>
                          if Ascii.eqb c' LF then universal_newlines s''
                          else universal_newlines s'
                      | EmptyString => ""
                      end)
      else String c (universal_newlines s')
  end.

(** [f.readlines()] on text already read: lines keep their LF; [cur] is the
    line being collected. *)
Fixpoint split_lines (s cur : string) : list string :=
  match s with
  | EmptyString => if String.eqb cur "" then [] else [cur]
  | String c s' =>
      if Ascii.eqb c LF
      then (cur ++ String c "")%string :: split_lines s' ""
      else split_lines s' (cur ++ String c "")%string
  end.

Definition readlines (content : string) : list string :=
  split_lines (universal_newlines content) "".

(** [f.writelines(lines)] on an empty file. *)
Definition writelines (lines : list string) : string := String.concat "" lines.

(** Whether the text holds a carriage return. *)
Fixpoint has_cr (s : string) : bool :=
  match s with
  | EmptyString => false
  | String c s' => Ascii.eqb c CR || has_cr s'
  end.

(** [s[-3:]] *)
Definition last3 (s : string) : string :=
  String.substring (String.length s - 3) 3 s.

End Text.

(* ================================================================== *)
(** * config.py *)
(* ================================================================== *)

Module Config.

Import Json.

(** An event configuration as the backend delivers it: the [config_version]
    member when there is one, and the document as a whole. *)
Record EventConfig : Type := mkEventConfig {
  ec_config_version : option Z;
  ec_document : string
}.

(** The attributes of a [Config] object. *)
Record Config : Type := mkConfig {
  device_id : option Z;
  device_serial : option string;
  device_token : option string;
  backend_url : string;
  heartbeat_interval : Z;
  analytics_sync_interval : Z;
  event_config : option EventConfig;
  config_version : option Z;
  wifi_ssid : option string
}.

Definition DEFAULT_BACKEND_URL : string := "https://crowdsurfer.politiquera.com".
Definition DEFAULT_HEARTBEAT_INTERVAL : Z := 60.
Definition DEFAULT_ANALYTICS_SYNC_INTERVAL : Z := 120.

(** [Config.__init__] *)
Definition init : Config :=
  mkConfig None None None DEFAULT_BACKEND_URL DEFAULT_HEARTBEAT_INTERVAL
           DEFAULT_ANALYTICS_SYNC_INTERVAL None None None.

(** [is_registered]: [self.device_token is not None] *)
Definition is_registered (c : Config) : bool :=
  match device_token c with Some _ => true | None => false end.

(** [is_assigned]: [self.event_config is not None] *)
Definition is_assigned (c : Config) : bool :=
  match event_config c with Some _ => true | None => false end.

Definition set_device_token (t : option string) (c : Config) : Config :=
  mkConfig (device_id c) (device_serial c) t (backend_url c)
           (heartbeat_interval c) (analytics_sync_interval c)
           (event_config c) (config_version c) (wifi_ssid c).

Definition set_device_id (i : option Z) (c : Config) : Config :=
  mkConfig i (device_serial c) (device_token c) (backend_url c)
           (heartbeat_interval c) (analytics_sync_interval c)
           (event_config c) (config_version c) (wifi_ssid c).

Definition set_device_serial (s : option string) (c : Config) : Config :=
  mkConfig (device_id c) s (device_token c) (backend_url c)
           (heartbeat_interval c) (analytics_sync_interval c)
           (event_config c) (config_version c) (wifi_ssid c).

Definition set_event_config (e : option EventConfig) (v : option Z) (c : Config)
  : Config :=
  mkConfig (device_id c) (device_serial c) (device_token c) (backend_url c)
           (heartbeat_interval c) (analytics_sync_interval c) e v (wifi_ssid c).

Definition set_wifi_ssid (s : option string) (c : Config) : Config :=
  mkConfig (device_id c) (device_serial c) (device_token c) (backend_url c)
           (heartbeat_interval c) (analytics_sync_interval c)
           (event_config c) (config_version c) s.

(** What [save_device_config] writes to [device.conf]. *)
Record DeviceConf : Type := mkDeviceConf {
  saved_device_id : option Z;
  saved_device_serial : option string;
  saved_device_token : option string;
  saved_backend_url : string;
  saved_heartbeat_interval : Z;
  saved_analytics_sync_interval : Z;
  saved_wifi_ssid : option string
}.

Definition device_conf_of (c : Config) : DeviceConf :=
  mkDeviceConf (device_id c) (device_serial c) (device_token c) (backend_url c)
               (heartbeat_interval c) (analytics_sync_interval c) (wifi_ssid c).

(** What [save_event_config] writes to [config.json]. *)
Record ConfigCache : Type := mkConfigCache {
  cached_configuration : EventConfig;
  cached_version : Z;
  cached_at : string
}.

End Config.

(* ================================================================== *)
(** * management_agent.py, with the methods of Config that touch the disk *)
(* ================================================================== *)

Module ManagementAgent.

Import Json Text Config Datetime.

(** ** The world of the agent *)

(** How one file operation ends: done; refused on open with
    [PermissionError]; refused on open with another [OSError]; or, for a
    write, an [OSError] after the file was truncated, [residue] being what
    reached the file. *)
Inductive io_outcome : Type :=
| IoOk
| IoDenied
| IoError
| IoBroken (residue : string).

Definition io_exn (o : io_outcome) : exn :=
  match o with
  | IoDenied => PermissionError
  | _ => OSError
  end.

(** How [subprocess.run] ends. *)
Inductive proc_outcome : Type :=
| Exit (returncode : Z)
| ProcTimeout
| ProcError.

(** An element of the [commands] list: a dict, of which [command_type]
    and the [firmware_url] of its [command_params] are read, or a value
    that is no dict and has no [get]. *)
Inductive Command : Type :=
| mkCommand (command_type : option string) (firmware_url : option string)
| not_a_dict.

(** A truthy [configuration] member of a heartbeat response, with its
    [wifi_ssid] when it has one that is not null. *)
Record HbConfiguration : Type := mkHbConfiguration {
  hc_wifi_ssid : option string
}.

(** The members of a heartbeat response body that the agent reads.
    [hb_device_token] is [None] when the key is absent and [Some None] when
    its value is null. *)
Record HeartbeatData : Type := mkHeartbeatData {
  hb_device_token : option (option string);
  hb_status : option string;
  hb_configuration : option HbConfiguration;
  hb_commands : list Command
}.

(** A response to the heartbeat POST; [json_body] is [None] when
    [response.json()] raises. *)
Record Response : Type := mkResponse {
  status_code : Z;
  json_body : option HeartbeatData
}.

(** A response to the configuration GET; the body holds the [configuration]
    member when it is truthy. *)
Record ConfigResponse : Type := mkConfigResponse {
  cr_status_code : Z;
  cr_json_body : option (option EventConfig)
}.

Record Disk : Type := mkDisk {
  device_conf : option DeviceConf;       (* /etc/crowdsurfer/device.conf *)
  config_cache : option ConfigCache;     (* /var/cache/crowdsurfer/config.json *)
  hostapd_conf : option string           (* /etc/hostapd/hostapd.conf *)
}.

(** What the surroundings will do, in the order they are asked: file
    operations, [systemctl] runs, heartbeat POSTs and configuration GETs
    ([None]: the request raises).  An exhausted script answers [IoOk],
    [Exit 0] and a failed request. *)
Record Env : Type := mkEnv {
  io : list io_outcome;
  procs : list proc_outcome;
  posts : list (option Response);
  fetches : list (option ConfigResponse);
  utcnow : datetime;
  cpu_serial : option string;            (* the Serial line of /proc/cpuinfo *)
  random_suffix : Z                      (* random.randint(0, 999) *)
}.

(** [config] is the one [Config] object every component shares; [posted]
    lists the POST requests sent, each with its JSON body, and [got] the
    GET requests sent, each with its query parameters, the latest first. *)
Record World : Type := mkWorld {
  config : Config;
  disk : Disk;
  env : Env;
  posted : list (string * dict);
  got : list (string * dict)
}.

Definition IO (T : Type) : Type := M World T.

(** [appliedRadioName] and the content of the hostapd file. *)
Definition applied_ssid (w : World) : option string := wifi_ssid (config w).

Definition hostapd_file (w : World) : option string := hostapd_conf (disk w).

Definition set_config (f : Config -> Config) : IO unit :=
  modify (fun w => mkWorld (f (config w)) (disk w) (env w) (posted w) (got w)).

Definition set_disk (f : Disk -> Disk) : IO unit :=
  modify (fun w => mkWorld (config w) (f (disk w)) (env w) (posted w) (got w)).

Definition set_env (f : Env -> Env) : IO unit :=
  modify (fun w => mkWorld (config w) (disk w) (f (env w)) (posted w) (got w)).

Definition next_io : IO io_outcome :=
  o <- gets (fun w => hd IoOk (io (env w))) ;;
  set_env (fun e => mkEnv (tl (io e)) (procs e) (posts e) (fetches e)
                          (utcnow e) (cpu_serial e) (random_suffix e)) ;;;
  ret o.

Definition next_proc : IO proc_outcome :=
  o <- gets (fun w => hd (Exit 0) (procs (env w))) ;;
  set_env (fun e => mkEnv (io e) (tl (procs e)) (posts e) (fetches e)
                          (utcnow e) (cpu_serial e) (random_suffix e)) ;;;
  ret o.

Definition next_post : IO (option Response) :=
  o <- gets (fun w => hd None (posts (env w))) ;;
  set_env (fun e => mkEnv (io e) (procs e) (tl (posts e)) (fetches e)
                          (utcnow e) (cpu_serial e) (random_suffix e)) ;;;
  ret o.

Definition next_fetch : IO (option ConfigResponse) :=
  o <- gets (fun w => hd None (fetches (env w))) ;;
  set_env (fun e => mkEnv (io e) (procs e) (posts e) (tl (fetches e))
                          (utcnow e) (cpu_serial e) (random_suffix e)) ;;;
  ret o.

(** A file operation that either is done or raises without effect. *)
Definition io_step : IO unit :=
  o <- next_io ;;
  match o with
  | IoOk => ret tt
  | _ => raise (io_exn o)
  end.

(** [_get_timestamp]: [datetime.utcnow().isoformat() + 'Z'] *)
Definition _get_timestamp : IO string :=
  gets (fun w => (isoformat (utcnow (env w)) ++ "Z")%string).

(** ** Config: the methods that touch the disk *)

(** [save_device_config]: the new content goes to [device.tmp], which then
    replaces [device.conf]; [chmod] follows. *)
Definition save_device_config : IO unit :=
  try_except
    (io_step ;;;
     c <- gets config ;;
     set_disk (fun d => mkDisk (Some (device_conf_of c)) (config_cache d)
                               (hostapd_conf d)) ;;;
     io_step)
    (fun e => raise e).

(** [save_event_config(config_data, version)] *)
Definition save_event_config (config_data : EventConfig) (version : Z) : IO unit :=
  try_except
    (ts <- _get_timestamp ;;
     io_step ;;;
     set_disk (fun d => mkDisk (device_conf d)
                               (Some (mkConfigCache config_data version ts))
                               (hostapd_conf d)) ;;;
     set_config (set_event_config (Some config_data) (Some version)))
    (fun e => raise e).

(** [clear_event_config] *)
Definition clear_event_config : IO unit :=
  try_except
    (cache <- gets (fun w => config_cache (disk w)) ;;
     match cache with
     | Some _ =>
         io_step ;;;
         set_disk (fun d => mkDisk (device_conf d) None (hostapd_conf d))
     | None => ret tt
     end ;;;
     set_config (set_event_config None None))
    (fun _ => ret tt).

(** [wipe_device_data] *)
Definition wipe_device_data : IO unit :=
  try_except
    (set_config (set_device_token None) ;;;
     set_config (set_device_id None) ;;;
     clear_event_config ;;;
     save_device_config)
    (fun e => raise e).

(** The serial [get_serial_number] makes up: from the CPU serial when
    [/proc/cpuinfo] gives one, from a random number otherwise. *)
Definition generated_serial (e : Env) : string :=
  match cpu_serial e with
  | Some cpu => ("CS-SHAKA-V1-" ++ last3 cpu)%string
  | None => ("CS-SHAKA-V1-" ++ pad 3 (random_suffix e))%string
  end.

(** [get_serial_number] *)
Definition get_serial_number : IO string :=
  c <- gets config ;;
  match device_serial c with
  | Some s =>
      if negb (String.eqb s "") then ret s
      else
        e <- gets env ;;
        set_config (set_device_serial (Some (generated_serial e))) ;;;
        ret (generated_serial e)
  | None =>
      e <- gets env ;;
      set_config (set_device_serial (Some (generated_serial e))) ;;;
      ret (generated_serial e)
  end.

(** ** ManagementAgent *)

Section Agent.

(** [hmac.new(key, msg, hashlib.sha256).hexdigest()], on the bytes of key
    and message. *)
Variable hmac_sha256_hexdigest : string -> string -> string.

(** [self.session.get(url, params=params, timeout=30)] *)
Definition session_get (url : string) (params : dict) : IO ConfigResponse :=
  modify (fun w => mkWorld (config w) (disk w) (env w) (posted w)
                           ((url, params) :: got w)) ;;;
  r <- next_fetch ;;
  match r with
  | Some response => ret response
  | None => raise RequestException
  end.

(** [fetch_configuration] *)
Definition fetch_configuration : IO (option EventConfig) :=
  c <- gets config ;;
  if negb (is_registered c) then ret None
  else
    try_except
      (let url := (backend_url c ++ "/api/v1/devices/config")%string in
       let params :=
         [("device_token", match device_token c with
                           | Some t => JStr t
                           | None => JNull
                           end)] in
       response <- session_get url params ;;
       if cr_status_code response =? 200 then
         match cr_json_body response with
         | None => raise JSONDecodeError
         | Some (Some cfg) => ret (Some cfg)
         | Some None => ret None
         end
       else ret None)
      (fun _ => ret None).

(** Truth value of an optional int. *)
Definition truthy (v : option Z) : bool :=
  match v with
  | Some n => negb (n =? 0)
  | None => false
  end.

(** [config.get('config_version', 1)] *)
Definition version_of (cfg : EventConfig) : Z :=
  match ec_config_version cfg with
  | Some v => v
  | None => 1
  end.

(** [cache_configuration] *)
Definition cache_configuration (cfg : EventConfig) : IO bool :=
  try_except
    (let version := version_of cfg in
     c <- gets config ;;
     if truthy (config_version c) &&
        match config_version c with
        | Some cached => version <=? cached
        | None => false
        end
     then ret true
     else
       save_event_config cfg version ;;;
       ret true)
    (fun _ => ret false).

(** The [status] of a command result. *)
Inductive command_status : Type :=
| completed
| error.

Definition _handle_config_refresh : IO command_status :=
  cfg <- fetch_configuration ;;
  match cfg with
  | Some c => cache_configuration c ;;; ret completed
  | None => ret completed
  end.

(** [subprocess.run([...], check=True)] *)
Definition run_checked : IO unit :=
  o <- next_proc ;;
  match o with
  | Exit rc => if rc =? 0 then ret tt else raise OSError
  | ProcTimeout => raise TimeoutExpired
  | ProcError => raise OSError
  end.

Definition _handle_restart : IO command_status :=
  try_except
    (run_checked ;;; run_checked ;;; run_checked ;;; ret completed)
    (fun _ => ret error).

Definition _handle_wipe : IO command_status :=
  try_except
    (wipe_device_data ;;; ret completed)
    (fun _ => ret error).

Definition _handle_firmware_update (url : option string) : IO command_status :=
  ret error.

(** [process_command].  The two [command.get] calls stand before the
    [try]: on a value that is no dict they raise [AttributeError], which
    leaves the method. *)
Definition process_command (command : Command) : IO command_status :=
  match command with
  | not_a_dict => raise AttributeError
  | mkCommand command_type firmware_url =>
      try_except
        (match command_type with
         | Some ty =>
             if String.eqb ty "config_refresh" then _handle_config_refresh
             else if String.eqb ty "restart" then _handle_restart
             else if String.eqb ty "wipe" then _handle_wipe
             else if String.eqb ty "update_firmware"
                  then _handle_firmware_update firmware_url
             else ret error
         | None => ret error
         end)
        (fun _ => ret error)
  end.

(** ** apply_ssid_configuration *)

(** The loop over [original_lines]: every line that starts with [ssid=]
    once stripped becomes the new line; the flag tells whether there was
    one. *)
Definition is_ssid_line (line : string) : bool :=
  startswith "ssid=" (strip line).

Definition ssid_line (wifi_ssid : string) : string :=
  ("ssid=" ++ wifi_ssid ++ String LF "")%string.

Definition replace_ssid (wifi_ssid : string) (original_lines : list string)
  : list string * bool :=
  (map (fun line => if is_ssid_line line then ssid_line wifi_ssid else line)
       original_lines,
   existsb is_ssid_line original_lines).

(** [with open(hostapd_conf_path, 'r') as f: f.readlines()] *)
Definition read_hostapd : IO (list string) :=
  o <- next_io ;;
  match o with
  | IoOk =>
      content <- gets (fun w => hostapd_conf (disk w)) ;;
      match content with
      | Some text => ret (readlines text)
      | None => raise FileNotFoundError
      end
  | _ => raise (io_exn o)
  end.

(** [with open(hostapd_conf_path, 'w') as f: f.writelines(lines)] *)
Definition write_hostapd (lines : list string) : IO unit :=
  o <- next_io ;;
  match o with
  | IoOk =>
      set_disk (fun d => mkDisk (device_conf d) (config_cache d)
                                (Some (writelines lines)))
  | IoBroken residue =>
      set_disk (fun d => mkDisk (device_conf d) (config_cache d) (Some residue)) ;;;
      raise OSError
  | _ => raise (io_exn o)
  end.

(** The rollback block that follows each failure of the restart. *)
Definition rollback (original_lines : list string) : IO unit :=
  match original_lines with
  | [] => ret tt
  | _ => try_except (write_hostapd original_lines) (fun _ => ret tt)
  end.

Definition apply_ssid_configuration (wifi_ssid : string) : IO bool :=
  try_except
    (r <- try_except
            (lines <- read_hostapd ;; ret (Some lines))
            (fun e => match e with
                      | FileNotFoundError => ret None
                      | PermissionError => ret None
                      | _ => raise e
                      end) ;;
     match r with
     | None => ret false
     | Some original_lines =>
         let (new_lines, ssid_found) := replace_ssid wifi_ssid original_lines in
         if negb ssid_found then ret false
         else
           written <- try_except
                        (write_hostapd new_lines ;;; ret true)
                        (fun e => match e with
                                  | PermissionError => ret false
                                  | _ => raise e
                                  end) ;;
           if negb written then ret false
           else
             o <- next_proc ;;
             match o with
             | Exit rc =>
                 if rc =? 0 then ret true
                 else rollback original_lines ;;; ret false
             | ProcTimeout => rollback original_lines ;;; ret false
             | ProcError => rollback original_lines ;;; ret false
             end
     end)
    (fun _ => ret false).

(** ** Heartbeat *)

Definition _get_firmware_version : string := "1.0.0".

(** The placeholder telemetry both heartbeat payloads carry. *)
Definition telemetry : json :=
  JDict [("cpu_usage", JFloat "0.0"); ("memory_usage", JFloat "0.0");
         ("disk_usage", JFloat "0.0"); ("wifi_client_count", JInt 0);
         ("uptime_seconds", JInt 0)].

Definition initial_payload (serial timestamp : string) : dict :=
  [("serial_number", JStr serial);
   ("firmware_version", JStr _get_firmware_version);
   ("telemetry", telemetry);
   ("timestamp", JStr timestamp)].

Definition authenticated_payload (token timestamp : string) : dict :=
  [("device_token", JStr token);
   ("telemetry", telemetry);
   ("timestamp", JStr timestamp)].

(** [_sign_request] *)
Definition _sign_request (payload : dict) : IO string :=
  c <- gets config ;;
  match device_token c with
  | None => raise (ValueError "No device token available")
  | Some token =>
      if String.eqb token "" then raise (ValueError "No device token available")
      else ret (hmac_sha256_hexdigest (utf8 token)
                                      (utf8 (dumps_canonical (JDict payload))))
  end.

(** [has_token]: [device_token is not None and device_token != ""] *)
Definition has_token (c : Config) : bool :=
  match device_token c with
  | Some t => negb (String.eqb t "")
  | None => false
  end.

(** [self.session.post(url, json=request_data, timeout=30)] *)
Definition session_post (url : string) (request_data : dict) : IO Response :=
  modify (fun w => mkWorld (config w) (disk w) (env w)
                           ((url, request_data) :: posted w) (got w)) ;;;
  r <- next_post ;;
  match r with
  | Some response => ret response
  | None => raise RequestException
  end.

(** The world once [request_data] went to [url] and the answer was taken
    from the script. *)
Definition after_post (url : string) (request_data : dict) (w : World) : World :=
  mkWorld (config w) (disk w)
          (mkEnv (io (env w)) (procs (env w)) (tl (posts (env w)))
                 (fetches (env w)) (utcnow (env w)) (cpu_serial (env w))
                 (random_suffix (env w)))
          ((url, request_data) :: posted w) (got w).

(** The request body of [send_heartbeat]: the initial payload as it is when
    [has_token] is false, the authenticated payload with its signature
    otherwise. *)
Definition heartbeat_request (timestamp : string) : IO dict :=
  c <- gets config ;;
  match device_token c with
  | Some token =>
      if has_token c then
        let payload := authenticated_payload token timestamp in
        signature <- _sign_request payload ;;
        ret (dict_merge payload [("signature", JStr signature)])
      else
        serial <- get_serial_number ;;
        ret (initial_payload serial timestamp)
  | None =>
      serial <- get_serial_number ;;
      ret (initial_payload serial timestamp)
  end.

(** The token a 200 response carries: taken when the device had none,
    compared and taken when it differs otherwise; null cannot be sliced for
    the log line. *)
Definition take_token (had_token : bool) (data : HeartbeatData) : IO unit :=
  match hb_device_token data with
  | None => ret tt
  | Some token =>
      if negb had_token then
        set_config (set_device_token token) ;;;
        save_device_config
      else
        c <- gets config ;;
        match token, device_token c with
        | Some new_token, Some current =>
            if String.eqb new_token current then ret tt
            else
              set_config (set_device_token (Some new_token)) ;;;
              save_device_config
        | Some new_token, None =>
            set_config (set_device_token (Some new_token)) ;;;
            save_device_config
        | None, Some _ => raise TypeError
        | None, None => ret tt
        end
  end.

(** The block "Check for SSID configuration changes". *)
Definition reconcile_ssid (data : HeartbeatData) : IO unit :=
  match hb_configuration data with
  | Some conf =>
      c <- gets config ;;
      match hc_wifi_ssid conf with
      | None => ret tt
      | Some new_ssid =>
          let changed := match wifi_ssid c with
                         | Some current => negb (String.eqb new_ssid current)
                         | None => true
                         end in
          if changed then
            applied <- apply_ssid_configuration new_ssid ;;
            if applied then
              set_config (set_wifi_ssid (Some new_ssid)) ;;;
              save_device_config
            else ret tt
          else ret tt
      end
  | None => ret tt
  end.

Fixpoint process_commands (commands : list Command) : IO unit :=
  match commands with
  | [] => ret tt
  | command :: rest => process_command command ;;; process_commands rest
  end.

(** [send_heartbeat]; the value is the response body, or [None]. *)
Definition send_heartbeat : IO (option HeartbeatData) :=
  try_except
    (timestamp <- _get_timestamp ;;
     c <- gets config ;;
     let url := (backend_url c ++ "/api/v1/devices/heartbeat")%string in
     let had_token := has_token c in
     request_data <- heartbeat_request timestamp ;;
     response <- session_post url request_data ;;
     if status_code response =? 200 then
       match json_body response with
       | None => raise JSONDecodeError
       | Some data =>
           take_token had_token data ;;;
           if match hb_status data with
              | Some s => String.eqb s "token_revoked"
              | None => false
              end
           then wipe_device_data ;;; ret None
           else
             reconcile_ssid data ;;;
             process_commands (hb_commands data) ;;;
             ret (Some data)
       end
     else if status_code response =? 401 then ret None
     else ret None)
    (fun _ => ret None).

End Agent.

(** ** The check the backend makes

    "Verifying the signature with the stored credential against the
    canonical JSON of the body (minus signature) succeeds": the receiver
    recomputes the HMAC over the body without its [signature] member. *)
Definition verify_signature (hmac_sha256_hexdigest : string -> string -> string)
           (credential : string) (body : dict) : bool :=
  match dict_get "signature" body with
  | Some (JStr signature) =>
      String.eqb signature
        (hmac_sha256_hexdigest
           (utf8 credential)
           (utf8 (dumps_canonical (JDict (dict_remove "signature" body)))))
  | _ => false
  end.

End ManagementAgent.

(* ================================================================== *)
(** * telemetry_agent.py: the heartbeat of the telemetry agent *)
(* ================================================================== *)

(** The second sender of heartbeats.  It shares the [Config] object's
    methods and the world of the management agent, and keeps a retry
    counter of its own. *)
Module TelemetryAgent.

Import Json Text Config Datetime ManagementAgent.

(** The world and [self.retry_count]. *)
Definition State : Type := (World * Z)%type.

(** A method of the shared world, run by this agent. *)
Definition on_world {T} (m : IO T) : M State T :=
  fun s => let (r, w') := m (fst s) in (r, (w', snd s)).

Section Agent.

Variable hmac_sha256_hexdigest : string -> string -> string.

(** [send_heartbeat]; [telemetry] is what [collect_system_telemetry]
    returned. *)
Definition send_heartbeat (telemetry : json) : M State (option HeartbeatData) :=
  c0 <- on_world (gets config) ;;
  if negb (is_registered c0) then ret None
  else
    try_except
      (timestamp <- on_world ManagementAgent._get_timestamp ;;
       c <- on_world (gets config) ;;
       let url := (backend_url c ++ "/api/v1/devices/heartbeat")%string in
       let payload :=
         [("device_token", match device_token c with
                           | Some t => JStr t
                           | None => JNull
                           end);
          ("telemetry", telemetry);
          ("timestamp", JStr timestamp)] in
       signature <- on_world (_sign_request hmac_sha256_hexdigest payload) ;;
       response <- on_world
                     (session_post url
                        (dict_merge payload [("signature", JStr signature)])) ;;
       if status_code response =? 200 then
         match json_body response with
         | None => raise JSONDecodeError
         | Some data =>
             if match hb_status data with
                | Some s => String.eqb s "token_revoked"
                | None => false
                end
             then on_world wipe_device_data ;;; ret None
             else
               match hb_device_token data with
               | None => ret tt
               | Some token =>
                   c' <- on_world (gets config) ;;
                   match token, device_token c' with
                   | Some new_token, Some current =>
                       if String.eqb new_token current then ret tt
                       else
                         on_world (set_config (set_device_token (Some new_token))) ;;;
                         on_world save_device_config
                   | Some new_token, None =>
                       on_world (set_config (set_device_token (Some new_token))) ;;;
                       on_world save_device_config
                   | None, Some _ => raise TypeError
                   | None, None => ret tt
                   end
               end ;;;
               modify (fun s : State => (fst s, 0)) ;;;
               ret (Some data)
         end
       else if status_code response =? 401 then
         on_world (set_config (set_device_token None)) ;;;
         on_world save_device_config ;;;
         ret None
       else ret None)
      (fun _ => ret None).

End Agent.

End TelemetryAgent.

(** ** Small worlds used to exercise the statements *)

Module AgentExamples.

Import Json Text Config Datetime ManagementAgent.

(** A stand-in for HMAC-SHA256 where a concrete value is needed. *)
Definition toy_hmac (key msg : string) : string := (key ++ "|" ++ msg)%string.

Definition noon : datetime := mkDatetime 2024 1 5 12 0 7 0.

Definition lobby_v3 : EventConfig := mkEventConfig (Some 3) "lobby".

(** A provisioned device with a cached event configuration. *)
Definition registered_config : Config :=
  mkConfig (Some 17) (Some "CS-SHAKA-V1-042") (Some "T1")
           DEFAULT_BACKEND_URL 60 120 (Some lobby_v3) (Some 3) (Some "EventNet").

Definition hostapd_text : string :=
  ("interface=wlan0" ++ String LF "" ++ "ssid=EventNet" ++ String LF "" ++
   "channel=6" ++ String LF "")%string.

Definition registered_disk : Disk :=
  mkDisk (Some (device_conf_of registered_config))
         (Some (mkConfigCache lobby_v3 3 "2024-01-05T11:00:00Z"))
         (Some hostapd_text).

Definition quiet_env (post : option Response) : Env :=
  mkEnv [] [] [post] [] noon (Some "00000000abcde042") 7.

Definition registered_world (post : option Response) : World :=
  mkWorld registered_config registered_disk (quiet_env post) [] [].

(** A device that was never provisioned. *)
Definition fresh_world (post : option Response) : World :=
  mkWorld init (mkDisk None None (Some hostapd_text)) (quiet_env post) [] [].

Definition no_data : HeartbeatData := mkHeartbeatData None None None [].

(** The backend asks for the radio name "EventNet2". *)
Definition rename_data : HeartbeatData :=
  mkHeartbeatData None None (Some (mkHbConfiguration (Some "EventNet2"))) [].

Definition renamed_text : string :=
  ("interface=wlan0" ++ String LF "" ++ "ssid=EventNet2" ++ String LF "" ++
   "channel=6" ++ String LF "")%string.

(** The registered device with the file operations and the [systemctl] runs
    scripted, and [text] in the hostapd file. *)
Definition scripted_world (text : string) (ios : list io_outcome)
           (runs : list proc_outcome) : World :=
  mkWorld registered_config
          (mkDisk (Some (device_conf_of registered_config))
                  (Some (mkConfigCache lobby_v3 3 "2024-01-05T11:00:00Z"))
                  (Some text))
          (mkEnv ios runs [] [] noon (Some "00000000abcde042") 7)
          [] [].

(** The same file saved with CR LF line ends. *)
Definition hostapd_text_crlf : string :=
  ("interface=wlan0" ++ String CR (String LF "") ++
   "ssid=EventNet" ++ String CR (String LF "") ++
   "channel=6" ++ String CR (String LF ""))%string.

(** A device whose cached configuration has version 0. *)
Definition version_zero_world : World :=
  mkWorld (set_event_config (Some (mkEventConfig (Some 0) "draft")) (Some 0)
                            registered_config)
          registered_disk (quiet_env None) [] [].

Definition older_config : EventConfig := mkEventConfig (Some (-1)) "older".

(** A device whose stored credential is the empty string. *)
Definition empty_token_world (post : option Response) : World :=
  mkWorld (set_device_token (Some "") registered_config) registered_disk
          (quiet_env post) [] [].

End AgentExamples.
(* ================================================================== *)
(** * telemetry_queue.py: statistics, and histories of calls *)
(* ================================================================== *)

Module QueueStats.

Import TelemetryQueue.

(** The dict [get_queue_stats] returns.  [size_bytes] carries [size_mb]:
    the float is [st_size / (1024 * 1024)], of which the numerator is kept
    (the except branch answers 0 for it). *)
Record Stats : Type := mkStats {
  analytics_count : Z;
  submission_count : Z;
  total_count : Z;
  size_bytes : Z
}.

Definition no_stats : Stats := mkStats 0 0 0 0.

(** [sum(l)] *)
Definition sumZ (l : list Z) : Z := fold_right Z.add 0 l.

(** The item types present in the table, each once. *)
Fixpoint distinct_types (l : list Row) : list Z :=
  match l with
  | [] => []
  | r :: l' =>
      if existsb (Z.eqb (item_type r)) (distinct_types l')
      then distinct_types l'
      else item_type r :: distinct_types l'
  end.

(** [SELECT item_type, COUNT( * ) as count FROM queue_items GROUP BY item_type]:
    one row per type, in type order. *)
Definition group_by_type (t : Table) : list (Z * Z) :=
  map (fun v => (v, count_type v t)) (order_by Z.leb (distinct_types (rows t))).

(** The body of the loop over the cursor. *)
Definition tally (stats : Stats) (row : Z * Z) : Stats :=
  let (item_type_value, count) := row in
  let stats' :=
    if item_type_value =? value ANALYTICS_RECORD
    then mkStats count (submission_count stats) (total_count stats)
                 (size_bytes stats)
    else if item_type_value =? value PORTAL_SUBMISSION
    then mkStats (analytics_count stats) count (total_count stats)
                 (size_bytes stats)
    else stats in
  mkStats (analytics_count stats') (submission_count stats')
          (total_count stats' + count) (size_bytes stats').

(** [get_queue_stats]; [stat] is what [self.db_path.stat().st_size] answers,
    a size or an [OSError]. *)
Definition get_queue_stats (stat : result Z) : Sql Stats :=
  try_except
    (transaction (fun t =>
       let stats := fold_left tally (group_by_type t) no_stats in
       match stat with
       | Ok st_size =>
           Ok (mkStats (analytics_count stats) (submission_count stats)
                       (total_count stats) st_size, t)
       | Raise e => Raise e
       end))
    (fun _ => ret no_stats).

End QueueStats.

(** ** Histories: any sequence of calls on one queue *)

Module QueueHistory.

Import TelemetryQueue QueueStats.

(** A call of a public method of [QueueManager], with its arguments. *)
Inductive call : Type :=
| Enqueue_analytics (record : result string)
| Enqueue_submission (submission : result string)
| Dequeue_batch (batch_size : Z)
| Mark_synced (item_ids : list Z)
| Mark_failed (item_ids : list Z)
| Get_queue_stats (stat : result Z)
| Cleanup_old_records (days : Z).

(** One of the things that happen to a queue between two instants: a call,
    or the clock moving on. *)
Inductive event : Type :=
| Call (c : call)
| Tick (now : Datetime.datetime).

(** The world a call leaves behind, whether it returned or raised. *)
Definition run_call (self : QueueManager) (c : call) (w : World) : World :=
  match c with
  | Enqueue_analytics record => snd (enqueue_analytics self record w)
  | Enqueue_submission submission => snd (enqueue_submission self submission w)
  | Dequeue_batch batch_size => snd (dequeue_batch batch_size w)
  | Mark_synced item_ids => snd (mark_synced item_ids w)
  | Mark_failed item_ids => snd (mark_failed item_ids w)
  | Get_queue_stats stat => snd (get_queue_stats stat w)
  | Cleanup_old_records days => snd (cleanup_old_records days w)
  end.

Definition run_event (self : QueueManager) (e : event) (w : World) : World :=
  match e with
  | Call c => run_call self c w
  | Tick now => mkWorld (table w) (faults w) now
  end.

(** The update of [mark_failed], row by row. *)
Definition bumped (ts : string) (ids : list Z) (r : Row) : Row :=
  if id_in ids r
  then mkRow (id r) (item_type r) (priority r) (data r) (created_at r)
             (retry_count r + 1) (Some ts)
  else r.

(** [r'] is the row [r] as it is later: the same item, whatever its retry
    bookkeeping. *)
Definition same_item (r r' : Row) : Prop :=
  id r' = id r /\ item_type r' = item_type r /\ priority r' = priority r /\
  data r' = data r /\ created_at r' = created_at r.

(** A table is a later state of another: the counter did not go back, and
    every row is an old item or has an id the old table had never used. *)
Definition later (t t' : Table) : Prop :=
  seq t <= seq t' /\
  forall r', In r' (rows t') ->
             seq t < id r' \/ exists r, In r (rows t) /\ same_item r r'.

(** Both kinds of item are within the limits the enqueue methods check. *)
Definition within_limits (self : QueueManager) (t : Table) : Prop :=
  count_type (value ANALYTICS_RECORD) t <= MAX_ANALYTICS_RECORDS self /\
  count_type (value PORTAL_SUBMISSION) t <= MAX_SUBMISSIONS self.

Fixpoint run (self : QueueManager) (history : list event) (w : World) : World :=
  match history with
  | [] => w
  | e :: rest => run self rest (run_event self e w)
  end.

End QueueHistory.
(* ================================================================== *)
(** * telemetry_agent.py: batch sync and provisioning *)
(* ================================================================== *)

(** The telemetry agent holds the shared [Config] object and the queue: its
    methods run on the world of the agents and on the world of the queue. *)
Module BatchSync.

Import Json Text Config Datetime ManagementAgent.

Definition Device : Type := (World * TelemetryQueue.World)%type.

(** A method of [self.config] or of the agent itself. *)
Definition on_agent {T} (m : IO T) : M Device T :=
  fun s => let (r, w') := m (fst s) in (r, (w', snd s)).

(** A method of [self.queue]. *)
Definition on_queue {T} (m : TelemetryQueue.Sql T) : M Device T :=
  fun s => let (r, q') := m (snd s) in (r, (fst s, q')).

(** [type == ty] on the members of the enum *)
Definition QueueItemType_eqb (a b : TelemetryQueue.QueueItemType) : bool :=
  TelemetryQueue.value a =? TelemetryQueue.value b.

(** [[(id, data) for id, type, data in batch if type == ty]] *)
Definition items_of_type (ty : TelemetryQueue.QueueItemType)
           (batch : list (Z * TelemetryQueue.QueueItemType * string))
  : list (Z * string) :=
  map (fun item => (fst (fst item), snd item))
      (filter (fun item => QueueItemType_eqb (snd (fst item)) ty) batch).

Section Agent.

Variable hmac_sha256_hexdigest : string -> string -> string.

(** [json.loads], which [dequeue_batch] applies to the stored text of each
    item before handing it out. *)
Variable json_loads : string -> json.

(** The body shared by [_send_analytics_batch] and [_send_submissions_batch],
    which differ in the end of the URL and in the name of the member that
    holds the items.  The timestamp is that of [_get_timestamp]: the aware
    UTC time printed by [isoformat] with its [+00:00] replaced by [Z]. *)
Definition send_batch (path key : string) (items : list json) : IO bool :=
  try_except
    (c <- gets config ;;
     let url := (backend_url c ++ path)%string in
     timestamp <- _get_timestamp ;;
     let payload :=
       [("device_token", match device_token c with
                         | Some t => JStr t
                         | None => JNull
                         end);
        (key, JList items);
        ("timestamp", JStr timestamp)] in
     signature <- _sign_request hmac_sha256_hexdigest payload ;;
     response <- session_post url
                   (dict_merge payload [("signature", JStr signature)]) ;;
     ret (status_code response =? 200))
    (fun _ => ret false).

Definition _send_analytics_batch (records : list json) : IO bool :=
  send_batch "/api/v1/devices/analytics" "records" records.

Definition _send_submissions_batch (submissions : list json) : IO bool :=
  send_batch "/api/v1/devices/submissions" "submissions" submissions.

(** One of the two blocks "Sync analytics" and "Sync submissions": nothing
    when the partition is empty, else one request, and [mark_synced] or
    [mark_failed] on the ids of the partition. *)
Definition sync_items (send : list json -> IO bool) (items : list (Z * string))
  : M Device unit :=
  match items with
  | [] => ret tt
  | _ =>
      let ids := map fst items in
      let data := map snd items in
      sent <- on_agent (send (map json_loads data)) ;;
      if sent then on_queue (TelemetryQueue.mark_synced ids)
      else on_queue (TelemetryQueue.mark_failed ids)
  end.

(** [sync_queued_analytics] *)
Definition sync_queued_analytics : M Device bool :=
  c <- on_agent (gets config) ;;
  if negb (is_registered c) then ret false
  else
    try_except
      (batch <- on_queue (TelemetryQueue.dequeue_batch 100) ;;
       match batch with
       | [] => ret true
       | _ =>
           let analytics_items :=
             items_of_type TelemetryQueue.ANALYTICS_RECORD batch in
           let submission_items :=
             items_of_type TelemetryQueue.PORTAL_SUBMISSION batch in
           sync_items _send_analytics_batch analytics_items ;;;
           sync_items _send_submissions_batch submission_items ;;;
           ret true
       end)
      (fun _ => ret false).

(** [send_initial_heartbeat]; [telemetry] is what [collect_system_telemetry]
    returned.  The value is the token of the response when it is truthy. *)
Definition send_initial_heartbeat (telemetry : json) : IO (option string) :=
  try_except
    (timestamp <- _get_timestamp ;;
     c <- gets config ;;
     let url := (backend_url c ++ "/api/v1/devices/heartbeat")%string in
     serial <- get_serial_number ;;
     let payload :=
       [("serial_number", JStr serial);
        ("firmware_version", JStr _get_firmware_version);
        ("telemetry", telemetry);
        ("timestamp", JStr timestamp)] in
     response <- session_post url payload ;;
     if status_code response =? 200 then
       match json_body response with
       | None => raise JSONDecodeError
       | Some data =>
           match hb_device_token data with
           | Some (Some token) =>
               if negb (String.eqb token "") then ret (Some token) else ret None
           | _ => ret None
           end
       end
     else ret None)
    (fun _ => ret None).

(** The heartbeat branch of the main loop for a device that is not
    registered: the token, when one came, is stored and saved. *)
Definition provision (telemetry : json) : IO unit :=
  token <- send_initial_heartbeat telemetry ;;
  match token with
  | Some t =>
      set_config (set_device_token (Some t)) ;;;
      save_device_config
  | None => ret tt
  end.

End Agent.

(** Whether a request was answered, and with status 200. *)
Definition answered_200 (answer : option Response) : bool :=
  match answer with
  | Some response => status_code response =? 200
  | None => false
  end.

(** The URLs of the two batch requests. *)
Definition analytics_url (c : Config) : string :=
  (backend_url c ++ "/api/v1/devices/analytics")%string.

Definition submissions_url (c : Config) : string :=
  (backend_url c ++ "/api/v1/devices/submissions")%string.

(** What [dequeue_batch(batch_size=100)] hands to the sync: the items, none
    when the store fails. *)
Definition batch_of (q : TelemetryQueue.World)
  : list (Z * TelemetryQueue.QueueItemType * string) :=
  match fst (TelemetryQueue.dequeue_batch 100 q) with
  | Ok batch => batch
  | Raise _ => []
  end.

(** The rows [dequeue_batch(batch_size=100)] selects when the store answers. *)
Definition selected (t : TelemetryQueue.Table) : list TelemetryQueue.Row :=
  TelemetryQueue.sql_limit 100
    (order_by TelemetryQueue.priority_created_leb (TelemetryQueue.rows t)).

(** What becomes of a row when the partition [ids] is settled with the
    store answering: deleted when the request was acknowledged, its retry
    count raised when not, untouched when it is not of the partition. *)
Definition settled (ts : string) (sent : bool) (ids : list Z)
           (r : TelemetryQueue.Row) : option TelemetryQueue.Row :=
  if TelemetryQueue.id_in ids r
  then if sent then None else Some (QueueHistory.bumped ts ids r)
  else Some r.

(** The rows of the table once the partition [ids] is settled. *)
Definition settle_rows (ts : string) (sent : bool) (ids : list Z)
           (table_rows : list TelemetryQueue.Row) : list TelemetryQueue.Row :=
  flat_map (fun r => match settled ts sent ids r with
                     | Some r' => [r']
                     | None => []
                     end)
           table_rows.

(** No row is new and no item was altered: every row of [t'] is an item of
    [t], and the AUTOINCREMENT counter is the same. *)
Definition kept (t t' : TelemetryQueue.Table) : Prop :=
  TelemetryQueue.seq t' = TelemetryQueue.seq t /\
  forall r', In r' (TelemetryQueue.rows t') ->
             exists r, In r (TelemetryQueue.rows t) /\ QueueHistory.same_item r r'.

End BatchSync.

(** ** A device and a queue used to exercise the statements *)

Module SyncExamples.

Import Json Config Datetime ManagementAgent AgentExamples.

(** The provisioned device, with the answers the backend will give. *)
Definition syncing_world (answers : list (option Response)) : World :=
  mkWorld registered_config registered_disk
          (mkEnv [] [] answers [] noon (Some "00000000abcde042") 7) [] [].

(** A stand-in for [json.loads] where a concrete value is needed. *)
Definition toy_loads (text : string) : json := JStr text.

Definition unavailable : option Response := Some (mkResponse 503 None).
Definition accepted : option Response := Some (mkResponse 200 None).

End SyncExamples.
(* ================================================================== *)
(** * portal_handler.py *)
(* ================================================================== *)

(** The handler holds the shared [Config] object and the queue, and runs
    [ndsctl]: its methods run on the world of the agents and on the world of
    the queue.  A form is a dict from field names to text, as a submitted
    form delivers it, in insertion order. *)
Module PortalHandler.

Import Json Text Config Datetime ManagementAgent BatchSync.

Definition Form : Type := list (string * string).

(** [d.get(k)] *)
Fixpoint form_get (k : string) (d : Form) : option string :=
  match d with
  | [] => None
  | (k', v) :: d' => if String.eqb k k' then Some v else form_get k d'
  end.

(** [k in d] *)
Definition form_has (k : string) (d : Form) : bool :=
  match form_get k d with Some _ => true | None => false end.

(** [d[k] = v]: an existing key keeps its place. *)
Fixpoint form_set (k v : string) (d : Form) : Form :=
  match d with
  | [] => [(k, v)]
  | (k', v') :: d' =>
      if String.eqb k k' then (k, v) :: d' else (k', v') :: form_set k v d'
  end.

(** [del d[k]] *)
Definition form_del (k : string) (d : Form) : Form :=
  filter (fun kv => negb (String.eqb k (fst kv))) d.

(** [not d.get(k)]: the field is missing or empty. *)
Definition blank (k : string) (d : Form) : bool :=
  match form_get k d with
  | Some v => String.eqb v ""
  | None => true
  end.

(** [c in s] for a character *)
Fixpoint contains (c : ascii) (s : string) : bool :=
  match s with
  | EmptyString => false
  | String c' s' => Ascii.eqb c c' || contains c s'
  end.

(** [str.isdigit] on the code points below 256: the decimal digits and the
    superscripts two, three and one. *)
Definition isdigit (c : ascii) : bool :=
  let n := N_of_ascii c in
  ((48 <=? n) && (n <=? 57) || (n =? 178) || (n =? 179) || (n =? 185))%N.

(** [''.join(c for c in phone if c.isdigit())] *)
Fixpoint digits_of (s : string) : string :=
  match s with
  | EmptyString => ""
  | String c s' => if isdigit c then String c (digits_of s') else digits_of s'
  end.

(** [json.dumps(d)] for a dict of text: members in insertion order, [", "]
    between them and [": "] after each key. *)
Definition dumps_form (d : Form) : string :=
  ("{" ++ join ", " (map (fun kv => (quoted (fst kv) ++ ": " ++ quoted (snd kv))%string) d)
       ++ "}")%string.

(** The result dict of [validate_submission]. *)
Record Validation : Type := mkValidation {
  valid : bool;
  errors : list string
}.

(** The result dict of [handle_submission]. *)
Inductive Outcome : Type :=
| Success (message : string)
| Failure (errors : list string).

(** [errors.append(e)] when [cond] *)
Definition append_if (cond : bool) (e : string) (errors : list string) : list string :=
  if cond then errors ++ [e] else errors.

Section Handler.

(** [hashlib.sha256(b).hexdigest()] *)
Variable sha256_hexdigest : string -> string.

(** The members of an event configuration, a dict. *)
Variable members : EventConfig -> dict.

Variable self_queue : TelemetryQueue.QueueManager.

(** Truth value of [event_config.get(k)]. *)
Definition flag (k : string) (event_config : dict) : bool :=
  match dict_get k event_config with
  | None => false
  | Some JNull => false
  | Some (JBool b) => b
  | Some (JInt n) => negb (n =? 0)
  | Some (JFloat r) => negb (String.eqb r "0.0" || String.eqb r "-0.0")
  | Some (JStr s) => negb (String.eqb s "")
  | Some (JList l) => match l with [] => false | _ => true end
  | Some (JDict d) => match d with [] => false | _ => true end
  end.

(** [validate_submission] *)
Definition validate_submission (c : Config) (form_data : Form) : Validation :=
  if negb (is_assigned c)
  then mkValidation false ["Device not assigned to event"]
  else
    match event_config c with
    | None => mkValidation false ["No event configuration available"]
    | Some e =>
        match members e with
        | [] => mkValidation false ["No event configuration available"]
        | event_config =>
            let errors := [] in
            let errors :=
              append_if (flag "require_email" event_config && blank "email" form_data)
                        "Email is required" errors in
            let errors :=
              append_if (flag "require_phone" event_config && blank "phone" form_data)
                        "Phone number is required" errors in
            let errors :=
              match form_get "email" form_data with
              | Some email =>
                  append_if (negb (String.eqb email "") &&
                             (negb (contains "@" email) || negb (contains "." email)))
                            "Invalid email format" errors
              | None => errors
              end in
            let errors :=
              match form_get "phone" form_data with
              | Some phone =>
                  append_if (negb (String.eqb phone "") &&
                             (Z.of_nat (String.length (digits_of phone)) <? 10))
                            "Invalid phone number" errors
              | None => errors
              end in
            let errors :=
              append_if (blank "first_name" form_data) "First name is required" errors in
            let errors :=
              append_if (blank "last_name" form_data) "Last name is required" errors in
            mkValidation (Z.of_nat (List.length errors) =? 0) errors
        end
    end.

(** [grant_wifi_access]: [ndsctl] is looked up, then run with [check=True]. *)
Definition grant_wifi_access (mac_address : string) : IO bool :=
  try_except
    (found <- next_proc ;;
     match found with
     | ProcTimeout => raise TimeoutExpired
     | ProcError => raise OSError
     | Exit returncode =>
         if negb (returncode =? 0) then ret true
         else run_checked ;;; ret true
     end)
    (fun _ => ret false).

(** [_hash_mac_address] *)
Definition _hash_mac_address (mac_address : string) : string :=
  sha256_hexdigest (utf8 mac_address).

(** What [queue_submission] makes of the dict it is given, before storing
    it. *)
Definition prepared (timestamp : string) (submission : Form) : Form :=
  let submission :=
    if negb (form_has "submission_timestamp" submission)
    then form_set "submission_timestamp" timestamp submission
    else submission in
  match form_get "mac_address" submission with
  | Some mac_address =>
      form_del "mac_address"
               (form_set "mac_address_hash" (_hash_mac_address mac_address)
                         submission)
  | None => submission
  end.

(** [queue_submission]; the dict is changed in place, and returned here with
    the result.  A form of text values is one [json.dumps] serialises. *)
Definition queue_submission (submission : Form) : M Device (bool * Form) :=
  timestamp <- on_agent _get_timestamp ;;
  let submission' := prepared timestamp submission in
  try_except
    (on_queue (TelemetryQueue.enqueue_submission self_queue
                 (Ok (dumps_form submission'))) ;;;
     ret (true, submission'))
    (fun _ => ret (false, submission')).

(** [handle_submission] *)
Definition handle_submission (form_data : Form) (mac_address : string)
  : M Device Outcome :=
  c <- on_agent (gets config) ;;
  let validation := validate_submission c form_data in
  if negb (valid validation) then ret (Failure (errors validation))
  else
    let form_data := form_set "mac_address" mac_address form_data in
    queued <- queue_submission form_data ;;
    if negb (fst queued) then ret (Failure ["Failed to save submission"])
    else
      on_agent (grant_wifi_access mac_address) ;;;
      ret (Success "Thank you for your submission!").

End Handler.

End PortalHandler.

(** ** A portal used to exercise the statements *)

Module PortalExamples.

Import Json Config PortalHandler.

(** An event that asks for an e-mail address. *)
Definition toy_members (e : EventConfig) : dict :=
  [("require_email", JBool true); ("html_content", JStr (ec_document e))].

(** A stand-in for SHA-256 where a concrete value is needed. *)
Definition toy_sha256 (bytes : string) : string := ("#" ++ bytes)%string.

Definition ada : Form :=
  [("first_name", "Ada"); ("last_name", "Lovelace");
   ("email", "ada@example.org")].

End PortalExamples.
(* ================================================================== *)
(** * config.py: loading, and management_agent.py: registration *)
(* ================================================================== *)

Module ConfigLoad.

Import Json Text Config Datetime ManagementAgent.

(** The attributes [Config.load] takes from [device.conf]. *)
Definition from_device_conf (saved : DeviceConf) (c : Config) : Config :=
  mkConfig (saved_device_id saved) (saved_device_serial saved)
           (saved_device_token saved) (saved_backend_url saved)
           (saved_heartbeat_interval saved)
           (saved_analytics_sync_interval saved)
           (event_config c) (config_version c) (saved_wifi_ssid saved).

(** The attributes it takes from [config.json]. *)
Definition from_config_cache (cache : ConfigCache) (c : Config) : Config :=
  set_event_config (Some (cached_configuration cache))
                   (Some (cached_version cache)) c.

(** [Config.load]: the two directories are made, then each file that exists
    is read into a fresh object; a file that cannot be read or parsed is
    logged and skipped.  The files are those [save_device_config] and
    [save_event_config] write. *)
Definition load : IO Config :=
  io_step ;;;
  io_step ;;;
  d <- gets disk ;;
  c1 <- match device_conf d with
        | Some saved =>
            try_except (io_step ;;; ret (from_device_conf saved init))
                       (fun _ => ret init)
        | None => ret init
        end ;;
  match config_cache d with
  | Some cache =>
      try_except (io_step ;;; ret (from_config_cache cache c1))
                 (fun _ => ret c1)
  | None => ret c1
  end.

(** Memory and [config.json] agree on the event configuration: both hold
    the same configuration and version, or neither holds one. *)
Definition cache_coherent (w : World) : Prop :=
  match config_cache (disk w) with
  | Some cache =>
      event_config (config w) = Some (cached_configuration cache) /\
      config_version (config w) = Some (cached_version cache)
  | None =>
      event_config (config w) = None /\ config_version (config w) = None
  end.

(** Running [m] keeps [P], whether it returns or raises. *)
Definition preserves {T} (P : World -> Prop) (m : IO T) : Prop :=
  forall w, P w -> P (snd (m w)).

End ConfigLoad.

Module Registration.

Import Json Text Config Datetime ManagementAgent.

(** The members of a registration response that the agent reads.  A member
    read with [data[...]] is [None] when the key is absent. *)
Record RegisterData : Type := mkRegisterData {
  rd_device_id : option (option Z);
  rd_device_token : option (option string);
  rd_backend_url : option string;
  rd_heartbeat_interval_seconds : option Z
}.

Record RegisterResponse : Type := mkRegisterResponse {
  rr_status_code : Z;
  rr_json_body : option RegisterData
}.

(** [register_device]; [answer] is what [session.post] gives for the
    registration request ([None]: the request raises).  [data[k]] on an
    absent key raises [KeyError], caught with every other exception. *)
Definition register_device (answer : option RegisterResponse) : IO bool :=
  try_except
    (serial_number <- get_serial_number ;;
     c <- gets config ;;
     let url := (backend_url c ++ "/api/v1/devices/register")%string in
     let payload := [("serial_number", JStr serial_number);
                     ("firmware_version", JStr _get_firmware_version)] in
     modify (fun w => mkWorld (config w) (disk w) (env w)
                              ((url, payload) :: posted w) (got w)) ;;;
     match answer with
     | None => raise RequestException
     | Some response =>
         if rr_status_code response =? 200 then
           match rr_json_body response with
           | None => raise JSONDecodeError
           | Some data =>
               match rd_device_id data with
               | None => raise (ValueError "KeyError: device_id")
               | Some new_id =>
                   set_config (set_device_id new_id) ;;;
                   set_config (set_device_serial (Some serial_number)) ;;;
                   match rd_device_token data with
                   | None => raise (ValueError "KeyError: device_token")
                   | Some new_token =>
                       set_config (set_device_token new_token) ;;;
                       set_config (fun c =>
                         mkConfig (device_id c) (device_serial c) (device_token c)
                                  (match rd_backend_url data with
                                   | Some url' => url'
                                   | None => backend_url c
                                   end)
                                  (match rd_heartbeat_interval_seconds data with
                                   | Some n => n
                                   | None => 60
                                   end)
                                  (analytics_sync_interval c) (event_config c)
                                  (config_version c) (wifi_ssid c)) ;;;
                       save_device_config ;;;
                       ret true
                   end
               end
           end
         else ret false
     end)
    (fun _ => ret false).

End Registration.
(* ================================================================== *)
(** * datetime: comparison, and decimal digits *)
(* ================================================================== *)

Module Chronology.

Import Datetime.

(** The comparison of two tuples, from that of their first members and that
    of the rest. *)
Definition lexi (first rest : comparison) : comparison :=
  match first with
  | Eq => rest
  | _ => first
  end.

(** [d1 < d2], [d1 == d2] or [d1 > d2] for two naive [datetime] objects:
    the fields are compared in turn, the year first. *)
Definition compare (d1 d2 : datetime) : comparison :=
  lexi (year d1 ?= year d2)
    (lexi (month d1 ?= month d2)
       (lexi (day d1 ?= day d2)
          (lexi (hour d1 ?= hour d2)
             (lexi (minute d1 ?= minute d2)
                (lexi (second d1 ?= second d2)
                   (microsecond d1 ?= microsecond d2)))))).

(** Two instants of the same second. *)
Definition same_second (d1 d2 : datetime) : Prop :=
  year d1 = year d2 /\ month d1 = month d2 /\ day d1 = day d2 /\
  hour d1 = hour d2 /\ minute d1 = minute d2 /\ second d1 = second d2.

(** What [_get_timestamp] returns at the instant [d]. *)
Definition timestamp (d : datetime) : string := (isoformat d ++ "Z")%string.

(** ** Decimal digits *)

Definition digit_char (k : N) : ascii := ascii_of_N (48 + k).

(** [10 ** w] *)
Fixpoint pow10 (w : nat) : N :=
  match w with
  | O => 1
  | S w' => 10 * pow10 w'
  end.

(** The [w] low digits of [n], the most significant first. *)
Fixpoint dec (w : nat) (n : N) : string :=
  match w with
  | O => ""
  | S w' => (dec w' (n / 10) ++ String (digit_char (n mod 10)) "")%string
  end.

(** The end of a timestamp: the fraction of [isoformat], printed when the
    microseconds are not zero, and the [Z]. *)
Definition fraction (d : datetime) : string :=
  if microsecond d =? 0 then "Z"
  else String "." (dec 6 (Z.to_N (microsecond d)) ++ "Z")%string.

(** The digit [k] put in front of a number in Stdlib's decimal notation. *)
Definition push (k : N) (d : Decimal.uint) : Decimal.uint :=
  match k with
  | 0%N => Decimal.D0 d
  | 1%N => Decimal.D1 d
  | 2%N => Decimal.D2 d
  | 3%N => Decimal.D3 d
  | 4%N => Decimal.D4 d
  | 5%N => Decimal.D5 d
  | 6%N => Decimal.D6 d
  | 7%N => Decimal.D7 d
  | 8%N => Decimal.D8 d
  | _ => Decimal.D9 d
  end.

(** The [w] low digits of [n], the least significant first. *)
Fixpoint lu (w : nat) (n : N) : Decimal.uint :=
  match w with
  | O => Decimal.Nil
  | S w' => push (n mod 10) (lu w' (n / 10))
  end.

End Chronology.

(** ** Two records of the same second *)

Module ChronologyExamples.

Import Datetime TelemetryQueue QueueExamples.

(** Half a second after [noon_jan_5], which is on the full second. *)
Definition half_past : datetime := mkDatetime 2024 1 5 12 0 7 500000.

(** The record enqueued on the full second, and the one enqueued half a
    second later. *)
Definition sharp : Row := mkRow 1 2 2 "first" "2024-01-05T12:00:07Z" 0 None.
Definition half : Row := mkRow 2 2 2 "second" "2024-01-05T12:00:07.500000Z" 0 None.

(** The queue of [small_manager], full with these two, a moment later. *)
Definition two_stamps : World := mkWorld (mkTable [sharp; half] 2) [] half_past.

(** An empty queue on the full second. *)
Definition fresh_queue : World := mkWorld empty_table [] noon_jan_5.

End ChronologyExamples.
(* ================================================================== *)
(** * Facts: text order and ORDER BY *)
(* ================================================================== *)

(** SQLite compares TEXT values with the BINARY collation and Python compares
    [str] by code point: both are the lexicographic order [String.leb]. *)
Module TextOrder.

Lemma ascii_compare_refl (c : ascii) : Ascii.compare c c = Eq.
Proof. unfold Ascii.compare. apply N.compare_refl. Qed.

Lemma compare_refl (s : string) : String.compare s s = Eq.
Proof.
  induction s as [|c s IH]; simpl; [reflexivity|].
  now rewrite ascii_compare_refl.
Qed.

Lemma leb_refl (s : string) : String.leb s s = true.
Proof. unfold String.leb. now rewrite compare_refl. Qed.

Lemma ascii_compare_trans (a b c : ascii) (o : comparison) :
  o <> Eq -> Ascii.compare a b = o -> Ascii.compare b c = o ->
  Ascii.compare a c = o.
Proof.
  unfold Ascii.compare. intros Ho H1 H2.
  destruct o; try congruence.
  - rewrite N.compare_lt_iff in *. lia.
  - rewrite N.compare_gt_iff in *. lia.
Qed.

Lemma compare_lt_trans (s1 : string) :
  forall s2 s3, String.compare s1 s2 = Lt -> String.compare s2 s3 = Lt ->
                String.compare s1 s3 = Lt.
Proof.
  induction s1 as [|a s1 IH]; intros [|b s2] [|c s3]; simpl;
    try congruence.
  destruct (Ascii.compare a b) eqn:Hab; try discriminate;
    destruct (Ascii.compare b c) eqn:Hbc; try discriminate; intros H1 H2.
  - apply Ascii.compare_eq_iff in Hab, Hbc. subst.
    rewrite ascii_compare_refl. eauto.
  - apply Ascii.compare_eq_iff in Hab. subst. now rewrite Hbc.
  - apply Ascii.compare_eq_iff in Hbc. subst. now rewrite Hab.
  - now rewrite (@ascii_compare_trans a b c Lt) by congruence.
Qed.

Lemma leb_trans (s1 s2 s3 : string) :
  String.leb s1 s2 = true -> String.leb s2 s3 = true ->
  String.leb s1 s3 = true.
Proof.
  unfold String.leb.
  destruct (String.compare s1 s2) eqn:H12; try discriminate;
    destruct (String.compare s2 s3) eqn:H23; try discriminate; intros _ _.
  - apply String.compare_eq_iff in H12, H23. subst. now rewrite compare_refl.
  - apply String.compare_eq_iff in H12. subst. now rewrite H23.
  - apply String.compare_eq_iff in H23. subst. now rewrite H12.
  - now rewrite (compare_lt_trans _ _ _ H12 H23).
Qed.

End TextOrder.


Section OrderByFacts.

Variable A : Type.
Variable leb : A -> A -> bool.

Lemma insert_by_perm (x : A) (l : list A) : Permutation (x :: l) (insert_by leb x l).
Proof.
  induction l as [|y l IH]; simpl; [constructor; constructor|].
  destruct (leb x y); [apply Permutation_refl|].
  eapply perm_trans; [apply perm_swap|]. now constructor.
Qed.

Lemma order_by_perm (l : list A) : Permutation l (order_by leb l).
Proof.
  induction l as [|x l IH]; simpl; [constructor|].
  eapply perm_trans; [|apply insert_by_perm]. now constructor.
Qed.

Lemma order_by_In (l : list A) (x : A) : In x (order_by leb l) <-> In x l.
Proof.
  split; apply Permutation_in;
    [apply Permutation_sym|]; apply order_by_perm.
Qed.

Lemma order_by_length (l : list A) : List.length (order_by leb l) = List.length l.
Proof. symmetry. apply Permutation_length, order_by_perm. Qed.

Hypothesis leb_total : forall a b, leb a b = true \/ leb b a = true.
Hypothesis leb_trans :
  forall a b c, leb a b = true -> leb b c = true -> leb a c = true.

Let le (a b : A) : Prop := leb a b = true.

Lemma insert_by_sorted (x : A) (l : list A) :
  StronglySorted le l -> StronglySorted le (insert_by leb x l).
Proof.
  induction 1 as [|y l Hs IH Hy]; simpl.
  - repeat constructor.
  - destruct (leb x y) eqn:Hxy.
    + constructor; [now constructor|].
      constructor; [exact Hxy|].
      eapply Forall_impl; [|exact Hy]. intros z Hz. eapply leb_trans; eauto.
    + constructor; [exact IH|].
      eapply Permutation_Forall; [apply insert_by_perm|].
      constructor; [|exact Hy].
      destruct (leb_total x y) as [H|H]; [congruence|exact H].
Qed.

Lemma order_by_sorted (l : list A) : StronglySorted le (order_by leb l).
Proof.
  induction l as [|x l IH]; simpl; [constructor|].
  now apply insert_by_sorted.
Qed.

End OrderByFacts.

Lemma StronglySorted_weaken {A} (R S : A -> A -> Prop) (l : list A) :
  (forall a b, R a b -> S a b) -> StronglySorted R l -> StronglySorted S l.
Proof.
  intros HRS. induction 1 as [|x l Hs IH Hx]; constructor; auto.
  eapply Forall_impl; [|exact Hx]. auto.
Qed.

(** A prefix of a sorted list is sorted. *)
Lemma StronglySorted_firstn {A} (R : A -> A -> Prop) (n : nat) (l : list A) :
  StronglySorted R l -> StronglySorted R (firstn n l).
Proof.
  intros H. revert n. induction H as [|x l Hs IH Hx]; intros [|n]; simpl;
    try constructor; auto.
  apply Forall_forall. intros y Hy. rewrite Forall_forall in Hx.
  apply Hx. rewrite <- (firstn_skipn n l). apply in_or_app. now left.
Qed.

(** In a sorted list, what stands at or after an element is not below it. *)
Lemma StronglySorted_split {A} (R : A -> A -> Prop) (pre post : list A) (a : A) :
  StronglySorted R (pre ++ a :: post) -> Forall (R a) post.
Proof.
  induction pre as [|x pre IH]; simpl; intros H; inversion H; subst; auto.
Qed.


(* ================================================================== *)
(** * Facts: the persistent queue *)
(* ================================================================== *)

Module TelemetryQueueFacts.

Import Datetime TelemetryQueue.

(** ** The two sort keys are total preorders *)

Lemma priority_created_leb_spec (a b : Row) :
  priority_created_leb a b = true <->
  priority a < priority b \/
  (priority a = priority b /\ String.leb (created_at a) (created_at b) = true).
Proof.
  unfold priority_created_leb.
  rewrite orb_true_iff, andb_true_iff, Z.ltb_lt, Z.eqb_eq. tauto.
Qed.

Lemma priority_created_leb_total (a b : Row) :
  priority_created_leb a b = true \/ priority_created_leb b a = true.
Proof.
  rewrite !priority_created_leb_spec.
  destruct (Z.lt_trichotomy (priority a) (priority b)) as [H|[H|H]]; auto.
  destruct (String.leb_total (created_at a) (created_at b)); auto.
Qed.

Lemma priority_created_leb_trans (a b c : Row) :
  priority_created_leb a b = true -> priority_created_leb b c = true ->
  priority_created_leb a c = true.
Proof.
  rewrite !priority_created_leb_spec.
  intros [H1|[H1 L1]] [H2|[H2 L2]]; try (left; lia).
  right. split; [lia|]. eapply TextOrder.leb_trans; eauto.
Qed.

Lemma created_leb_total (a b : Row) :
  created_leb a b = true \/ created_leb b a = true.
Proof. apply String.leb_total. Qed.

Lemma created_leb_trans (a b c : Row) :
  created_leb a b = true -> created_leb b c = true -> created_leb a c = true.
Proof. apply TextOrder.leb_trans. Qed.

Lemma NoDup_app_iff_helper (l : list Z) (x : Z) :
  NoDup l -> ~ In x l -> NoDup (l ++ [x]).
Proof.
  induction 1 as [|y l Hy Hl IH]; simpl; intros Hx.
  - constructor; [intros []|constructor].
  - constructor.
    + rewrite in_app_iff. simpl. intuition.
    + apply IH. intuition.
Qed.

(** ** Running a transaction *)

Lemma fault_free_hd (w : World) : fault_free w -> hd false (faults w) = false.
Proof.
  unfold fault_free. destruct (faults w) as [|b fs]; simpl; [reflexivity|].
  now inversion 1.
Qed.

Lemma fault_free_after (w : World) (t : Table) :
  fault_free w -> fault_free (after w t).
Proof.
  unfold fault_free, after. simpl.
  destruct (faults w) as [|b fs]; simpl; [constructor|]. now inversion 1.
Qed.

(** ** Rows that pass the schema convert to tuples *)

Lemma row_items_wf (l : list Row) :
  Forall wf_row l -> exists items, row_items l = Ok items /\
                                   List.length items = List.length l.
Proof.
  induction 1 as [|r l [Hty Hp] Hl [items [IH Hlen]]]; simpl.
  - now exists [].
  - unfold row_item, QueueItemType_of. rewrite IH.
    destruct Hty as [-> | ->]; simpl; eexists; split; try reflexivity;
      simpl; now rewrite Hlen.
Qed.

Lemma sql_limit_incl {A} (n : Z) (l : list A) : incl (sql_limit n l) l.
Proof.
  unfold sql_limit. destruct (n <? 0); [apply incl_refl|].
  intros x Hx. rewrite <- (firstn_skipn (Z.to_nat n) l).
  apply in_or_app. now left.
Qed.

Lemma sql_limit_length {A} (n : Z) (l : list A) :
  0 <= n ->
  Z.of_nat (List.length (sql_limit n l)) = Z.min n (Z.of_nat (List.length l)).
Proof.
  intros Hn. unfold sql_limit.
  destruct (Z.ltb_spec n 0); [lia|].
  rewrite length_firstn. lia.
Qed.

(** What [dequeue_batch] computes, with the handlers resolved. *)
Lemma dequeue_batch_eq (n : Z) (w : World) :
  dequeue_batch n w =
  ((if hd false (faults w) then Ok []
    else if fits_int64 n
         then match row_items (sql_limit n (order_by priority_created_leb
                                                      (rows (table w)))) with
              | Ok items => Ok items
              | Raise _ => Ok []
              end
         else Ok []),
   after w (table w)).
Proof.
  unfold dequeue_batch, try_except, transaction, select_batch, ret, after.
  destruct (hd false (faults w)); [reflexivity|].
  destruct (fits_int64 n); [|reflexivity].
  now destruct (row_items _).
Qed.

(** ** dequeue_batch *)

(** What [dequeue_batch] does guarantee.  Whatever the storage engine does
    and whatever the batch size, it returns the tuples of a list [sel] of
    queued rows that is ordered by (priority, created_at) ascending, the
    created_at compared as the TEXT it is; an Analytics row in it is
    preceded by every Submission row of the queue; two rows of one kind stand
    in the order of their created_at texts; the table is left as it was.  A
    batch size that is not negative bounds the number of items, and when the
    storage engine answers, [sel] holds as many rows as the batch size and
    the queue allow. *)
Theorem dequeue_batch_priority_order (w : World) (batch_size : Z) :
  wf_table (table w) ->
  exists (sel : list Row) (items : list (Z * QueueItemType * string)),
    fst (dequeue_batch batch_size w) = Ok items /\
    row_items sel = Ok items /\
    table (snd (dequeue_batch batch_size w)) = table w /\
    (0 <= batch_size -> Z.of_nat (List.length items) <= batch_size) /\
    incl sel (rows (table w)) /\
    StronglySorted (fun a b => priority a < priority b \/
                               (priority a = priority b /\
                                String.leb (created_at a) (created_at b) = true))
                   sel /\
    (forall pre a post, sel = pre ++ a :: post ->
       item_type a = value ANALYTICS_RECORD ->
       forall s, In s (rows (table w)) ->
                 item_type s = value PORTAL_SUBMISSION -> In s pre) /\
    (forall pre a mid b post, sel = pre ++ a :: mid ++ b :: post ->
       item_type a = item_type b ->
       String.leb (created_at a) (created_at b) = true) /\
    (hd false (faults w) = false -> 0 <= batch_size < 2 ^ 63 ->
     Z.of_nat (List.length sel) =
     Z.min batch_size (Z.of_nat (List.length (rows (table w))))).
Proof.
  intros (Hnd & Hseq & Hwf & Hmax).
  rewrite dequeue_batch_eq. cbn [fst snd after table].
  set (sorted := order_by priority_created_leb (rows (table w))).
  set (le := fun a b : Row => priority a < priority b \/
               (priority a = priority b /\
                String.leb (created_at a) (created_at b) = true)).
  assert (Hsorted : StronglySorted le sorted).
  { apply StronglySorted_weaken
      with (R := fun a b => priority_created_leb a b = true).
    - intros a b H. apply priority_created_leb_spec in H. exact H.
    - apply order_by_sorted;
        [apply priority_created_leb_total | apply priority_created_leb_trans]. }
  assert (Hin : forall r, In r sorted <-> In r (rows (table w)))
    by (intro r; apply order_by_In).
  assert (Hempty : forall P : list Row -> Prop, P [] ->
            exists (sel : list Row) (items : list (Z * QueueItemType * string)),
              Ok (A := list (Z * QueueItemType * string)) [] = Ok items /\
              row_items sel = Ok items /\ table w = table w /\
              (0 <= batch_size -> Z.of_nat (List.length items) <= batch_size) /\
              incl sel (rows (table w)) /\ StronglySorted le sel /\
              (forall pre a post, sel = pre ++ a :: post ->
                 item_type a = value ANALYTICS_RECORD ->
                 forall s, In s (rows (table w)) ->
                           item_type s = value PORTAL_SUBMISSION -> In s pre) /\
              (forall pre a mid b post, sel = pre ++ a :: mid ++ b :: post ->
                 item_type a = item_type b ->
                 String.leb (created_at a) (created_at b) = true) /\ P sel).
  { intros P HP. exists [], [].
    split; [reflexivity|]. split; [reflexivity|]. split; [reflexivity|].
    split; [simpl; lia|]. split; [intros x Hx; destruct Hx|].
    split; [constructor|].
    split; [intros [|? ?]; simpl; discriminate|].
    split; [intros [|? ?]; simpl; discriminate|exact HP]. }
  destruct (hd false (faults w)) eqn:Hf.
  { apply (Hempty (fun sel => _ -> _ -> Z.of_nat (List.length sel) = _)).
    discriminate. }
  destruct (fits_int64 batch_size) eqn:Hfit.
  2: { apply (Hempty (fun sel => _ -> _ -> Z.of_nat (List.length sel) = _)).
       intros _ Hlt. unfold fits_int64 in Hfit.
       apply andb_false_iff in Hfit. rewrite !Z.leb_gt in Hfit. lia. }
  clear Hempty.
  set (sel := sql_limit batch_size sorted).
  assert (Hsel : exists k, sel = firstn k sorted).
  { unfold sel, sql_limit. destruct (batch_size <? 0).
    - exists (List.length sorted). now rewrite firstn_all.
    - now exists (Z.to_nat batch_size). }
  destruct Hsel as [k Hsel].
  assert (Hsub : incl sel (rows (table w))).
  { intros x Hx. apply Hin. eapply sql_limit_incl; exact Hx. }
  destruct (@row_items_wf sel) as (items & Hitems & Hlen).
  { apply Forall_forall. intros x Hx. rewrite Forall_forall in Hwf. auto. }
  exists sel, items. rewrite Hitems.
  assert (Hcount : 0 <= batch_size ->
                   Z.of_nat (List.length sel) =
                   Z.min batch_size (Z.of_nat (List.length (rows (table w))))).
  { intros Hn. unfold sel. rewrite sql_limit_length by exact Hn.
    unfold sorted. now rewrite order_by_length. }
  assert (Hs2 : StronglySorted le sel)
    by (rewrite Hsel; now apply StronglySorted_firstn).
  rewrite Forall_forall in Hwf.
  split; [reflexivity|]. split; [reflexivity|]. split; [reflexivity|].
  split; [intros Hn; rewrite Hlen, (Hcount Hn); lia|].
  split; [exact Hsub|]. split; [exact Hs2|].
  split; [|split].
  - intros pre a post Hsplit Ha s Hs Hty.
    assert (Hall : sorted = pre ++ a :: (post ++ skipn k sorted)).
    { rewrite <- (firstn_skipn k sorted) at 1.
      rewrite <- Hsel, Hsplit, <- app_assoc. reflexivity. }
    apply Hin in Hs. rewrite Hall in Hs.
    apply in_app_or in Hs. destruct Hs as [Hs|[Hs|Hs]]; [exact Hs| |].
    + subst s. rewrite Ha in Hty. discriminate.
    + exfalso. rewrite Hall in Hsorted.
      apply StronglySorted_split in Hsorted.
      rewrite Forall_forall in Hsorted. specialize (Hsorted s Hs).
      assert (Hwa : wf_row a).
      { apply Hwf, Hsub. rewrite Hsplit. apply in_or_app. right. now left. }
      assert (Hws : wf_row s).
      { apply Hwf, Hin. rewrite Hall. apply in_or_app. right. now right. }
      destruct Hwa as [_ Hpa], Hws as [_ Hps]. unfold le in Hsorted.
      rewrite Hpa, Hps, Ha, Hty in Hsorted. simpl in Hsorted. lia.
  - intros pre a mid b post Hsplit Hab.
    rewrite Hsplit in Hs2. apply StronglySorted_split in Hs2.
    rewrite Forall_forall in Hs2.
    assert (Hb : In b (mid ++ b :: post)) by (apply in_or_app; right; now left).
    specialize (Hs2 b Hb).
    assert (Hwa : wf_row a).
    { apply Hwf, Hsub. rewrite Hsplit. apply in_or_app. right. now left. }
    assert (Hwb : wf_row b).
    { apply Hwf, Hsub. rewrite Hsplit. apply in_or_app. right. right. exact Hb. }
    destruct Hwa as [_ Hpa], Hwb as [_ Hpb]. unfold le in Hs2.
    destruct Hs2 as [Hlt|[_ Hle]]; [lia|exact Hle].
  - intros _ [Hn _]. now apply Hcount.
Qed.

(** ** The handlers resolved *)

Lemma _get_analytics_count_eq (w : World) :
  _get_analytics_count w =
  (Ok (if hd false (faults w) then 0
       else count_type (value ANALYTICS_RECORD) (table w)),
   after w (table w)).
Proof.
  unfold _get_analytics_count, try_except, transaction, ret.
  now destruct (hd false (faults w)).
Qed.

Lemma _get_submission_count_eq (w : World) :
  _get_submission_count w =
  (Ok (if hd false (faults w) then 0
       else count_type (value PORTAL_SUBMISSION) (table w)),
   after w (table w)).
Proof.
  unfold _get_submission_count, try_except, transaction, ret.
  now destruct (hd false (faults w)).
Qed.

Lemma _drop_oldest_analytics_eq (w : World) :
  _drop_oldest_analytics w =
  (Ok tt,
   after w (if hd false (faults w) then table w
            else delete_oldest_of_type (value ANALYTICS_RECORD) (table w))).
Proof.
  unfold _drop_oldest_analytics, try_except, transaction, ret.
  now destruct (hd false (faults w)).
Qed.

Lemma insert_item_rows (ty : Z) (d : string) (w : World) (t : Table) :
  rows (insert_item ty ty d (isoformat (utcnow w) ++ "Z")%string t) =
  rows t ++ [inserted ty d (utcnow w) t].
Proof. reflexivity. Qed.

(** What an INSERT makes of the table, when it is run. *)
Lemma insert_dumped_cases (ty : Z) (dumped : result string) (ts : string)
                          (t : Table) :
  (exists text, dumped = Ok text /\ seq t < MAX_ROWID /\
                insert_dumped ty ty dumped ts t =
                Ok (tt, insert_item ty ty text ts t)) \/
  (exists e, insert_dumped ty ty dumped ts t = Raise e /\
             (dumped = Raise e \/
              (exists text, dumped = Ok text) /\ MAX_ROWID <= seq t /\
              e = SqliteError)).
Proof.
  unfold insert_dumped, insert_new. destruct dumped as [text|e].
  - destruct (Z.ltb_spec (seq t) MAX_ROWID).
    + left. exists text. auto.
    + right. exists SqliteError. split; [reflexivity|]. right. eauto.
  - right. exists e. auto.
Qed.

Lemma insert_dumped_ok (ty : Z) (text ts : string) (t : Table) :
  seq t < MAX_ROWID ->
  insert_dumped ty ty (Ok text) ts t = Ok (tt, insert_item ty ty text ts t).
Proof.
  intros H. unfold insert_dumped, insert_new.
  destruct (Z.ltb_spec (seq t) MAX_ROWID); [reflexivity|lia].
Qed.

Lemma enqueue_submission_eq (self : QueueManager) (s : result string) (w : World) :
  enqueue_submission self s w =
  let n := if hd false (faults w) then 0
           else count_type (value PORTAL_SUBMISSION) (table w) in
  let w1 := after w (table w) in
  if n >=? MAX_SUBMISSIONS self
  then (Raise (ValueError "Submission queue full"), w1)
  else if hd false (faults w1)
       then (Raise SqliteError, after w1 (table w))
       else inserting (value PORTAL_SUBMISSION) s (utcnow w) w1.
Proof.
  unfold enqueue_submission, try_except, bind, inserting.
  rewrite _get_submission_count_eq. cbv zeta.
  destruct (_ >=? MAX_SUBMISSIONS self); [reflexivity|].
  unfold ret, _get_timestamp, transaction, raise. simpl.
  destruct (hd false (tl (faults w))); [reflexivity|].
  now destruct (insert_dumped _ _ _ _ _) as [[[] t']|e].
Qed.

Lemma enqueue_analytics_eq (self : QueueManager) (s : result string) (w : World) :
  enqueue_analytics self s w =
  let n := if hd false (faults w) then 0
           else count_type (value ANALYTICS_RECORD) (table w) in
  let w1 := after w (table w) in
  let w2 := if n >=? MAX_ANALYTICS_RECORDS self
            then after w1 (if hd false (faults w1) then table w
                           else delete_oldest_of_type (value ANALYTICS_RECORD)
                                                      (table w))
            else w1 in
  if hd false (faults w2)
  then (Raise SqliteError, after w2 (table w2))
  else inserting (value ANALYTICS_RECORD) s (utcnow w) w2.
Proof.
  unfold enqueue_analytics, try_except, bind, inserting.
  rewrite _get_analytics_count_eq. cbv zeta.
  destruct (_ >=? MAX_ANALYTICS_RECORDS self).
  - rewrite _drop_oldest_analytics_eq.
    unfold ret, _get_timestamp, transaction, raise. simpl.
    destruct (hd false (tl (tl (faults w)))); [reflexivity|].
    now destruct (insert_dumped _ _ _ _ _) as [[[] t']|e].
  - unfold ret, _get_timestamp, transaction, raise. simpl.
    destruct (hd false (tl (faults w))); [reflexivity|].
    now destruct (insert_dumped _ _ _ _ _) as [[[] t']|e].
Qed.

(** The table an INSERT leaves is the old one, or the old one with the new
    row. *)
Lemma inserting_table (ty : Z) (dumped : result string) (now : datetime)
                      (w : World) :
  (exists e, fst (inserting ty dumped now w) = Raise e /\
             table (snd (inserting ty dumped now w)) = table w) \/
  (exists text, dumped = Ok text /\ seq (table w) < MAX_ROWID /\
                fst (inserting ty dumped now w) = Ok tt /\
                table (snd (inserting ty dumped now w)) =
                insert_item ty ty text (isoformat now ++ "Z")%string (table w)).
Proof.
  unfold inserting.
  destruct (insert_dumped_cases ty dumped (isoformat now ++ "Z")%string (table w))
    as [(text & Hd & Hlt & ->)|(e & -> & _)].
  - right. exists text. auto.
  - left. exists e. auto.
Qed.

Lemma inserting_faults (ty : Z) (dumped : result string) (now : datetime)
                       (w : World) :
  faults (snd (inserting ty dumped now w)) = tl (faults w) /\
  utcnow (snd (inserting ty dumped now w)) = utcnow w.
Proof.
  unfold inserting. now destruct (insert_dumped _ _ _ _ _) as [[[] t']|e].
Qed.

Lemma mark_synced_eq (ids : list Z) (w : World) :
  ids <> [] ->
  mark_synced ids w =
  (Ok tt, after w (if hd false (faults w) then table w
                   else if forallb fits_int64 ids
                        then snd (delete_where (id_in ids) (table w))
                        else table w)).
Proof.
  destruct ids as [|i ids]; [congruence|intros _].
  unfold mark_synced, try_except, transaction, bind_ids, ret.
  destruct (hd false (faults w)); [reflexivity|].
  now destruct (forallb fits_int64 (i :: ids)).
Qed.

Lemma mark_failed_eq (ids : list Z) (w : World) :
  ids <> [] ->
  mark_failed ids w =
  (Ok tt, after w (if hd false (faults w) then table w
                   else if forallb fits_int64 ids
                        then bump_retry (isoformat (utcnow w) ++ "Z")%string ids
                                        (table w)
                        else table w)).
Proof.
  destruct ids as [|i ids]; [congruence|intros _].
  unfold mark_failed, try_except, bind, _get_timestamp, transaction, bind_ids,
    ret.
  destruct (hd false (faults w)); [reflexivity|].
  now destruct (forallb fits_int64 (i :: ids)).
Qed.

Lemma cleanup_old_records_eq (days : Z) (w : World) :
  cleanup_old_records days w =
  match cutoff_str (utcnow w) days with
  | Raise _ => (Ok 0, w)
  | Ok cutoff =>
      if hd false (faults w) then (Ok 0, after w (table w))
      else (Ok (fst (delete_where (older_than cutoff) (table w))),
            after w (snd (delete_where (older_than cutoff) (table w))))
  end.
Proof.
  unfold cleanup_old_records, try_except, bind, transaction, ret.
  destruct (cutoff_str (utcnow w) days); [|reflexivity].
  now destruct (hd false (faults w)).
Qed.

(** ** The oldest row of a kind, and deleting by id *)

Lemma oldest_of_type_spec (v : Z) (t : Table) (o : Row) :
  oldest_of_type v t = Some o ->
  In o (rows t) /\ item_type o = v /\
  forall r, In r (rows t) -> item_type r = v ->
            String.leb (created_at o) (created_at r) = true.
Proof.
  unfold oldest_of_type. intros H.
  set (l := filter (has_type v) (rows t)) in *.
  destruct (order_by created_leb l) as [|x rest] eqn:Hs; [discriminate|].
  injection H as ->.
  assert (Hin : forall r, In r (o :: rest) <-> In r l).
  { intro r. rewrite <- Hs. apply order_by_In. }
  assert (Ho : In o l) by (apply Hin; now left).
  apply filter_In in Ho. destruct Ho as [Ho Hty].
  apply Z.eqb_eq in Hty.
  repeat split; auto.
  intros r Hr Hrv.
  assert (Hrl : In r (o :: rest)).
  { apply Hin, filter_In. split; [exact Hr|]. now apply Z.eqb_eq. }
  pose proof (order_by_sorted created_leb created_leb_total created_leb_trans l)
    as Hsorted.
  rewrite Hs in Hsorted. inversion Hsorted as [|? ? _ Hall]; subst.
  destruct Hrl as [<-|Hrl]; [apply TextOrder.leb_refl|].
  rewrite Forall_forall in Hall. exact (Hall r Hrl).
Qed.

Lemma oldest_of_type_exists (v : Z) (t : Table) :
  0 < count_type v t -> exists o, oldest_of_type v t = Some o.
Proof.
  unfold count_type, oldest_of_type. intros H.
  destruct (order_by created_leb (filter (has_type v) (rows t))) as [|x rest] eqn:Hs.
  - apply (f_equal (@List.length Row)) in Hs. rewrite order_by_length in Hs.
    simpl in Hs. lia.
  - now exists x.
Qed.

Lemma delete_by_id_split (pre post : list Row) (o : Row) :
  NoDup (map id (pre ++ o :: post)) ->
  filter (fun r => negb (id r =? id o)) (pre ++ o :: post) = pre ++ post.
Proof.
  intros Hnd.
  assert (Hother : forall r, In r (pre ++ post) -> negb (id r =? id o) = true).
  { intros r Hr. apply negb_true_iff, Z.eqb_neq. intros Heq.
    rewrite map_app in Hnd. simpl in Hnd.
    apply NoDup_remove_2 in Hnd. apply Hnd.
    rewrite <- Heq, <- map_app. now apply in_map. }
  rewrite filter_app. simpl. rewrite Z.eqb_refl. simpl.
  rewrite <- filter_app.
  apply forallb_filter_id, forallb_forall. exact Hother.
Qed.

(** ** The invariant is kept by every method *)

Lemma wf_insert_item (ty : Z) (d ts : string) (t : Table) :
  ty = 1 \/ ty = 2 -> seq t < MAX_ROWID -> wf_table t ->
  wf_table (insert_item ty ty d ts t).
Proof.
  intros Hty Hroom (Hnd & Hseq & Hwf & Hmax). unfold wf_table, insert_item.
  cbn [rows seq].
  split; [|split; [|split]].
  - rewrite map_app. simpl. apply NoDup_app_iff_helper; auto.
    intros Hin. apply in_map_iff in Hin. destruct Hin as (r & Hid & Hr).
    rewrite Forall_forall in Hseq. specialize (Hseq r Hr). lia.
  - apply Forall_app. split.
    + eapply Forall_impl; [|exact Hseq]. simpl. intros. lia.
    + repeat constructor; simpl; lia.
  - apply Forall_app. split; [exact Hwf|].
    constructor; [|constructor]. split; simpl; auto.
  - lia.
Qed.

(** Deleting rows keeps the ids distinct. *)
Lemma ids_distinct_after_delete (keep : Row -> bool) (table_rows : list Row) :
  NoDup (map id table_rows) -> NoDup (map id (filter keep table_rows)).
Proof.
  intros Hnd. induction table_rows as [|r rest IH]; simpl; [constructor|].
  simpl in Hnd. apply NoDup_cons_iff in Hnd. destruct Hnd as [Hr Hrest].
  destruct (keep r); simpl; [|now apply IH].
  apply NoDup_cons_iff. split; [|now apply IH].
  intros Hin. apply Hr. apply in_map_iff in Hin.
  destruct Hin as (r' & Hid & Hin). apply filter_In in Hin.
  rewrite <- Hid. apply in_map. tauto.
Qed.

Lemma Forall_filter {A} (P : A -> Prop) (p : A -> bool) (l : list A) :
  Forall P l -> Forall P (filter p l).
Proof.
  rewrite !Forall_forall. intros H x Hx. apply filter_In in Hx. apply H. tauto.
Qed.

Lemma wf_delete_where (p : Row -> bool) (t : Table) :
  wf_table t -> wf_table (snd (delete_where p t)).
Proof.
  intros (Hnd & Hseq & Hwf & Hmax). unfold wf_table, delete_where.
  cbn [snd rows seq].
  split; [|split; [|split]].
  - now apply ids_distinct_after_delete.
  - now apply Forall_filter.
  - now apply Forall_filter.
  - exact Hmax.
Qed.

Lemma wf_delete_oldest_of_type (v : Z) (t : Table) :
  wf_table t -> wf_table (delete_oldest_of_type v t).
Proof.
  unfold delete_oldest_of_type. destruct (oldest_of_type v t); auto.
  apply wf_delete_where.
Qed.

Lemma wf_bump_retry (ts : string) (ids : list Z) (t : Table) :
  wf_table t -> wf_table (bump_retry ts ids t).
Proof.
  intros (Hnd & Hseq & Hwf & Hmax). unfold wf_table, bump_retry.
  cbn [rows seq].
  set (f := fun r : Row => if id_in ids r then _ else r).
  assert (Hid : forall r, id (f r) = id r)
    by (intro r; unfold f; now destruct (id_in ids r)).
  split; [|split; [|split]].
  - rewrite map_map. erewrite map_ext; [exact Hnd|]. exact Hid.
  - rewrite Forall_map. eapply Forall_impl; [|exact Hseq].
    intros r Hr. simpl. now rewrite Hid.
  - rewrite Forall_map. eapply Forall_impl; [|exact Hwf].
    intros r Hr. unfold f. now destruct (id_in ids r).
  - exact Hmax.
Qed.

Lemma wf_empty_table : wf_table empty_table.
Proof.
  unfold wf_table, empty_table, MAX_ROWID. cbn [rows seq map].
  repeat split; try constructor; lia.
Qed.

(** The ids of a table the module has written can be bound to a statement. *)
Lemma wf_table_ids_fit (t : Table) (l : list Row) :
  wf_table t -> incl l (rows t) -> forallb fits_int64 (map id l) = true.
Proof.
  intros (_ & Hseq & _ & Hmax) Hl. apply forallb_forall. intros i Hi.
  apply in_map_iff in Hi. destruct Hi as (r & <- & Hr).
  rewrite Forall_forall in Hseq. specialize (Hseq r (Hl r Hr)).
  unfold fits_int64, MAX_ROWID in *.
  apply andb_true_iff. split; apply Z.leb_le; lia.
Qed.

Lemma inserting_wf (ty : Z) (dumped : result string) (now : datetime)
                   (w : World) :
  ty = 1 \/ ty = 2 -> wf_table (table w) ->
  wf_table (table (snd (inserting ty dumped now w))).
Proof.
  intros Hty Hwf.
  destruct (inserting_table ty dumped now w)
    as [(e & _ & ->)|(text & _ & Hroom & _ & ->)]; [exact Hwf|].
  now apply wf_insert_item.
Qed.

Lemma enqueue_analytics_wf (self : QueueManager) (s : result string)
                           (w : World) :
  wf_table (table w) -> wf_table (table (snd (enqueue_analytics self s w))).
Proof.
  intros Hwf. rewrite enqueue_analytics_eq. cbv zeta.
  set (w2 := if _ >=? _ then _ else _).
  assert (Hw2 : wf_table (table w2)).
  { unfold w2. destruct (_ >=? _); simpl; [|exact Hwf].
    destruct (hd false (tl (faults w))); [exact Hwf|].
    now apply wf_delete_oldest_of_type. }
  destruct (hd false (faults w2)); [exact Hw2|].
  apply inserting_wf; [cbn; auto|exact Hw2].
Qed.

Lemma enqueue_submission_wf (self : QueueManager) (s : result string)
                            (w : World) :
  wf_table (table w) -> wf_table (table (snd (enqueue_submission self s w))).
Proof.
  intros Hwf. rewrite enqueue_submission_eq. cbv zeta.
  destruct (_ >=? _); simpl; [exact Hwf|].
  destruct (hd false (tl (faults w))); [exact Hwf|].
  apply inserting_wf; [cbn; auto|exact Hwf].
Qed.

Lemma mark_synced_wf (ids : list Z) (w : World) :
  wf_table (table w) -> wf_table (table (snd (mark_synced ids w))).
Proof.
  intros Hwf. destruct ids as [|i ids]; [exact Hwf|].
  rewrite mark_synced_eq by discriminate. simpl.
  destruct (hd false (faults w)); [exact Hwf|].
  destruct (_ && _); [now apply wf_delete_where|exact Hwf].
Qed.

Lemma mark_failed_wf (ids : list Z) (w : World) :
  wf_table (table w) -> wf_table (table (snd (mark_failed ids w))).
Proof.
  intros Hwf. destruct ids as [|i ids]; [exact Hwf|].
  rewrite mark_failed_eq by discriminate. simpl.
  destruct (hd false (faults w)); [exact Hwf|].
  destruct (_ && _); [now apply wf_bump_retry|exact Hwf].
Qed.

Lemma cleanup_old_records_wf (days : Z) (w : World) :
  wf_table (table w) -> wf_table (table (snd (cleanup_old_records days w))).
Proof.
  intros Hwf. rewrite cleanup_old_records_eq.
  destruct (cutoff_str (utcnow w) days); [|exact Hwf].
  destruct (hd false (faults w)); simpl; [exact Hwf|]. now apply wf_delete_where.
Qed.

(** Every method keeps the invariant, whatever the storage engine does. *)
Theorem queue_invariant_preserved (self : QueueManager) (w : World) :
  wf_table (table w) ->
  (forall s, wf_table (table (snd (enqueue_analytics self s w)))) /\
  (forall s, wf_table (table (snd (enqueue_submission self s w)))) /\
  (forall n, wf_table (table (snd (dequeue_batch n w)))) /\
  (forall ids, wf_table (table (snd (mark_synced ids w)))) /\
  (forall ids, wf_table (table (snd (mark_failed ids w)))) /\
  (forall days, wf_table (table (snd (cleanup_old_records days w)))).
Proof.
  intros Hwf. repeat apply conj; intros.
  - now apply enqueue_analytics_wf.
  - now apply enqueue_submission_wf.
  - rewrite dequeue_batch_eq. exact Hwf.
  - now apply mark_synced_wf.
  - now apply mark_failed_wf.
  - now apply cleanup_old_records_wf.
Qed.

(** ** enqueue_submission *)

(** C5.  When the count query is answered and reports at least
    [MAX_SUBMISSIONS] submissions, [enqueue_submission] raises the capacity
    error ([ValueError "Submission queue full"]) and the table, hence every
    count, is what it was. *)
Theorem enqueue_submission_full_rejects
        (self : QueueManager) (submission : result string) (w : World) :
  hd false (faults w) = false ->
  MAX_SUBMISSIONS self <= count_type (value PORTAL_SUBMISSION) (table w) ->
  fst (enqueue_submission self submission w) =
    Raise (ValueError "Submission queue full") /\
  table (snd (enqueue_submission self submission w)) = table w.
Proof.
  intros Hf Hfull. rewrite enqueue_submission_eq. cbv zeta. rewrite Hf.
  destruct (Z.geb_spec (count_type (value PORTAL_SUBMISSION) (table w))
                       (MAX_SUBMISSIONS self)) as [_|Hlt]; [|lia].
  split; reflexivity.
Qed.

(** ** enqueue_analytics *)

Lemma count_type_app (v : Z) (l1 l2 : list Row) (s : Z) :
  count_type v (mkTable (l1 ++ l2) s) =
  count_type v (mkTable l1 s) + count_type v (mkTable l2 s).
Proof.
  unfold count_type. simpl. rewrite filter_app, length_app. lia.
Qed.

(** What the eviction does guarantee.  With a record [json.dumps]
    serialises, [enqueue_analytics] returns normally or raises the storage
    error.  With a storage engine that answers, a rowid left and a positive
    capacity: below capacity the record is appended; at or above capacity
    one Analytics row whose created_at is first as TEXT is deleted and the
    record is appended, so that the Analytics count is what it was and that
    row is gone while every other row stays. *)
Lemma enqueue_analytics_evicts_first_by_text
      (self : QueueManager) (text : string) (w : World) :
  fault_free w -> wf_table (table w) -> seq (table w) < MAX_ROWID ->
  0 < MAX_ANALYTICS_RECORDS self ->
  let n := count_type (value ANALYTICS_RECORD) (table w) in
  let w' := snd (enqueue_analytics self (Ok text) w) in
  let new := inserted (value ANALYTICS_RECORD) text (utcnow w) (table w) in
  (forall w0, fst (enqueue_analytics self (Ok text) w0) = Ok tt \/
              fst (enqueue_analytics self (Ok text) w0) = Raise SqliteError) /\
  fst (enqueue_analytics self (Ok text) w) = Ok tt /\
  (n < MAX_ANALYTICS_RECORDS self ->
   rows (table w') = rows (table w) ++ [new] /\
   count_type (value ANALYTICS_RECORD) (table w') = n + 1) /\
  (MAX_ANALYTICS_RECORDS self <= n ->
   exists pre o post,
     rows (table w) = pre ++ o :: post /\
     item_type o = value ANALYTICS_RECORD /\
     (forall r, In r (rows (table w)) -> item_type r = value ANALYTICS_RECORD ->
                String.leb (created_at o) (created_at r) = true) /\
     rows (table w') = pre ++ post ++ [new] /\
     ~ In o (rows (table w')) /\
     count_type (value ANALYTICS_RECORD) (table w') = n).
Proof.
  intros Hff Hwf Hroom Hmax n w' new.
  split.
  { intros w0. rewrite enqueue_analytics_eq. cbv zeta.
    destruct (hd false (faults _)); [now right|].
    destruct (inserting_table (value ANALYTICS_RECORD) (Ok text) (utcnow w0)
                (if (if hd false (faults w0) then 0
                     else count_type (value ANALYTICS_RECORD) (table w0))
                    >=? MAX_ANALYTICS_RECORDS self
                 then after (after w0 (table w0))
                        (if hd false (faults (after w0 (table w0)))
                         then table w0
                         else delete_oldest_of_type (value ANALYTICS_RECORD)
                                (table w0))
                 else after w0 (table w0)))
      as [(e & He & _)|(t0 & _ & _ & Hok & _)]; [|now left].
    right. rewrite He. unfold inserting, insert_dumped, insert_new in He.
    destruct (_ <? _) in He; cbn in He; congruence. }
  pose proof (fault_free_hd Hff) as Hf0.
  pose proof (fault_free_hd (fault_free_after (table w) Hff)) as Hf1.
  assert (Hf2 : forall t1 t2, hd false (faults (after (after w t1) t2)) = false).
  { intros t1 t2.
    apply fault_free_hd, fault_free_after, fault_free_after, Hff. }
  assert (Hseq' : seq (delete_oldest_of_type (value ANALYTICS_RECORD) (table w))
                  = seq (table w)).
  { unfold delete_oldest_of_type. now destruct (oldest_of_type _ _). }
  subst w'. rewrite enqueue_analytics_eq. cbv zeta. rewrite Hf0, Hf1.
  fold n.
  destruct (Z.geb_spec n (MAX_ANALYTICS_RECORDS self)) as [Hge|Hlt].
  - rewrite Hf2. unfold inserting. cbn [table after].
    rewrite insert_dumped_ok by (rewrite Hseq'; exact Hroom).
    cbn [fst snd after table].
    split; [reflexivity|]. split; [lia|]. intros _.
    destruct (@oldest_of_type_exists (value ANALYTICS_RECORD) (table w))
      as [o Ho]; [fold n; lia|].
    destruct (oldest_of_type_spec _ _ Ho) as (Hin & Hty & Hmin).
    destruct (in_split _ _ Hin) as (pre & post & Hrows).
    destruct Hwf as (Hnd & Hseq & Hrw & Hbound).
    assert (Hdel : rows (delete_oldest_of_type (value ANALYTICS_RECORD) (table w))
                   = pre ++ post).
    { unfold delete_oldest_of_type. rewrite Ho. unfold delete_where. simpl.
      rewrite Hrows. apply delete_by_id_split. now rewrite <- Hrows. }
    exists pre, o, post.
    split; [exact Hrows|]. split; [exact Hty|]. split; [exact Hmin|].
    assert (Hnew : rows (insert_item (value ANALYTICS_RECORD)
                           (value ANALYTICS_RECORD) text
                           (isoformat (utcnow w) ++ "Z")%string
                           (delete_oldest_of_type (value ANALYTICS_RECORD) (table w)))
                   = pre ++ post ++ [new]).
    { unfold insert_item. cbn [rows seq].
      rewrite Hdel, Hseq', <- app_assoc. reflexivity. }
    split; [exact Hnew|]. split.
    + rewrite Hnew. rewrite app_assoc, in_app_iff. intros [Ho'|[Ho'|[]]].
      * rewrite Hrows, map_app in Hnd. simpl in Hnd.
        apply NoDup_remove_2 in Hnd. apply Hnd.
        rewrite <- map_app. now apply in_map.
      * rewrite Forall_forall in Hseq. specialize (Hseq o Hin).
        rewrite <- Ho' in Hseq. unfold new, inserted in Hseq. simpl in Hseq. lia.
    + unfold count_type at 1. rewrite Hnew.
      unfold n, count_type. rewrite Hrows.
      rewrite !filter_app, !length_app. simpl.
      assert (Ho2 : has_type 2 o = true)
        by (unfold has_type; rewrite Hty; reflexivity).
      rewrite Ho2. simpl. lia.
  - rewrite Hf1. unfold inserting. cbn [table after].
    rewrite insert_dumped_ok by exact Hroom.
    cbn [fst snd after table].
    split; [reflexivity|]. split; [|lia]. intros _.
    split; [reflexivity|].
    unfold count_type, insert_item. simpl.
    rewrite filter_app, length_app. simpl.
    unfold n, count_type. simpl. lia.
Qed.

(** ** Storage errors *)

(** C7, as the code has it.  [enqueue_submission] and [enqueue_analytics]
    re-raise: a storage error of their INSERT reaches the caller, a call
    that raised has inserted nothing, and a call that returned has inserted
    the record.  [mark_synced] and [mark_failed] catch and log: when the
    storage engine fails them, or an id does not fit a 64-bit integer, they
    return normally and the table is what it was; only when the engine
    answers and every id fits is the deletion or the retry update applied.
    The count and eviction helpers of enqueue never raise either. *)
Theorem storage_errors_raised_or_swallowed (self : QueueManager) (w : World) :
  (forall text,
     (if hd false (faults w) then 0
      else count_type (value PORTAL_SUBMISSION) (table w)) < MAX_SUBMISSIONS self ->
     hd false (tl (faults w)) = true ->
     fst (enqueue_submission self (Ok text) w) = Raise SqliteError) /\
  (forall s e, fst (enqueue_submission self s w) = Raise e ->
     table (snd (enqueue_submission self s w)) = table w) /\
  (forall s, fst (enqueue_submission self s w) = Ok tt ->
     exists text,
       s = Ok text /\
       rows (table (snd (enqueue_submission self s w))) =
       rows (table w) ++
       [inserted (value PORTAL_SUBMISSION) text (utcnow w) (table w)]) /\
  (forall s e, fst (enqueue_analytics self s w) = Raise e ->
     (forall text, s = Ok text -> e = SqliteError) /\
     incl (rows (table (snd (enqueue_analytics self s w)))) (rows (table w))) /\
  (forall s, fst (enqueue_analytics self s w) = Ok tt ->
     exists text kept,
       s = Ok text /\
       incl kept (rows (table w)) /\
       rows (table (snd (enqueue_analytics self s w))) =
       kept ++ [inserted (value ANALYTICS_RECORD) text (utcnow w) (table w)]) /\
  (forall ids, ids <> [] ->
     fst (mark_synced ids w) = Ok tt /\
     (hd false (faults w) = true \/ forallb fits_int64 ids = false ->
      table (snd (mark_synced ids w)) = table w) /\
     (hd false (faults w) = false -> forallb fits_int64 ids = true ->
      table (snd (mark_synced ids w)) = snd (delete_where (id_in ids) (table w)))) /\
  (forall ids, ids <> [] ->
     fst (mark_failed ids w) = Ok tt /\
     (hd false (faults w) = true \/ forallb fits_int64 ids = false ->
      table (snd (mark_failed ids w)) = table w) /\
     (hd false (faults w) = false -> forallb fits_int64 ids = true ->
      table (snd (mark_failed ids w)) =
      bump_retry (isoformat (utcnow w) ++ "Z")%string ids (table w))) /\
  (exists n, fst (_get_analytics_count w) = Ok n) /\
  (exists n, fst (_get_submission_count w) = Ok n) /\
  fst (_drop_oldest_analytics w) = Ok tt.
Proof.
  assert (Hold : forall v t, incl (rows (delete_oldest_of_type v t)) (rows t)).
  { intros v t. unfold delete_oldest_of_type.
    destruct (oldest_of_type v t) as [o|]; [|apply incl_refl].
    simpl. intros x Hx. apply filter_In in Hx. tauto. }
  assert (Hseq : forall v t, seq (delete_oldest_of_type v t) = seq t).
  { intros v t. unfold delete_oldest_of_type.
    now destruct (oldest_of_type v t). }
  assert (Hfull : forall ty text now w0 e,
            fst (inserting ty (Ok text) now w0) = Raise e -> e = SqliteError).
  { intros ty text now w0 e. unfold inserting, insert_dumped, insert_new.
    destruct (_ <? _); cbn; congruence. }
  repeat apply conj.
  - intros text Hn Hf. rewrite enqueue_submission_eq. cbv zeta.
    destruct (Z.geb_spec (if hd false (faults w) then 0
                          else count_type (value PORTAL_SUBMISSION) (table w))
                         (MAX_SUBMISSIONS self)); [lia|].
    simpl. now rewrite Hf.
  - intros s e. rewrite enqueue_submission_eq. cbv zeta.
    destruct (_ >=? _); [reflexivity|].
    destruct (hd false (faults (after w (table w)))); [reflexivity|].
    destruct (inserting_table (value PORTAL_SUBMISSION) s (utcnow w)
                (after w (table w)))
      as [(e' & _ & Ht)|(text & _ & _ & Hok & _)]; [intros _; exact Ht|].
    rewrite Hok. discriminate.
  - intros s. rewrite enqueue_submission_eq. cbv zeta.
    destruct (_ >=? _); [discriminate|].
    destruct (hd false (faults (after w (table w)))); [discriminate|].
    destruct (inserting_table (value PORTAL_SUBMISSION) s (utcnow w)
                (after w (table w)))
      as [(e' & He & _)|(text & Hs & _ & _ & Ht)];
      [rewrite He; discriminate|].
    intros _. exists text. split; [exact Hs|]. rewrite Ht. reflexivity.
  - intros s e. rewrite enqueue_analytics_eq. cbv zeta.
    set (w2 := if _ >=? _ then _ else _).
    assert (Hw2 : incl (rows (table w2)) (rows (table w))).
    { unfold w2. destruct (_ >=? _); simpl; [|apply incl_refl].
      destruct (hd false (tl (faults w))); [apply incl_refl|apply Hold]. }
    destruct (hd false (faults w2)); cbn [fst snd after table].
    { intros [= <-]. split; [reflexivity|exact Hw2]. }
    intros He. split.
    + intros text ->. eapply Hfull. exact He.
    + destruct (inserting_table (value ANALYTICS_RECORD) s (utcnow w) w2)
        as [(e' & _ & Ht)|(text & _ & _ & Hok & _)];
        [rewrite Ht; exact Hw2|].
      rewrite Hok in He. discriminate.
  - intros s. rewrite enqueue_analytics_eq. cbv zeta.
    set (w2 := if _ >=? _ then _ else _).
    assert (Hw2 : incl (rows (table w2)) (rows (table w)) /\
                  seq (table w2) = seq (table w)).
    { unfold w2. destruct (_ >=? _); simpl; [|split; [apply incl_refl|reflexivity]].
      destruct (hd false (tl (faults w)));
        [split; [apply incl_refl|reflexivity] | split; [apply Hold|apply Hseq]]. }
    destruct Hw2 as [Hincl Hs].
    destruct (hd false (faults w2)); [discriminate|].
    destruct (inserting_table (value ANALYTICS_RECORD) s (utcnow w) w2)
      as [(e' & He & _)|(text & Hd & _ & _ & Ht)];
      [rewrite He; discriminate|].
    intros _. exists text, (rows (table w2)).
    split; [exact Hd|]. split; [exact Hincl|].
    rewrite Ht. unfold inserted, insert_item. cbn [rows]. now rewrite Hs.
  - intros ids Hids. rewrite mark_synced_eq by exact Hids. cbn [fst snd after table].
    split; [reflexivity|]. split.
    + intros [->| ->]; [reflexivity|]. now destruct (hd false (faults w)).
    + now intros -> ->.
  - intros ids Hids. rewrite mark_failed_eq by exact Hids. cbn [fst snd after table].
    split; [reflexivity|]. split.
    + intros [->| ->]; [reflexivity|]. now destruct (hd false (faults w)).
    + now intros -> ->.
  - rewrite _get_analytics_count_eq. simpl. eauto.
  - rewrite _get_submission_count_eq. simpl. eauto.
  - now rewrite _drop_oldest_analytics_eq.
Qed.

(** ** cleanup_old_records *)

Lemma cutoff_str_in_month (now : datetime) (days : Z) :
  1 <= day now - days <= days_in_month (year now) (month now) ->
  cutoff_str now days =
  Ok (isoformat (mkDatetime (year now) (month now) (day now - days) 0 0 0 0)
      ++ "Z")%string.
Proof.
  intros H. unfold cutoff_str, cutoff_date, replace_day, replace_midnight. simpl.
  destruct (Z.leb_spec 1 (day now - days)); [|lia].
  destruct (Z.leb_spec (day now - days) (days_in_month (year now) (month now)));
    [|lia].
  reflexivity.
Qed.


(** ** The statements on small queues *)

Import QueueExamples.

Ltac solve_wf_table :=
  unfold wf_table, wf_row, MAX_ROWID; simpl;
  repeat match goal with
         | |- _ /\ _ => split
         | |- NoDup _ => constructor
         | |- Forall _ _ => constructor
         | |- ~ _ => simpl; intros H; intuition (try discriminate; try lia)
         | |- _ => simpl; auto; lia
         end.

Lemma wf_full_table : wf_table full_table.
Proof. solve_wf_table. Qed.

Lemma dequeue_batch_priority_order_witness :
  wf_table (table full_world) /\
  exists sel items,
    fst (dequeue_batch 2 full_world) = Ok items /\
    row_items sel = Ok items /\
    Z.of_nat (List.length items) <= 2.
Proof.
  assert (Hwf : wf_table (table full_world)) by solve_wf_table.
  split; [exact Hwf|].
  destruct (@dequeue_batch_priority_order full_world 2 Hwf)
    as (sel & items & H1 & H2 & _ & H3 & _).
  exists sel, items. split; [exact H1|]. split; [exact H2|].
  apply H3. lia.
Defined.

(** A negative batch size is no limit to SQLite: the whole queue comes
    back, in the same order. *)
Example dequeue_batch_negative_limit :
  fst (dequeue_batch (-1) full_world) =
  Ok [(3, PORTAL_SUBMISSION, "{}"); (1, ANALYTICS_RECORD, "{}");
      (2, ANALYTICS_RECORD, "{}")].
Proof. reflexivity. Qed.

(** Analytics A1, A2 queued before submission S3: the submission comes
    first, then the Analytics records in created_at order. *)
Example dequeue_batch_scenario :
  fst (dequeue_batch 10 full_world) =
  Ok [(3, PORTAL_SUBMISSION, "{}"); (1, ANALYTICS_RECORD, "{}");
      (2, ANALYTICS_RECORD, "{}")].
Proof. reflexivity. Qed.

Lemma enqueue_submission_full_rejects_witness :
  fst (enqueue_submission small_manager (Ok "{}") full_world) =
    Raise (ValueError "Submission queue full") /\
  table (snd (enqueue_submission small_manager (Ok "{}") full_world)) =
    table full_world.
Proof.
  apply (@enqueue_submission_full_rejects small_manager (Ok "{}") full_world).
  - reflexivity.
  - vm_compute. discriminate.
Defined.

Example enqueue_analytics_scenario :
  rows (table (snd (enqueue_analytics small_manager (Ok "{}") full_world))) =
  [a2; s3; mkRow 4 2 2 "{}" "2024-01-05T12:00:07Z" 0 None].
Proof. reflexivity. Qed.

(** C7 as stated fails: the storage engine fails the DELETE of
    [mark_synced [1]], the call returns normally, and row 1 is still queued. *)
Lemma mark_synced_returns_normally_on_storage_error :
  hd false (faults busy_world) = true /\
  fst (mark_synced [1] busy_world) = Ok tt /\
  In a1 (rows (table (snd (mark_synced [1] busy_world)))) /\
  id_in [1] a1 = true /\
  fst (mark_failed [1] busy_world) = Ok tt /\
  In a1 (rows (table (snd (mark_failed [1] busy_world)))) /\
  retry_count a1 = 0.
Proof. vm_compute. intuition. Qed.


Lemma queue_invariant_preserved_witness :
  wf_table (table (snd (enqueue_analytics small_manager (Ok "{}") full_world))) /\
  wf_table (table (snd (mark_synced [1] full_world))).
Proof.
  assert (Hwf : wf_table (table full_world)) by solve_wf_table.
  destruct (@queue_invariant_preserved small_manager full_world Hwf)
    as (H1 & _ & _ & H2 & _).
  split; [apply H1|apply H2].
Defined.


End TelemetryQueueFacts.

(* ================================================================== *)
(** * Facts: text files *)
(* ================================================================== *)

Module TextFacts.

Import Text.

Lemma universal_newlines_no_cr (s : string) :
  has_cr s = false -> universal_newlines s = s.
Proof.
  induction s as [|c s IH]; simpl; [reflexivity|].
  intros H. apply orb_false_iff in H. destruct H as [Hc Hs].
  rewrite Hc. now rewrite IH.
Qed.

Lemma append_assoc (a b c : string) :
  ((a ++ b) ++ c)%string = (a ++ (b ++ c))%string.
Proof. induction a as [|x a IH]; simpl; [reflexivity|]. now rewrite IH. Qed.

Lemma append_nil_r (a : string) : (a ++ "")%string = a.
Proof. induction a as [|x a IH]; simpl; [reflexivity|]. now rewrite IH. Qed.

Lemma concat_empty_cons (x : string) (l : list string) :
  String.concat "" (x :: l) = (x ++ String.concat "" l)%string.
Proof.
  destruct l as [|y l]; simpl; [now rewrite append_nil_r|reflexivity].
Qed.

(** Writing back the lines that were read gives the text that was read. *)
Lemma writelines_split_lines (s cur : string) :
  writelines (split_lines s cur) = (cur ++ s)%string.
Proof.
  unfold writelines. revert cur.
  induction s as [|c s IH]; intros cur; simpl.
  - destruct (String.eqb_spec cur ""); subst; simpl; [reflexivity|].
    now rewrite append_nil_r.
  - destruct (Ascii.eqb c LF).
    + rewrite concat_empty_cons, IH. simpl. now rewrite append_assoc.
    + rewrite IH. now rewrite append_assoc.
Qed.

Lemma writelines_readlines (text : string) :
  writelines (readlines text) = universal_newlines text.
Proof. unfold readlines. now rewrite writelines_split_lines. Qed.

End TextFacts.

(* ================================================================== *)
(** * Facts: device identity and heartbeat *)
(* ================================================================== *)

Module AgentFacts.

Import Json Text Config Datetime ManagementAgent AgentExamples.

(** Unfolds the methods down to the world they act on. *)
Ltac unfold_agent :=
  unfold send_heartbeat, heartbeat_request, take_token, reconcile_ssid,
    apply_ssid_configuration, read_hostapd, write_hostapd, rollback,
    wipe_device_data, clear_event_config, save_device_config,
    save_event_config, cache_configuration, session_post, _sign_request,
    _get_timestamp, get_serial_number, io_step, next_io, next_proc,
    next_post, next_fetch, set_env, set_disk, set_config,
    try_except, bind, gets, modify, ret, raise.

Lemma has_token_inv (c : Config) :
  has_token c = true ->
  exists token, device_token c = Some token /\ String.eqb token "" = false.
Proof.
  unfold has_token. destruct (device_token c) as [t|]; [|discriminate].
  intros H. exists t. split; [reflexivity|]. now apply negb_true_iff.
Qed.

(** ** Frame conditions

    [keeps proj m]: running [m] leaves the [proj] part of the world as it
    was, whether it returns or raises. *)

Definition keeps {X T} (proj : World -> X) (m : IO T) : Prop :=
  forall w, proj (snd (m w)) = proj w.

Section Keeps.

Context {X : Type} (proj : World -> X).

Lemma keeps_ret {T} (a : T) : keeps proj (ret a).
Proof. now intros w. Qed.

Lemma keeps_raise {T} (e : exn) : keeps proj (raise (A := T) e).
Proof. now intros w. Qed.

Lemma keeps_gets {T} (f : World -> T) : keeps proj (gets f).
Proof. now intros w. Qed.

Lemma keeps_bind {T U} (m : IO T) (k : T -> IO U) :
  keeps proj m -> (forall a, keeps proj (k a)) -> keeps proj (bind m k).
Proof.
  intros Hm Hk w. unfold bind. specialize (Hm w).
  destruct (m w) as [[a|e] w1]; simpl in *; [|exact Hm].
  now rewrite Hk.
Qed.

Lemma keeps_try_except {T} (m : IO T) (h : exn -> IO T) :
  keeps proj m -> (forall e, keeps proj (h e)) -> keeps proj (try_except m h).
Proof.
  intros Hm Hh w. unfold try_except. specialize (Hm w).
  destruct (m w) as [[a|e] w1]; simpl in *; [exact Hm|].
  now rewrite Hh.
Qed.

End Keeps.

Create HintDb frame.

#[local] Hint Resolve keeps_ret keeps_raise keeps_gets : frame.

(** Walks through a method: binds, handlers and case distinctions, closing
    the leaves with what the [frame] database holds. *)
Ltac frame_step :=
  first
    [ solve [auto with frame]
    | apply keeps_ret | apply keeps_raise | apply keeps_gets
    | apply keeps_bind; [|intros ?]
    | apply keeps_try_except; [|intros ?]
    | progress cbv zeta
    | match goal with
      | |- keeps _ (match ?x with _ => _ end) => destruct x
      end ].

Ltac frame := repeat frame_step.

(** What a primitive may touch. *)
Lemma set_env_keeps {X} (proj : World -> X) (f : Env -> Env) :
  (forall c d e p g, proj (mkWorld c d (f e) p g) = proj (mkWorld c d e p g)) ->
  keeps proj (set_env f).
Proof. intros H [c d e p g]. apply H. Qed.

Lemma set_disk_keeps {X} (proj : World -> X) (f : Disk -> Disk) :
  (forall c d e p g, proj (mkWorld c (f d) e p g) = proj (mkWorld c d e p g)) ->
  keeps proj (set_disk f).
Proof. intros H [c d e p g]. apply H. Qed.

Lemma set_config_keeps {X} (proj : World -> X) (f : Config -> Config) :
  (forall c d e p g, proj (mkWorld (f c) d e p g) = proj (mkWorld c d e p g)) ->
  keeps proj (set_config f).
Proof. intros H [c d e p g]. apply H. Qed.

(** *** What revocation, caching and commands leave alone

    A part of the world that depends neither on the scripts, nor on the
    token, the device id and the cached event configuration, nor on
    [device.conf] and [config.json], is kept by every method that handles
    tokens, wipes, caches or runs commands. *)

Section IdentityFrame.

Context {X : Type} (proj : World -> X).

Hypothesis proj_env :
  forall c d e e' p g, proj (mkWorld c d e p g) = proj (mkWorld c d e' p g).
Hypothesis proj_token :
  forall c d e p g t,
    proj (mkWorld (set_device_token t c) d e p g) = proj (mkWorld c d e p g).
Hypothesis proj_id :
  forall c d e p g i,
    proj (mkWorld (set_device_id i c) d e p g) = proj (mkWorld c d e p g).
Hypothesis proj_event :
  forall c d e p g ec v,
    proj (mkWorld (set_event_config ec v c) d e p g) = proj (mkWorld c d e p g).
Hypothesis proj_files :
  forall c d e p g dc cc,
    proj (mkWorld c (mkDisk dc cc (hostapd_conf d)) e p g) =
    proj (mkWorld c d e p g).
Hypothesis proj_got :
  forall c d e p g g', proj (mkWorld c d e p g) = proj (mkWorld c d e p g').

Lemma keeps_set_env (f : Env -> Env) : keeps proj (set_env f).
Proof. apply set_env_keeps. intros. apply proj_env. Qed.

Lemma keeps_set_device_token (t : option string) :
  keeps proj (set_config (set_device_token t)).
Proof. apply set_config_keeps. intros. apply proj_token. Qed.

Lemma keeps_set_device_id (i : option Z) :
  keeps proj (set_config (set_device_id i)).
Proof. apply set_config_keeps. intros. apply proj_id. Qed.

Lemma keeps_set_event_config (ec : option EventConfig) (v : option Z) :
  keeps proj (set_config (set_event_config ec v)).
Proof. apply set_config_keeps. intros. apply proj_event. Qed.

Lemma keeps_set_device_conf (f : Disk -> option DeviceConf) :
  keeps proj (set_disk (fun d => mkDisk (f d) (config_cache d) (hostapd_conf d))).
Proof.
  apply set_disk_keeps. intros c [dc cc hc] e p g. simpl.
  apply (proj_files c (mkDisk dc cc hc)).
Qed.

Lemma keeps_set_config_cache (f : Disk -> option ConfigCache) :
  keeps proj (set_disk (fun d => mkDisk (device_conf d) (f d) (hostapd_conf d))).
Proof.
  apply set_disk_keeps. intros c [dc cc hc] e p g. simpl.
  apply (proj_files c (mkDisk dc cc hc)).
Qed.

#[local] Hint Resolve keeps_set_env keeps_set_device_token keeps_set_device_id
  keeps_set_event_config : frame.
#[local] Hint Extern 1 (keeps _ (set_disk _)) =>
  first [ apply keeps_set_device_conf with (f := fun _ => _)
        | apply keeps_set_config_cache with (f := fun _ => _) ] : frame.

Lemma keeps_next_io : keeps proj next_io.
Proof. unfold next_io. frame. Qed.

Lemma keeps_next_proc : keeps proj next_proc.
Proof. unfold next_proc. frame. Qed.

Lemma keeps_next_fetch : keeps proj next_fetch.
Proof. unfold next_fetch. frame. Qed.

#[local] Hint Resolve keeps_next_io keeps_next_proc keeps_next_fetch : frame.

Lemma keeps_io_step : keeps proj io_step.
Proof. unfold io_step. frame. Qed.

#[local] Hint Resolve keeps_io_step : frame.

Lemma keeps_save_device_config : keeps proj save_device_config.
Proof. unfold save_device_config. frame. Qed.

Lemma keeps_save_event_config (cfg : EventConfig) (v : Z) :
  keeps proj (save_event_config cfg v).
Proof. unfold save_event_config, _get_timestamp. frame. Qed.

Lemma keeps_clear_event_config : keeps proj clear_event_config.
Proof. unfold clear_event_config. frame. Qed.

#[local] Hint Resolve keeps_save_device_config keeps_save_event_config
  keeps_clear_event_config : frame.

Lemma keeps_wipe_device_data : keeps proj wipe_device_data.
Proof. unfold wipe_device_data. frame. Qed.

Lemma keeps_session_get (url : string) (params : dict) :
  keeps proj (session_get url params).
Proof.
  unfold session_get. apply keeps_bind.
  - intros [c d e p g]. apply proj_got.
  - intros _. frame.
Qed.

#[local] Hint Resolve keeps_session_get : frame.

Lemma keeps_fetch_configuration : keeps proj fetch_configuration.
Proof. unfold fetch_configuration. frame. Qed.

Lemma keeps_cache_configuration (cfg : EventConfig) :
  keeps proj (cache_configuration cfg).
Proof. unfold cache_configuration. frame. Qed.

#[local] Hint Resolve keeps_wipe_device_data keeps_fetch_configuration
  keeps_cache_configuration : frame.

Lemma keeps_process_command (command : Command) :
  keeps proj (process_command command).
Proof.
  unfold process_command, _handle_config_refresh, _handle_restart,
    _handle_wipe, _handle_firmware_update, run_checked.
  destruct command; frame.
Qed.

#[local] Hint Resolve keeps_process_command : frame.

Lemma keeps_process_commands (commands : list Command) :
  keeps proj (process_commands commands).
Proof. induction commands as [|c cs IH]; simpl; frame. Qed.

Lemma keeps_take_token (had : bool) (data : HeartbeatData) :
  keeps proj (take_token had data).
Proof. unfold take_token. frame. Qed.

End IdentityFrame.

(** *** The requests sent *)

Lemma posted_wipe_device_data : keeps posted wipe_device_data.
Proof. now apply keeps_wipe_device_data. Qed.

Lemma posted_process_commands (commands : list Command) :
  keeps posted (process_commands commands).
Proof. now apply keeps_process_commands. Qed.

Lemma posted_take_token (had : bool) (data : HeartbeatData) :
  keeps posted (take_token had data).
Proof. now apply keeps_take_token. Qed.

Lemma posted_save_device_config : keeps posted save_device_config.
Proof. now apply keeps_save_device_config. Qed.

Lemma posted_next_io : keeps posted next_io.
Proof. now apply keeps_next_io. Qed.

Lemma posted_next_proc : keeps posted next_proc.
Proof. now apply keeps_next_proc. Qed.

Lemma posted_set_disk (f : Disk -> Disk) : keeps posted (set_disk f).
Proof. now apply set_disk_keeps. Qed.

Lemma posted_set_config (f : Config -> Config) : keeps posted (set_config f).
Proof. now apply set_config_keeps. Qed.

#[local] Hint Resolve posted_wipe_device_data posted_process_commands
  posted_take_token posted_save_device_config posted_next_io posted_next_proc
  posted_set_disk posted_set_config : frame.

Lemma posted_write_hostapd (lines : list string) :
  keeps posted (write_hostapd lines).
Proof. unfold write_hostapd. frame. Qed.

Lemma posted_read_hostapd : keeps posted read_hostapd.
Proof. unfold read_hostapd. frame. Qed.

#[local] Hint Resolve posted_write_hostapd posted_read_hostapd : frame.

Lemma posted_rollback (lines : list string) : keeps posted (rollback lines).
Proof. unfold rollback. frame. Qed.

#[local] Hint Resolve posted_rollback : frame.

Lemma posted_apply_ssid_configuration (s : string) :
  keeps posted (apply_ssid_configuration s).
Proof. unfold apply_ssid_configuration. frame. Qed.

#[local] Hint Resolve posted_apply_ssid_configuration : frame.

Lemma posted_reconcile_ssid (data : HeartbeatData) :
  keeps posted (reconcile_ssid data).
Proof. unfold reconcile_ssid. frame. Qed.

Lemma posted_get_serial_number : keeps posted get_serial_number.
Proof. unfold get_serial_number. frame. Qed.

#[local] Hint Resolve posted_reconcile_ssid posted_get_serial_number : frame.

(** ** The request body *)

Lemma dict_get_signature_authenticated (token timestamp : string) (v : json) :
  dict_get "signature"
           (dict_merge (authenticated_payload token timestamp) [("signature", v)])
  = Some v.
Proof. reflexivity. Qed.

Lemma dict_remove_signature_authenticated (token timestamp : string) (v : json) :
  dict_remove "signature"
              (dict_merge (authenticated_payload token timestamp) [("signature", v)])
  = authenticated_payload token timestamp.
Proof. reflexivity. Qed.

(** The message that is signed, written out: members in key order, no space
    after a comma or a colon. *)
Lemma dumps_canonical_authenticated (token timestamp : string) :
  dumps_canonical (JDict (authenticated_payload token timestamp)) =
  ("{" ++ quoted "device_token" ++ ":" ++ quoted token ++ "," ++
   quoted "telemetry" ++ ":" ++
     "{" ++ quoted "cpu_usage" ++ ":0.0," ++ quoted "disk_usage" ++ ":0.0," ++
            quoted "memory_usage" ++ ":0.0," ++ quoted "uptime_seconds" ++ ":0," ++
            quoted "wifi_client_count" ++ ":0}" ++ "," ++
   quoted "timestamp" ++ ":" ++ quoted timestamp ++ "}")%string.
Proof.
  cbn -[quoted]. unfold quoted at 1 3 5. cbn -[quoted escape].
  rewrite !TextFacts.append_assoc. cbn -[quoted escape].
  reflexivity.
Qed.

Section Signing.

Variable hmac : string -> string -> string.

(** What [send_heartbeat] has sent once it is over: the body
    [heartbeat_request] built, to the heartbeat URL; nothing when building
    it raised. *)
Lemma posted_send_heartbeat (w : World) :
  posted (snd (send_heartbeat hmac w)) =
  match heartbeat_request hmac (isoformat (utcnow (env w)) ++ "Z")%string w with
  | (Ok body, _) =>
      ((backend_url (config w) ++ "/api/v1/devices/heartbeat")%string, body)
        :: posted w
  | (Raise _, _) => posted w
  end.
Proof.
  unfold send_heartbeat.
  unfold try_except at 1. unfold bind at 1. unfold _get_timestamp at 1.
  unfold gets at 1. unfold bind at 1. unfold gets at 1. unfold bind at 1.
  assert (Hreq : keeps posted
            (heartbeat_request hmac (isoformat (utcnow (env w)) ++ "Z")%string)).
  { unfold heartbeat_request, _sign_request. frame. }
  specialize (Hreq w).
  destruct (heartbeat_request hmac _ w) as [[body|e] w1]; simpl in Hreq;
    [|exact Hreq].
  unfold bind at 1. unfold session_post at 1. unfold bind at 1.
  unfold modify at 1. unfold bind at 1.
  set (w2 := mkWorld (config w1) (disk w1) (env w1) (_ :: posted w1) (got w1)).
  assert (Hpost : keeps posted next_post).
  { unfold next_post. frame. }
  specialize (Hpost w2).
  destruct (next_post w2) as [[[response|]|e] w3]; simpl in Hpost;
    cbn [ret raise fst snd]; try (rewrite Hpost; unfold w2; simpl; now rewrite Hreq).
  match goal with
  | |- posted (snd (match ?m w3 with _ => _ end)) = _ => set (rest := m)
  end.
  assert (Hrest : keeps posted rest) by (unfold rest; frame).
  specialize (Hrest w3).
  destruct (rest w3) as [[r|e] w4]; simpl in *;
    rewrite Hrest, Hpost; unfold w2; simpl; now rewrite Hreq.
Qed.

Lemma heartbeat_request_initial (w : World) (timestamp : string) :
  has_token (config w) = false ->
  exists serial,
    fst (heartbeat_request hmac timestamp w) = Ok (initial_payload serial timestamp).
Proof.
  intros H. destruct w as [c d e p g]. simpl in H.
  unfold heartbeat_request, get_serial_number, has_token in *.
  unfold_agent. cbn.
  destruct (device_token c) as [t|]; [rewrite H|]; cbn;
    destruct (device_serial c) as [s|]; cbn;
    try destruct (negb (s =? "")%string); cbn; eauto.
Qed.

Lemma heartbeat_request_authenticated (w : World) (timestamp token : string) :
  device_token (config w) = Some token -> String.eqb token "" = false ->
  heartbeat_request hmac timestamp w =
  (Ok (dict_merge (authenticated_payload token timestamp)
         [("signature",
           JStr (hmac (utf8 token)
                      (utf8 (dumps_canonical
                               (JDict (authenticated_payload token timestamp))))))]),
   w).
Proof.
  intros Ht Hne. destruct w as [c d e p g]. simpl in Ht.
  unfold heartbeat_request, _sign_request, has_token. unfold_agent. cbn.
  rewrite Ht, Hne. cbn. rewrite Ht, Hne. reflexivity.
Qed.

(** C4.  Without a credential the body [send_heartbeat] posts is the
    initial payload: it has no [signature] and no [device_token] member.
    With one, the body posted carries the credential and a [signature] that
    is the hex HMAC-SHA256, under the stored credential, of the canonical
    JSON of the body without its [signature]; that text has its members in
    key order and no white space; and the receiver's check succeeds. *)
Theorem heartbeat_body_signed_iff_registered (w : World) :
  let timestamp := (isoformat (utcnow (env w)) ++ "Z")%string in
  let url := (backend_url (config w) ++ "/api/v1/devices/heartbeat")%string in
  (has_token (config w) = false ->
   exists body,
     posted (snd (send_heartbeat hmac w)) = (url, body) :: posted w /\
     dict_has "signature" body = false /\
     dict_has "device_token" body = false) /\
  (has_token (config w) = true ->
   exists token body,
     device_token (config w) = Some token /\
     posted (snd (send_heartbeat hmac w)) = (url, body) :: posted w /\
     dict_get "device_token" body = Some (JStr token) /\
     dict_get "signature" body =
       Some (JStr (hmac (utf8 token)
                        (utf8 (dumps_canonical
                                 (JDict (dict_remove "signature" body)))))) /\
     dumps_canonical (JDict (dict_remove "signature" body)) =
       ("{" ++ quoted "device_token" ++ ":" ++ quoted token ++ "," ++
        quoted "telemetry" ++ ":" ++
          "{" ++ quoted "cpu_usage" ++ ":0.0," ++ quoted "disk_usage" ++ ":0.0," ++
                 quoted "memory_usage" ++ ":0.0," ++
                 quoted "uptime_seconds" ++ ":0," ++
                 quoted "wifi_client_count" ++ ":0}" ++ "," ++
        quoted "timestamp" ++ ":" ++ quoted timestamp ++ "}")%string /\
     verify_signature hmac token body = true).
Proof.
  intros timestamp url. split; intros H.
  - destruct (heartbeat_request_initial w timestamp H) as [serial Hreq].
    exists (initial_payload serial timestamp).
    rewrite posted_send_heartbeat. fold timestamp url.
    destruct (heartbeat_request hmac timestamp w) as [r w1]. simpl in Hreq.
    subst r. repeat split; reflexivity.
  - destruct (has_token_inv _ H) as (token & Ht & Hne).
    exists token. eexists. split; [exact Ht|].
    rewrite posted_send_heartbeat. fold timestamp url.
    rewrite (heartbeat_request_authenticated w timestamp Ht Hne).
    split; [reflexivity|].
    split; [reflexivity|].
    rewrite dict_remove_signature_authenticated.
    split; [apply dict_get_signature_authenticated|].
    split; [apply dumps_canonical_authenticated|].
    unfold verify_signature.
    rewrite dict_get_signature_authenticated,
            dict_remove_signature_authenticated.
    apply String.eqb_refl.
Qed.

(** ** Revocation *)

(** [send_heartbeat] of a registered device, up to the answer to its POST. *)
Lemma send_heartbeat_registered (w : World) (token : string) :
  device_token (config w) = Some token -> String.eqb token "" = false ->
  send_heartbeat hmac w =
  try_except
    (response <- session_post
                   (backend_url (config w) ++ "/api/v1/devices/heartbeat")%string
                   (dict_merge
                      (authenticated_payload
                         token (isoformat (utcnow (env w)) ++ "Z")%string)
                      [("signature",
                        JStr (hmac (utf8 token)
                                (utf8 (dumps_canonical
                                   (JDict (authenticated_payload token
                                      (isoformat (utcnow (env w)) ++ "Z")%string))))))]) ;;
     if status_code response =? 200 then
       match json_body response with
       | None => raise JSONDecodeError
       | Some data =>
           take_token true data ;;;
           if match hb_status data with
              | Some s => String.eqb s "token_revoked"
              | None => false
              end
           then wipe_device_data ;;; ret None
           else
             reconcile_ssid data ;;;
             process_commands (hb_commands data) ;;;
             ret (Some data)
       end
     else if status_code response =? 401 then ret None
     else ret None)
    (fun _ => ret None) w.
Proof.
  intros Ht Hne.
  assert (Hhas : has_token (config w) = true)
    by (unfold has_token; rewrite Ht, Hne; reflexivity).
  unfold send_heartbeat.
  unfold try_except at 1 2. unfold bind at 1. unfold _get_timestamp at 1.
  unfold gets at 1. unfold bind at 1. unfold gets at 1. unfold bind at 1.
  rewrite (heartbeat_request_authenticated w _ Ht Hne).
  unfold bind at 2. rewrite Hhas. reflexivity.
Qed.

(** C2, the HTTP 401 half, as the code has it: a registered device that is
    answered 401 returns no result and keeps everything, the credential
    included; it is still registered. *)
Theorem send_heartbeat_401_keeps_credential
        (w : World) (body : option HeartbeatData) :
  has_token (config w) = true ->
  hd None (posts (env w)) = Some (mkResponse 401 body) ->
  fst (send_heartbeat hmac w) = Ok None /\
  config (snd (send_heartbeat hmac w)) = config w /\
  disk (snd (send_heartbeat hmac w)) = disk w /\
  has_token (config (snd (send_heartbeat hmac w))) = true.
Proof.
  intros H Hpost.
  destruct (has_token_inv _ H) as (token & Ht & Hne).
  rewrite (send_heartbeat_registered w Ht Hne).
  destruct w as [c d e p g]. simpl in *.
  unfold_agent. cbn. rewrite Hpost. cbn. auto.
Qed.

(** The revocation half holds when the files can be written: a registered
    device that is answered 200 with [status] "token_revoked" (and no token in
    the body) returns no result and has lost credential, device id and cached
    configuration, in memory and on disk; the serial is what it was. *)
Lemma send_heartbeat_token_revoked_wipes (w : World) (data : HeartbeatData) :
  has_token (config w) = true ->
  hd None (posts (env w)) = Some (mkResponse 200 (Some data)) ->
  hb_status data = Some "token_revoked" ->
  hb_device_token data = None ->
  io (env w) = [] ->
  let w' := snd (send_heartbeat hmac w) in
  fst (send_heartbeat hmac w) = Ok None /\
  device_token (config w') = None /\
  device_id (config w') = None /\
  event_config (config w') = None /\
  config_version (config w') = None /\
  device_serial (config w') = device_serial (config w) /\
  config_cache (disk w') = None /\
  device_conf (disk w') = Some (device_conf_of (config w')) /\
  has_token (config w') = false.
Proof.
  intros H Hpost Hstatus Htok Hio w'. subst w'.
  destruct (has_token_inv _ H) as (token & Ht & Hne).
  rewrite (send_heartbeat_registered w Ht Hne).
  destruct w as [c [dc cc hc] [ios ps po fe now cpu rnd] p g].
  destruct data as [tok st conf cmds].
  simpl in *. subst.
  unfold_agent. cbn. rewrite Hpost. cbn.
  destruct cc; cbn; repeat split; reflexivity.
Qed.

End Signing.

(** ** Radio name reconciliation *)

Lemma applied_ssid_next_io : keeps applied_ssid next_io.
Proof. unfold next_io. frame. now apply set_env_keeps. Qed.

Lemma applied_ssid_next_proc : keeps applied_ssid next_proc.
Proof. unfold next_proc. frame. now apply set_env_keeps. Qed.

Lemma applied_ssid_set_disk (f : Disk -> Disk) : keeps applied_ssid (set_disk f).
Proof. now apply set_disk_keeps. Qed.

#[local] Hint Resolve applied_ssid_next_io applied_ssid_next_proc
  applied_ssid_set_disk : frame.

(** [apply_ssid_configuration] never raises and never touches [wifi_ssid]. *)
Lemma applied_ssid_apply_ssid_configuration (s : string) :
  keeps applied_ssid (apply_ssid_configuration s).
Proof.
  unfold apply_ssid_configuration, rollback, read_hostapd, write_hostapd.
  frame.
Qed.

Lemma apply_ssid_configuration_returns (s : string) (w : World) :
  exists b, fst (apply_ssid_configuration s w) = Ok b.
Proof.
  unfold apply_ssid_configuration. unfold try_except at 1.
  match goal with
  | |- context [match ?m w with _ => _ end] => destruct (m w) as [[b|e] w1]
  end; simpl; eauto.
Qed.

(** The commands of a heartbeat leave the radio name and the hostapd file. *)
Lemma applied_ssid_process_commands (commands : list Command) :
  keeps applied_ssid (process_commands commands).
Proof. now apply keeps_process_commands. Qed.

Lemma hostapd_file_process_commands (commands : list Command) :
  keeps hostapd_file (process_commands commands).
Proof. now apply keeps_process_commands. Qed.

Lemma In_replace_ssid (s : string) (lines : list string) :
  existsb is_ssid_line lines = true ->
  In (ssid_line s) (fst (replace_ssid s lines)).
Proof.
  unfold replace_ssid. simpl. intros H.
  apply existsb_exists in H. destruct H as (line & Hin & Hline).
  apply in_map_iff. exists line. now rewrite Hline.
Qed.

(** C3, as the code has it.  The heartbeat is told a radio name [s] that is
    not the applied one; the file is read and has an [ssid=] line.
    - When the write is refused on open, the file and [wifi_ssid] are what
      they were.
    - When the write is done, the restart fails (exit code, timeout or
      exception) and the rollback write is done, the file holds the text that
      was read, which is the old content when that has no carriage return,
      and [wifi_ssid] is what it was.
    - Whenever the attempt fails, [wifi_ssid] is what it was.
    - When write and restart succeed, the file holds the new lines, the line
      [ssid=s] among them, and [wifi_ssid] is [s]. *)
Theorem reconcile_ssid_rolls_back_or_commits
        (w : World) (data : HeartbeatData) (s text : string) :
  hb_configuration data = Some (mkHbConfiguration (Some s)) ->
  wifi_ssid (config w) <> Some s ->
  hostapd_conf (disk w) = Some text ->
  hd IoOk (io (env w)) = IoOk ->
  existsb is_ssid_line (readlines text) = true ->
  let write := hd IoOk (tl (io (env w))) in
  let restart := hd (Exit 0) (procs (env w)) in
  let undo := hd IoOk (tl (tl (io (env w)))) in
  let w' := snd (reconcile_ssid data w) in
  (write = IoDenied \/ write = IoError ->
   fst (apply_ssid_configuration s w) = Ok false /\
   hostapd_conf (disk w') = Some text /\
   wifi_ssid (config w') = wifi_ssid (config w)) /\
  (write = IoOk -> restart <> Exit 0 -> undo = IoOk ->
   fst (apply_ssid_configuration s w) = Ok false /\
   hostapd_conf (disk w') = Some (universal_newlines text) /\
   (has_cr text = false -> hostapd_conf (disk w') = Some text) /\
   wifi_ssid (config w') = wifi_ssid (config w)) /\
  (fst (apply_ssid_configuration s w) = Ok false ->
   wifi_ssid (config w') = wifi_ssid (config w)) /\
  (write = IoOk -> restart = Exit 0 ->
   fst (apply_ssid_configuration s w) = Ok true /\
   hostapd_conf (disk w') =
     Some (writelines (fst (replace_ssid s (readlines text)))) /\
   In (ssid_line s) (fst (replace_ssid s (readlines text))) /\
   wifi_ssid (config w') = Some s).
Proof.
  intros Hconf Hne Hfile Hread Hfound write restart undo w'.
  assert (Hchanged : match wifi_ssid (config w) with
                     | Some current => negb (String.eqb s current)
                     | None => true
                     end = true).
  { destruct (wifi_ssid (config w)) as [cur|]; [|reflexivity].
    apply negb_true_iff, String.eqb_neq. congruence. }
  assert (Hrec : reconcile_ssid data w =
                 match apply_ssid_configuration s w with
                 | (Ok applied, w1) =>
                     (if applied
                      then set_config (set_wifi_ssid (Some s)) ;;;
                           save_device_config
                      else ret tt) w1
                 | (Raise e, w1) => (Raise e, w1)
                 end).
  { unfold reconcile_ssid. rewrite Hconf. unfold bind at 1. unfold gets at 1.
    cbn [hc_wifi_ssid]. now rewrite Hchanged. }
  assert (Hfail : fst (apply_ssid_configuration s w) = Ok false ->
                  w' = snd (apply_ssid_configuration s w)).
  { intros Hf. unfold w'. rewrite Hrec.
    destruct (apply_ssid_configuration s w) as [r w1]. simpl in Hf.
    now subst r. }
  assert (Hkeep : fst (apply_ssid_configuration s w) = Ok false ->
                  wifi_ssid (config w') = wifi_ssid (config w)).
  { intros Hf. rewrite (Hfail Hf).
    apply (applied_ssid_apply_ssid_configuration s w). }
  assert (Hnew : fst (replace_ssid s (readlines text))
                 = map (fun line => if is_ssid_line line then ssid_line s else line)
                       (readlines text)) by reflexivity.
  split; [|split; [|split]].
  - intros Hw.
    assert (Hf : fst (apply_ssid_configuration s w) = Ok false /\
                 hostapd_conf (disk (snd (apply_ssid_configuration s w))) = Some text).
    { destruct w as [c [dc cc hc] [ios ps po fe now cpu rnd] p g].
      simpl in *. subst hc. subst write.
      unfold_agent. cbn. rewrite Hread. cbn.
      unfold replace_ssid. rewrite Hfound. cbn.
      destruct Hw as [-> | ->]; cbn; auto. }
    destruct Hf as [Hf Hh]. split; [exact Hf|].
    split; [now rewrite (Hfail Hf)|now apply Hkeep].
  - intros Hw Hr Hu.
    assert (Hf : fst (apply_ssid_configuration s w) = Ok false /\
                 hostapd_conf (disk (snd (apply_ssid_configuration s w)))
                 = Some (writelines (readlines text))).
    { destruct w as [c [dc cc hc] [ios ps po fe now cpu rnd] p g].
      simpl in *. subst hc. subst write restart undo.
      unfold_agent. cbn. rewrite Hread. cbn.
      unfold replace_ssid. rewrite Hfound. cbn. rewrite Hw. cbn.
      assert (Hlines : readlines text <> []).
      { intros Hnil. rewrite Hnil in Hfound. discriminate. }
      destruct (readlines text) as [|l0 ls] eqn:Hl; [congruence|].
      destruct (hd (Exit 0) ps) as [rc| |] eqn:Hp; cbn.
      - destruct (Z.eqb_spec rc 0) as [->|Hrc]; [congruence|].
        cbn. rewrite Hu. cbn. auto.
      - rewrite Hu. cbn. auto.
      - rewrite Hu. cbn. auto. }
    destruct Hf as [Hf Hh]. rewrite TextFacts.writelines_readlines in Hh.
    split; [exact Hf|]. rewrite (Hfail Hf).
    split; [exact Hh|]. split.
    + intros Hcr. rewrite Hh. now rewrite TextFacts.universal_newlines_no_cr.
    + rewrite <- (Hfail Hf). now apply Hkeep.
  - exact Hkeep.
  - intros Hw Hr.
    assert (Hok : fst (apply_ssid_configuration s w) = Ok true /\
                  hostapd_conf (disk (snd (apply_ssid_configuration s w)))
                  = Some (writelines (fst (replace_ssid s (readlines text))))).
    { destruct w as [c [dc cc hc] [ios ps po fe now cpu rnd] p g].
      simpl in *. subst hc. subst write restart.
      unfold_agent. cbn. rewrite Hread. cbn.
      unfold replace_ssid. rewrite Hfound. cbn. rewrite Hw. cbn.
      rewrite Hr. cbn. auto. }
    destruct Hok as [Hok Hh]. split; [exact Hok|].
    assert (Hcommit : hostapd_conf (disk w') =
                      hostapd_conf (disk (snd (apply_ssid_configuration s w))) /\
                      wifi_ssid (config w') = Some s).
    { unfold w'. rewrite Hrec.
      destruct (apply_ssid_configuration s w) as [r w1]. simpl in Hok. subst r.
      destruct w1 as [c1 [dc1 cc1 hc1] [ios1 ps1 po1 fe1 now1 cpu1 rnd1] p1 g1].
      unfold_agent. cbn.
      destruct (hd IoOk ios1); cbn; auto.
      destruct (hd IoOk (tl ios1)); cbn; auto. }
    destruct Hcommit as [Hc1 Hc2].
    split; [now rewrite Hc1|]. split; [now apply In_replace_ssid|exact Hc2].
Qed.

(** The attempt as part of a heartbeat: for a registered device answered 200
    with no token and no revocation, the hostapd file and [wifi_ssid] at the
    end of [send_heartbeat] are those [reconcile_ssid] leaves when it runs
    right after the POST; the commands that follow touch neither. *)
Lemma send_heartbeat_reconciles
      (hmac : string -> string -> string) (w : World) (data : HeartbeatData) :
  has_token (config w) = true ->
  hd None (posts (env w)) = Some (mkResponse 200 (Some data)) ->
  hb_device_token data = None ->
  hb_status data <> Some "token_revoked" ->
  exists url body,
    hostapd_file (snd (send_heartbeat hmac w)) =
      hostapd_file (snd (reconcile_ssid data (after_post url body w))) /\
    applied_ssid (snd (send_heartbeat hmac w)) =
      applied_ssid (snd (reconcile_ssid data (after_post url body w))).
Proof.
  intros H Hpost Htok Hstatus.
  destruct (has_token_inv _ H) as (token & Ht & Hne).
  set (url := (backend_url (config w) ++ "/api/v1/devices/heartbeat")%string).
  set (body := dict_merge
          (authenticated_payload token (isoformat (utcnow (env w)) ++ "Z")%string)
          [("signature",
            JStr (hmac (utf8 token)
                    (utf8 (dumps_canonical
                       (JDict (authenticated_payload token
                          (isoformat (utcnow (env w)) ++ "Z")%string))))))]).
  assert (Hrev : match hb_status data with
                 | Some s => String.eqb s "token_revoked"
                 | None => false
                 end = false).
  { destruct (hb_status data) as [s|]; [|reflexivity].
    apply String.eqb_neq. congruence. }
  assert (Heq : send_heartbeat hmac w =
                try_except
                  (reconcile_ssid data ;;;
                   process_commands (hb_commands data) ;;;
                   ret (Some data))
                  (fun _ => ret None) (after_post url body w)).
  { rewrite (send_heartbeat_registered hmac w Ht Hne). fold url body.
    destruct w as [c d [ios ps po fe now cpu rnd] p g]. simpl in Hpost.
    unfold session_post, next_post, take_token, set_env, after_post.
    unfold try_except, bind, modify, gets, ret.
    cbn [config disk env posted posts io procs fetches utcnow cpu_serial
         random_suffix fst snd].
    rewrite Hpost. cbn [status_code json_body Z.eqb Pos.eqb].
    rewrite Htok, Hrev. reflexivity. }
  exists url, body. rewrite Heq.
  unfold try_except. unfold bind at 1 3.
  pose proof (hostapd_file_process_commands (hb_commands data)) as Hh.
  pose proof (applied_ssid_process_commands (hb_commands data)) as Ha.
  destruct (reconcile_ssid data (after_post url body w)) as [[[]|e] w2];
    cbn [fst snd ret]; [|split; reflexivity].
  unfold bind.
  specialize (Hh w2). specialize (Ha w2).
  destruct (process_commands (hb_commands data) w2) as [[[]|e] w3];
    simpl in *; split; assumption.
Qed.

Lemma reconcile_ssid_witness :
  hostapd_conf (disk (snd (reconcile_ssid rename_data
                             (scripted_world hostapd_text [] [Exit 1]))))
    = Some hostapd_text /\
  wifi_ssid (config (snd (reconcile_ssid rename_data
                            (scripted_world hostapd_text [] [Exit 1]))))
    = Some "EventNet" /\
  hostapd_conf (disk (snd (reconcile_ssid rename_data
                             (scripted_world hostapd_text [] []))))
    = Some renamed_text /\
  wifi_ssid (config (snd (reconcile_ssid rename_data
                            (scripted_world hostapd_text [] []))))
    = Some "EventNet2".
Proof.
  destruct (@reconcile_ssid_rolls_back_or_commits
              (scripted_world hostapd_text [] [Exit 1]) rename_data
              "EventNet2" hostapd_text)
    as (_ & Hroll & _ & _); try reflexivity; [discriminate|].
  destruct (@reconcile_ssid_rolls_back_or_commits
              (scripted_world hostapd_text [] []) rename_data
              "EventNet2" hostapd_text)
    as (_ & _ & _ & Hcommit); try reflexivity; [discriminate|].
  destruct Hroll as (_ & _ & H1 & H2); try reflexivity; [discriminate|].
  destruct Hcommit as (_ & H3 & _ & H4); try reflexivity.
  split; [apply H1; reflexivity|]. split; [exact H2|].
  split; [exact H3|exact H4].
Defined.

(** C3 as stated fails in three ways.  The write breaks after the file was
    truncated: nothing is written back and the file is empty.  The restart
    fails and the rollback write is refused: the file keeps the new name.
    The restart fails and the rollback is written, on a file with CR LF line
    ends: the file comes back with LF line ends. *)
Lemma reconcile_ssid_leaves_file_changed_after_failure :
  (fst (apply_ssid_configuration "EventNet2"
          (scripted_world hostapd_text [IoOk; IoBroken ""] [])) = Ok false /\
   hostapd_conf (disk (snd (reconcile_ssid rename_data
                              (scripted_world hostapd_text [IoOk; IoBroken ""] []))))
     = Some "" /\
   hostapd_text <> "") /\
  (fst (apply_ssid_configuration "EventNet2"
          (scripted_world hostapd_text [IoOk; IoOk; IoDenied] [Exit 1])) = Ok false /\
   hostapd_conf (disk (snd (reconcile_ssid rename_data
                              (scripted_world hostapd_text [IoOk; IoOk; IoDenied]
                                              [Exit 1]))))
     = Some renamed_text /\
   renamed_text <> hostapd_text) /\
  (fst (apply_ssid_configuration "EventNet2"
          (scripted_world hostapd_text_crlf [] [Exit 1])) = Ok false /\
   hostapd_conf (disk (snd (reconcile_ssid rename_data
                              (scripted_world hostapd_text_crlf [] [Exit 1]))))
     = Some hostapd_text /\
   hostapd_text <> hostapd_text_crlf).
Proof. vm_compute. repeat split; discriminate. Qed.

(** ** The registration predicate *)

(** C8 fails on the empty credential: [is_registered] holds of it, while
    [has_token], the test [send_heartbeat] makes, does not.  A first
    heartbeat answered with an empty token leaves the device in that state. *)
Theorem is_registered_accepts_empty_credential
        (hmac : string -> string -> string) (c : Config) :
  is_registered (set_device_token (Some "") c) = true /\
  has_token (set_device_token (Some "") c) = false /\
  let answer := mkResponse 200 (Some (mkHeartbeatData (Some (Some "")) None None [])) in
  let w' := snd (send_heartbeat hmac (fresh_world (Some answer))) in
  device_token (config w') = Some "" /\
  is_registered (config w') = true /\
  has_token (config w') = false.
Proof. repeat split. Qed.

(** ** The cached configuration version *)

(** C10 fails at version 0: the cached version 0 counts as no version, an
    offered configuration of version -1 is stored, and the version goes
    down.  Version 0 is itself reached by caching a configuration of
    version 0 on a device that has none. *)
Theorem cache_configuration_lowers_version_zero :
  config_version (config version_zero_world) = Some 0 /\
  version_of older_config = -1 /\
  fst (cache_configuration older_config version_zero_world) = Ok true /\
  config_version (config (snd (cache_configuration older_config version_zero_world)))
    = Some (-1) /\
  event_config (config (snd (cache_configuration older_config version_zero_world)))
    = Some older_config /\
  config_version
    (config (snd (cache_configuration (mkEventConfig (Some 0) "draft")
                                      (fresh_world None)))) = Some 0.
Proof. repeat split. Qed.

(** For a cached version that is not 0 the guard does what C10 says: an
    offer that is not newer returns success and changes nothing. *)
Lemma cache_configuration_skips_older (w : World) (cfg : EventConfig) (v : Z) :
  config_version (config w) = Some v -> v <> 0 -> version_of cfg <= v ->
  cache_configuration cfg w = (Ok true, w).
Proof.
  intros Hv Hnz Hle. unfold cache_configuration. unfold_agent.
  rewrite Hv. simpl.
  destruct (Z.eqb_spec v 0); [contradiction|]. simpl.
  destruct (Z.leb_spec (version_of cfg) v); [reflexivity|lia].
Qed.

(** And from a cached version that is not 0 the version never goes down. *)
Lemma cache_configuration_monotone_from_nonzero
      (w : World) (cfg : EventConfig) (v : Z) :
  config_version (config w) = Some v -> v <> 0 ->
  exists v', config_version (config (snd (cache_configuration cfg w))) = Some v' /\
             v <= v'.
Proof.
  intros Hv Hnz.
  destruct (Z.le_gt_cases (version_of cfg) v) as [Hle|Hgt].
  - rewrite (cache_configuration_skips_older w cfg Hv Hnz Hle).
    exists v. split; [exact Hv|lia].
  - destruct w as [c d [ios ps po fe now cpu rnd] p g]. simpl in Hv.
    unfold cache_configuration. unfold_agent. cbn. rewrite Hv. cbn.
    destruct (Z.eqb_spec v 0); [contradiction|]. cbn.
    destruct (Z.leb_spec (version_of cfg) v); [lia|]. cbn.
    destruct (hd IoOk ios); cbn.
    + exists (version_of cfg). split; [reflexivity|lia].
    + exists v. split; [exact Hv|lia].
    + exists v. split; [exact Hv|lia].
    + exists v. split; [exact Hv|lia].
Qed.

Lemma send_heartbeat_token_revoked_witness :
  device_token
    (config (snd (send_heartbeat toy_hmac
                    (registered_world
                       (Some (mkResponse 200
                          (Some (mkHeartbeatData None (Some "token_revoked")
                                                 None []))))))))
    = None /\
  device_serial
    (config (snd (send_heartbeat toy_hmac
                    (registered_world
                       (Some (mkResponse 200
                          (Some (mkHeartbeatData None (Some "token_revoked")
                                                 None []))))))))
    = Some "CS-SHAKA-V1-042".
Proof.
  destruct (@send_heartbeat_token_revoked_wipes toy_hmac
              (registered_world
                 (Some (mkResponse 200
                    (Some (mkHeartbeatData None (Some "token_revoked") None [])))))
              (mkHeartbeatData None (Some "token_revoked") None []))
    as (_ & H1 & _ & _ & _ & H2 & _); try reflexivity.
  split; [exact H1|exact H2].
Defined.

Lemma cache_configuration_monotone_witness :
  exists v',
    config_version
      (config (snd (cache_configuration (mkEventConfig (Some 5) "five")
                                        (registered_world None)))) = Some v' /\
    3 <= v'.
Proof.
  apply (@cache_configuration_monotone_from_nonzero
           (registered_world None) (mkEventConfig (Some 5) "five") 3).
  - reflexivity.
  - discriminate.
Defined.

(** A wipe, whatever the disk does, leaves the serial. *)
Lemma wipe_device_data_keeps_serial :
  keeps (fun w => device_serial (config w)) wipe_device_data.
Proof. now apply keeps_wipe_device_data. Qed.

(** An unprovisioned device is answered with the credential "T1": it is
    registered, the credential is stored in memory and in [device.conf], and
    the request that was sent carried the serial and no signature. *)
Example provisioning_scenario (hmac : string -> string -> string) :
  let answer := mkResponse 200 (Some (mkHeartbeatData (Some (Some "T1")) None None [])) in
  let w' := snd (send_heartbeat hmac (fresh_world (Some answer))) in
  has_token (config (fresh_world (Some answer))) = false /\
  has_token (config w') = true /\
  device_token (config w') = Some "T1" /\
  option_map saved_device_token (device_conf (disk w')) = Some (Some "T1") /\
  map (fun sent => dict_has "signature" (snd sent)) (posted w') = [false] /\
  map (fun sent => dict_get "serial_number" (snd sent)) (posted w')
    = [Some (JStr "CS-SHAKA-V1-042")].
Proof. repeat split. Qed.

(** ** The telemetry agent on the same answers *)

(** The telemetry agent does drop the credential on HTTP 401, in memory and
    in [device.conf]; device id and cached configuration stay. *)
Example telemetry_agent_401_clears_token (hmac : string -> string -> string) :
  let s' := snd (TelemetryAgent.send_heartbeat hmac telemetry
                   (registered_world (Some (mkResponse 401 None)), 2)) in
  fst (TelemetryAgent.send_heartbeat hmac telemetry
         (registered_world (Some (mkResponse 401 None)), 2)) = Ok None /\
  device_token (config (fst s')) = None /\
  option_map saved_device_token (device_conf (disk (fst s'))) = Some None /\
  device_id (config (fst s')) = Some 17 /\
  config_version (config (fst s')) = Some 3.
Proof. repeat split. Qed.

(** With the empty credential stored the telemetry agent takes the device
    for registered, fails to sign and sends nothing, whatever the backend
    would answer; its main loop asks for a token only when [is_registered]
    is false, so it never does. *)
Example telemetry_agent_stuck_on_empty_token
        (hmac : string -> string -> string) (post : option Response) :
  is_registered (config (empty_token_world post)) = true /\
  TelemetryAgent.send_heartbeat hmac telemetry (empty_token_world post, 0)
    = (Ok None, (empty_token_world post, 0)).
Proof. split; reflexivity. Qed.

Lemma send_heartbeat_401_witness :
  fst (send_heartbeat toy_hmac (registered_world (Some (mkResponse 401 None))))
    = Ok None /\
  device_token (config (snd (send_heartbeat toy_hmac
                               (registered_world (Some (mkResponse 401 None))))))
    = Some "T1".
Proof.
  destruct (@send_heartbeat_401_keeps_credential toy_hmac
              (registered_world (Some (mkResponse 401 None))) None)
    as (H1 & H2 & _); try reflexivity.
  split; [exact H1|]. now rewrite H2.
Defined.

End AgentFacts.
(* ================================================================== *)
(** * The queue over time: acknowledged items, retries, ids, statistics *)
(* ================================================================== *)

Module QueueHistoryFacts.

Import Datetime TelemetryQueue QueueStats QueueHistory TelemetryQueueFacts.

(** ** What a dequeued tuple says about the row it came from *)

Lemma row_item_inv (r : Row) (i : Z) (ty : QueueItemType) (d : string) :
  row_item r = Ok (i, ty, d) ->
  id r = i /\ item_type r = value ty /\ data r = d.
Proof.
  unfold row_item, QueueItemType_of.
  destruct (item_type r =? 1) eqn:H1.
  - intros H; inversion H; subst. apply Z.eqb_eq in H1. now rewrite H1.
  - destruct (item_type r =? 2) eqn:H2; [|discriminate].
    intros H; inversion H; subst. apply Z.eqb_eq in H2. now rewrite H2.
Qed.

Lemma row_items_In (l : list Row) :
  forall items, row_items l = Ok items ->
  forall i ty d, In (i, ty, d) items ->
  exists r, In r l /\ id r = i /\ item_type r = value ty /\ data r = d.
Proof.
  induction l as [|r l IH]; simpl; intros items H i ty d Hin.
  - inversion H; subst. destruct Hin.
  - destruct (row_item r) as [[[i0 ty0] d0]|] eqn:Hr; [|discriminate].
    destruct (row_items l) as [rest|] eqn:Hl; [|discriminate].
    inversion H; subst. destruct Hin as [Heq|Hin].
    + inversion Heq; subst. exists r. split; [now left|].
      now apply row_item_inv.
    + destruct (IH rest eq_refl i ty d Hin) as [r' [Hr' Hrest]].
      exists r'. split; [now right|exact Hrest].
Qed.

Lemma id_in_spec (ids : list Z) (r : Row) :
  id_in ids r = true <-> In (id r) ids.
Proof.
  unfold id_in. rewrite existsb_exists. split.
  - intros [x [Hx Heq]]. apply Z.eqb_eq in Heq. now subst.
  - intros H. exists (id r). split; [exact H|apply Z.eqb_refl].
Qed.

(** What [dequeue_batch] hands out comes from the table. *)
Lemma dequeue_batch_from_table (n : Z) (w : World) (items : list (Z * QueueItemType * string)) :
  fst (dequeue_batch n w) = Ok items ->
  forall i ty d, In (i, ty, d) items ->
  exists r, In r (rows (table w)) /\ id r = i /\ item_type r = value ty /\ data r = d.
Proof.
  rewrite dequeue_batch_eq. simpl. intros H i ty d Hin.
  destruct (hd false (faults w)).
  { exfalso. inversion H; subst. destruct Hin. }
  destruct (fits_int64 n).
  2:{ exfalso. inversion H; subst. destruct Hin. }
  destruct (row_items _) as [sel|] eqn:Hsel.
  2:{ exfalso. inversion H; subst. destruct Hin. }
  inversion H; subst.
  destruct (row_items_In _ Hsel _ _ _ Hin) as [r [Hr Hrest]].
  exists r. split; [|exact Hrest].
  apply (order_by_In priority_created_leb). now apply sql_limit_incl in Hr.
Qed.

(** Acknowledged items are gone for good.  [mark_synced] with a store that
    answers returns.  When every listed id fits a 64-bit integer, the rows
    whose id is listed are deleted and no other, and no later
    [dequeue_batch] on that table hands out a listed id.  When one does
    not, the binding fails, the error is logged, and no row is deleted. *)
Theorem mark_synced_removes_for_good (ids : list Z) (w : World) :
  hd false (faults w) = false ->
  let w' := snd (mark_synced ids w) in
  fst (mark_synced ids w) = Ok tt /\
  (forallb fits_int64 ids = true ->
   (forall r, In r (rows (table w')) <->
              In r (rows (table w)) /\ ~ In (id r) ids) /\
   (forall n w'' items,
      table w'' = table w' -> fst (dequeue_batch n w'') = Ok items ->
      forall i ty d, In (i, ty, d) items -> ~ In i ids)) /\
  (forallb fits_int64 ids = false -> table w' = table w).
Proof.
  intros Hf w'.
  assert (Hrows : forallb fits_int64 ids = true ->
                  forall r, In r (rows (table w')) <->
                            In r (rows (table w)) /\ ~ In (id r) ids).
  { intros Hfit. subst w'. destruct ids as [|i0 ids0].
    - simpl. intros r. split; [intros H; split; [exact H|intros []]|now intros [H _]].
    - rewrite mark_synced_eq by discriminate. rewrite Hf, Hfit.
      cbn [snd table after delete_where rows].
      intros r. rewrite filter_In. cbv beta.
      rewrite negb_true_iff, <- not_true_iff_false.
      split; intros [H1 H2]; (split; [exact H1|]); intros H3; apply H2;
        now apply (id_in_spec (i0 :: ids0)). }
  split; [|split].
  - destruct ids; [reflexivity|]. now rewrite mark_synced_eq by discriminate.
  - intros Hfit. split; [exact (Hrows Hfit)|].
    intros n w'' items Ht Hd i ty d Hin Hi.
    destruct (dequeue_batch_from_table _ _ Hd _ _ _ Hin) as [r [Hr [Hid _]]].
    rewrite Ht in Hr. apply (Hrows Hfit) in Hr. subst i. now destruct Hr.
  - intros Hfit. subst w'. destruct ids as [|i0 ids0]; [discriminate|].
    rewrite mark_synced_eq by discriminate. now rewrite Hf, Hfit.
Qed.

Lemma mark_synced_removes_for_good_witness :
  hd false (faults QueueExamples.full_world) = false /\
  fst (mark_synced [1; 3] QueueExamples.full_world) = Ok tt /\
  rows (table (snd (mark_synced [1; 3] QueueExamples.full_world)))
    = [QueueExamples.a2].
Proof.
  split; [reflexivity|].
  destruct (mark_synced_removes_for_good [1; 3] QueueExamples.full_world eq_refl)
    as [H _].
  split; [exact H|reflexivity].
Defined.

(** An id beyond 64 bits in the list keeps every listed row in the queue:
    [mark_synced [1; 2^63]] and [mark_failed [1; 2^63]] return normally and
    row 1 is as it was. *)
Example mark_synced_overflow_deletes_nothing :
  fst (mark_synced [1; 2 ^ 63] QueueExamples.full_world) = Ok tt /\
  table (snd (mark_synced [1; 2 ^ 63] QueueExamples.full_world)) =
    QueueExamples.full_table /\
  fst (mark_failed [1; 2 ^ 63] QueueExamples.full_world) = Ok tt /\
  table (snd (mark_failed [1; 2 ^ 63] QueueExamples.full_world)) =
    QueueExamples.full_table.
Proof. repeat split. Qed.

(** ** Sorting rows whose keys were not touched *)

Section OrderByMap.

Variable leb : Row -> Row -> bool.
Variable f : Row -> Row.
Hypothesis f_keys : forall a b, leb (f a) (f b) = leb a b.

Lemma insert_by_retouched (x : Row) (l : list Row) :
  insert_by leb (f x) (map f l) = map f (insert_by leb x l).
Proof.
  induction l as [|y l IH]; simpl; [reflexivity|].
  rewrite f_keys. destruct (leb x y); simpl; [reflexivity|now rewrite IH].
Qed.

Lemma order_by_retouched (l : list Row) :
  order_by leb (map f l) = map f (order_by leb l).
Proof.
  induction l as [|x l IH]; simpl; [reflexivity|].
  now rewrite IH, insert_by_retouched.
Qed.

End OrderByMap.

Lemma sql_limit_map {A B} (g : A -> B) (n : Z) (l : list A) :
  sql_limit n (map g l) = map g (sql_limit n l).
Proof. unfold sql_limit. destruct (n <? 0); [reflexivity|apply firstn_map]. Qed.

Lemma row_items_retouched (f : Row -> Row) (l : list Row) :
  (forall r, id (f r) = id r /\ item_type (f r) = item_type r /\ data (f r) = data r) ->
  row_items (map f l) = row_items l.
Proof.
  intros Hf. induction l as [|r l IH]; simpl; [reflexivity|].
  rewrite IH. unfold row_item. destruct (Hf r) as [H1 [H2 H3]].
  now rewrite H1, H2, H3.
Qed.

Lemma bump_retry_rows (ts : string) (ids : list Z) (t : Table) :
  rows (bump_retry ts ids t) = map (bumped ts ids) (rows t).
Proof. reflexivity. Qed.

Lemma bumped_same_item (ts : string) (ids : list Z) (r : Row) :
  id (bumped ts ids r) = id r /\ item_type (bumped ts ids r) = item_type r /\
  priority (bumped ts ids r) = priority r /\ data (bumped ts ids r) = data r /\
  created_at (bumped ts ids r) = created_at r.
Proof. unfold bumped. destruct (id_in ids r); simpl; intuition. Qed.

Lemma dequeue_batch_after_bump (ts : string) (ids : list Z) (n : Z) (t : Table)
      (fs : list bool) (now : datetime) :
  fst (dequeue_batch n (mkWorld (bump_retry ts ids t) fs now)) =
  fst (dequeue_batch n (mkWorld t fs now)).
Proof.
  rewrite !dequeue_batch_eq. cbn [fst table faults]. rewrite bump_retry_rows.
  rewrite order_by_retouched, sql_limit_map, row_items_retouched.
  - reflexivity.
  - intros r. destruct (bumped_same_item ts ids r) as [H1 [H2 [_ [H4 _]]]]. auto.
  - intros a b. unfold priority_created_leb.
    destruct (bumped_same_item ts ids a) as [_ [_ [Ha [_ Ha']]]].
    destruct (bumped_same_item ts ids b) as [_ [_ [Hb [_ Hb']]]].
    now rewrite Ha, Ha', Hb, Hb'.
Qed.

(** A failed item stays, only its retry count moves.  [mark_failed] never
    raises and changes no id, type, priority, payload or creation time: row by
    row the table is the same but for the retry count, which goes up by
    exactly one on the listed rows when the store answers and every listed
    id fits a 64-bit integer, and stays otherwise.  What [dequeue_batch]
    returns is therefore the same before and after. *)
Theorem mark_failed_only_counts_retries (ids : list Z) (w : World) :
  let w' := snd (mark_failed ids w) in
  fst (mark_failed ids w) = Ok tt /\
  Forall2 (fun r r' =>
             id r' = id r /\ item_type r' = item_type r /\
             priority r' = priority r /\ data r' = data r /\
             created_at r' = created_at r /\
             retry_count r' =
               retry_count r +
               (if hd false (faults w) then 0
                else if forallb fits_int64 ids
                     then if id_in ids r then 1 else 0
                     else 0))
          (rows (table w)) (rows (table w')) /\
  seq (table w') = seq (table w) /\
  (forall n fs now,
     fst (dequeue_batch n (mkWorld (table w') fs now)) =
     fst (dequeue_batch n (mkWorld (table w) fs now))).
Proof.
  intros w'. subst w'.
  assert (Hsame : forall l : list Row,
            Forall2 (fun r r' =>
                       id r' = id r /\ item_type r' = item_type r /\
                       priority r' = priority r /\ data r' = data r /\
                       created_at r' = created_at r /\
                       retry_count r' = retry_count r + 0) l l).
  { induction l; constructor; [|assumption].
    repeat (split; [reflexivity|]). lia. }
  destruct ids as [|i0 ids0].
  - cbn [mark_failed ret fst snd forallb id_in existsb].
    split; [reflexivity|]. split; [|split; [reflexivity|reflexivity]].
    destruct (hd false (faults w)); apply Hsame.
  - rewrite mark_failed_eq by discriminate. cbn [fst snd].
    destruct (hd false (faults w)); cbn [table after].
    + split; [reflexivity|]. split; [apply Hsame|]. split; reflexivity.
    + destruct (forallb fits_int64 (i0 :: ids0)).
      2: { split; [reflexivity|]. split; [apply Hsame|]. split; reflexivity. }
      split; [reflexivity|]. split; [|split].
      * rewrite bump_retry_rows.
        induction (rows (table w)) as [|r l IH]; cbn [map]; constructor; [|exact IH].
        destruct (bumped_same_item (isoformat (utcnow w) ++ "Z")%string
                                   (i0 :: ids0) r) as [H1 [H2 [H3 [H4 H5]]]].
        repeat (split; [assumption|]).
        unfold bumped. destruct (id_in (i0 :: ids0) r); cbn [retry_count]; lia.
      * reflexivity.
      * intros n fs now. apply dequeue_batch_after_bump.
Qed.

(** ** Ids over a history of calls *)

Lemma same_item_refl (r : Row) : same_item r r.
Proof. repeat split. Qed.

Lemma same_item_trans (a b c : Row) : same_item a b -> same_item b c -> same_item a c.
Proof. unfold same_item. intuition congruence. Qed.

Lemma later_refl (t : Table) : later t t.
Proof.
  split; [lia|]. intros r Hr. right. exists r. split; [exact Hr|apply same_item_refl].
Qed.

Lemma later_trans (a b c : Table) : later a b -> later b c -> later a c.
Proof.
  intros [Hab Hab'] [Hbc Hbc']. split; [lia|].
  intros r Hr. destruct (Hbc' r Hr) as [Hnew|[rb [Hrb Hsame]]]; [left; lia|].
  destruct (Hab' rb Hrb) as [Hnew|[ra [Hra Hsame']]].
  - left. destruct Hsame as [Hid _]. lia.
  - right. exists ra. split; [exact Hra|]. eapply same_item_trans; eassumption.
Qed.

Lemma later_delete_where (p : Row -> bool) (t : Table) :
  later t (snd (delete_where p t)).
Proof.
  split; [simpl; lia|]. simpl. intros r Hr. apply filter_In in Hr.
  right. exists r. split; [tauto|apply same_item_refl].
Qed.

Lemma later_delete_oldest_of_type (v : Z) (t : Table) :
  later t (delete_oldest_of_type v t).
Proof.
  unfold delete_oldest_of_type. destruct (oldest_of_type v t).
  - apply later_delete_where.
  - apply later_refl.
Qed.

Lemma later_insert_item (ty prio : Z) (d ts : string) (t : Table) :
  later t (insert_item ty prio d ts t).
Proof.
  split; [simpl; lia|]. simpl. intros r Hr. apply in_app_or in Hr.
  destruct Hr as [Hr|[Hr|[]]].
  - right. exists r. split; [exact Hr|apply same_item_refl].
  - left. subst r. simpl. lia.
Qed.

Lemma later_bump_retry (ts : string) (ids : list Z) (t : Table) : later t (bump_retry ts ids t).
Proof.
  split; [simpl; lia|]. rewrite bump_retry_rows. intros r' Hr'.
  apply in_map_iff in Hr'. destruct Hr' as [r [Heq Hr]]. subst r'.
  right. exists r. split; [exact Hr|]. apply bumped_same_item.
Qed.

Lemma get_queue_stats_table (stat : result Z) (w : World) :
  table (snd (get_queue_stats stat w)) = table w.
Proof.
  unfold get_queue_stats, try_except, transaction, ret.
  destruct (hd false (faults w)); [reflexivity|].
  destruct stat; reflexivity.
Qed.

Lemma later_inserting (ty : Z) (dumped : result string) (now : datetime)
                       (w : World) :
  later (table w) (table (snd (inserting ty dumped now w))).
Proof.
  destruct (inserting_table ty dumped now w)
    as [(e & _ & ->)|(text & _ & _ & _ & ->)];
    [apply later_refl|apply later_insert_item].
Qed.

Lemma later_run_call (self : QueueManager) (c : call) (w : World) :
  later (table w) (table (run_call self c w)).
Proof.
  destruct c as [record|submission|n|ids|ids|stat|days]; cbn [run_call].
  - rewrite enqueue_analytics_eq. cbv zeta.
    set (n := if hd false (faults w) then 0
              else count_type (value ANALYTICS_RECORD) (table w)).
    assert (H2 : later (table w)
                   (table (if n >=? MAX_ANALYTICS_RECORDS self
                           then after (after w (table w))
                                  (if hd false (faults (after w (table w)))
                                   then table w
                                   else delete_oldest_of_type
                                          (value ANALYTICS_RECORD) (table w))
                           else after w (table w)))).
    { destruct (n >=? MAX_ANALYTICS_RECORDS self); simpl; [|apply later_refl].
      destruct (hd false (tl (faults w)));
        [apply later_refl|apply later_delete_oldest_of_type]. }
    match goal with
    | |- context [if hd false (faults ?w2) then _ else _] =>
        destruct (hd false (faults w2)); [exact H2|]
    end.
    eapply later_trans; [exact H2|apply later_inserting].
  - rewrite enqueue_submission_eq. cbv zeta.
    destruct (_ >=? MAX_SUBMISSIONS self); simpl; [apply later_refl|].
    destruct (hd false (tl (faults w)));
      [apply later_refl|apply (later_inserting _ _ _ (after w (table w)))].
  - rewrite dequeue_batch_eq. apply later_refl.
  - destruct ids as [|i0 ids0]; [apply later_refl|].
    rewrite mark_synced_eq by discriminate. simpl.
    destruct (hd false (faults w)); [apply later_refl|].
    destruct (_ && _); [apply later_delete_where|apply later_refl].
  - destruct ids as [|i0 ids0]; [apply later_refl|].
    rewrite mark_failed_eq by discriminate. simpl.
    destruct (hd false (faults w)); [apply later_refl|].
    destruct (_ && _); [apply later_bump_retry|apply later_refl].
  - rewrite get_queue_stats_table. apply later_refl.
  - rewrite cleanup_old_records_eq.
    destruct (cutoff_str (utcnow w) days); simpl; [|apply later_refl].
    destruct (hd false (faults w)); simpl;
      [apply later_refl|apply later_delete_where].
Qed.

Lemma wf_run_call (self : QueueManager) (c : call) (w : World) :
  wf_table (table w) -> wf_table (table (run_call self c w)).
Proof.
  intros H. destruct c; simpl.
  - now apply enqueue_analytics_wf.
  - now apply enqueue_submission_wf.
  - now rewrite dequeue_batch_eq.
  - now apply mark_synced_wf.
  - now apply mark_failed_wf.
  - now rewrite get_queue_stats_table.
  - now apply cleanup_old_records_wf.
Qed.

(** Ids are never reused.  Over any sequence of calls and clock movements,
    under any storage faults: the schema invariant holds at the end, the
    AUTOINCREMENT counter has not gone back, and every row of the final table
    is either an item of the initial table (same id, type, priority, payload
    and creation time) or has an id above every id the initial table had ever
    handed out.  An id that was acknowledged and deleted thus never names
    another item. *)
Theorem ids_never_reused (self : QueueManager) (history : list event) (w : World) :
  wf_table (table w) ->
  let w' := run self history w in
  wf_table (table w') /\
  seq (table w) <= seq (table w') /\
  (forall r', In r' (rows (table w')) ->
     seq (table w) < id r' \/
     exists r, In r (rows (table w)) /\
               id r' = id r /\ item_type r' = item_type r /\
               priority r' = priority r /\ data r' = data r /\
               created_at r' = created_at r).
Proof.
  intros Hwf w'. subst w'.
  enough (H : wf_table (table (run self history w)) /\
              later (table w) (table (run self history w))).
  { destruct H as [H1 [H2 H3]]. split; [exact H1|]. split; [exact H2|exact H3]. }
  revert w Hwf. induction history as [|e rest IH]; intros w Hwf; simpl.
  - split; [exact Hwf|apply later_refl].
  - assert (Hstep : wf_table (table (run_event self e w)) /\
                    later (table w) (table (run_event self e w))).
    { destruct e as [c|now]; simpl.
      - split; [now apply wf_run_call|apply later_run_call].
      - split; [exact Hwf|apply later_refl]. }
    destruct Hstep as [Hwf' Hl]. destruct (IH _ Hwf') as [H1 H2].
    split; [exact H1|]. eapply later_trans; eassumption.
Qed.

Lemma ids_never_reused_witness :
  wf_table (table QueueExamples.full_world) /\
  wf_table (table (run QueueExamples.small_manager
                       [Call (Mark_synced [3]); Call (Enqueue_submission (Ok "{}"))]
                       QueueExamples.full_world)) /\
  map id (rows (table (run QueueExamples.small_manager
                           [Call (Mark_synced [3]); Call (Enqueue_submission (Ok "{}"))]
                           QueueExamples.full_world))) = [1; 2; 4].
Proof.
  split; [apply wf_full_table|].
  split; [|reflexivity].
  apply (ids_never_reused QueueExamples.small_manager
           [Call (Mark_synced [3]); Call (Enqueue_submission (Ok "{}"))]
           QueueExamples.full_world wf_full_table).
Defined.

(** ** Statistics *)

Lemma fold_tally (c : Z -> Z) (vs : list Z) :
  forall acc,
    fold_left tally (map (fun v => (v, c v)) vs) acc =
    mkStats (if existsb (Z.eqb 2) vs then c 2 else analytics_count acc)
            (if existsb (Z.eqb 1) vs then c 1 else submission_count acc)
            (total_count acc + sumZ (map c vs))
            (size_bytes acc).
Proof.
  induction vs as [|v vs IH]; intros acc;
    cbn [map fold_left existsb sumZ fold_right].
  - destruct acc; cbn. f_equal; lia.
  - rewrite IH. unfold tally. cbn [value]. fold (sumZ (map c vs)).
    rewrite (Z.eqb_sym 2 v), (Z.eqb_sym 1 v).
    destruct (v =? 2) eqn:E2; destruct (v =? 1) eqn:E1;
      try (apply Z.eqb_eq in E2; apply Z.eqb_eq in E1; lia);
      try (apply Z.eqb_eq in E2; subst v);
      try (apply Z.eqb_eq in E1; subst v);
      cbn [orb analytics_count submission_count total_count size_bytes];
      destruct (existsb (Z.eqb 2) vs), (existsb (Z.eqb 1) vs); f_equal; lia.
Qed.

Lemma sumZ_indicator (x : Z) (vs : list Z) :
  NoDup vs ->
  sumZ (map (fun v => if x =? v then 1 else 0) vs) = if existsb (Z.eqb x) vs then 1 else 0.
Proof.
  induction vs as [|v vs IH]; intros Hnd; simpl; [reflexivity|].
  inversion Hnd as [|? ? Hnot Hnd']; subst. rewrite (IH Hnd').
  destruct (x =? v) eqn:E; simpl; [|reflexivity].
  apply Z.eqb_eq in E; subst v.
  destruct (existsb (Z.eqb x) vs) eqn:Hex; [|reflexivity].
  exfalso. apply Hnot. apply existsb_exists in Hex.
  destruct Hex as [y [Hy Heq]]. apply Z.eqb_eq in Heq. now subst.
Qed.

Lemma sumZ_plus (f g : Z -> Z) (vs : list Z) :
  sumZ (map (fun v => f v + g v) vs) = sumZ (map f vs) + sumZ (map g vs).
Proof. induction vs as [|v vs IH]; simpl; lia. Qed.

Lemma sumZ_ext (f g : Z -> Z) (vs : list Z) :
  (forall v, f v = g v) -> sumZ (map f vs) = sumZ (map g vs).
Proof. intros H. induction vs as [|v vs IH]; simpl; [reflexivity|]. now rewrite H, IH. Qed.

(** Group counts add up to the number of rows. *)
Lemma group_counts_total (vs : list Z) (s : Z) :
  NoDup vs ->
  forall l, (forall r, In r l -> In (item_type r) vs) ->
  sumZ (map (fun v => count_type v (mkTable l s)) vs) = Z.of_nat (List.length l).
Proof.
  intros Hnd. induction l as [|r l IH]; intros Hall.
  - unfold count_type. simpl. clear. induction vs; simpl; [reflexivity|exact IHvs].
  - rewrite (sumZ_ext _ (fun v => (if item_type r =? v then 1 else 0) +
                                   count_type v (mkTable l s))).
    + rewrite sumZ_plus, IH, sumZ_indicator by (auto; intros; apply Hall; now right).
      assert (Hin : existsb (Z.eqb (item_type r)) vs = true).
      { apply existsb_exists. exists (item_type r). split; [|apply Z.eqb_refl].
        apply Hall. now left. }
      rewrite Hin. simpl List.length. lia.
    + intros v. unfold count_type, has_type. simpl.
      destruct (item_type r =? v); simpl List.length; lia.
Qed.

Lemma distinct_types_In (l : list Row) (v : Z) :
  In v (distinct_types l) <-> exists r, In r l /\ item_type r = v.
Proof.
  induction l as [|r l IH]; simpl.
  - split; [intros []|intros [r [[] _]]].
  - destruct (existsb (Z.eqb (item_type r)) (distinct_types l)) eqn:Hex.
    + rewrite IH. split.
      * intros [r' [Hr' Hv]]. exists r'. auto.
      * intros [r' [[Heq|Hr'] Hv]]; [|exists r'; auto].
        subst r'. apply IH. apply existsb_exists in Hex.
        destruct Hex as [y [Hy Heq]]. apply Z.eqb_eq in Heq. now subst.
    + simpl. rewrite IH. split.
      * intros [Heq|[r' [Hr' Hv]]]; [exists r; auto|exists r'; auto].
      * intros [r' [[Heq|Hr'] Hv]]; [left; now subst|right; exists r'; auto].
Qed.

Lemma distinct_types_NoDup (l : list Row) : NoDup (distinct_types l).
Proof.
  induction l as [|r l IH]; simpl; [constructor|].
  destruct (existsb (Z.eqb (item_type r)) (distinct_types l)) eqn:Hex; [exact IH|].
  constructor; [|exact IH]. intros Hin.
  assert (existsb (Z.eqb (item_type r)) (distinct_types l) = true); [|congruence].
  apply existsb_exists. exists (item_type r). split; [exact Hin|apply Z.eqb_refl].
Qed.

Lemma count_type_absent (v : Z) (t : Table) :
  (forall r, In r (rows t) -> item_type r <> v) -> count_type v t = 0.
Proof.
  unfold count_type. intros H.
  assert (Hnil : filter (has_type v) (rows t) = []).
  { induction (rows t) as [|r l IH]; simpl; [reflexivity|].
    unfold has_type at 1. destruct (item_type r =? v) eqn:E.
    - apply Z.eqb_eq in E. exfalso. apply (H r); [now left|exact E].
    - apply IH. intros r' Hr'. apply H. now right. }
  now rewrite Hnil.
Qed.

Lemma count_types_wf (l : list Row) (s : Z) :
  Forall wf_row l ->
  Z.of_nat (List.length l) =
  count_type 2 (mkTable l s) + count_type 1 (mkTable l s).
Proof.
  unfold count_type, has_type. simpl.
  induction 1 as [|r l [[H1|H2] _] _ IH]; simpl; [reflexivity| |].
  - rewrite H1. simpl (1 =? 2). simpl (1 =? 1). simpl List.length. lia.
  - rewrite H2. simpl (2 =? 2). simpl (2 =? 1). simpl List.length. lia.
Qed.

(** The statistics are the counts the limits are checked against.
    [get_queue_stats] never raises and never changes the table.  When the
    store answers and the file size can be read, the Analytics and
    submission counts are the very counts [enqueue_analytics] and
    [enqueue_submission] compare with their limits, the total is the number
    of rows, and on a table the module has written the total is their sum.
    When the store or the size read fails, every figure is 0. *)
Theorem get_queue_stats_counts (stat : result Z) (w : World) :
  table (snd (get_queue_stats stat w)) = table w /\
  exists s,
    fst (get_queue_stats stat w) = Ok s /\
    (hd false (faults w) = true \/ (exists e, stat = Raise e) -> s = no_stats) /\
    (forall st_size, hd false (faults w) = false -> stat = Ok st_size ->
       analytics_count s = count_type (value ANALYTICS_RECORD) (table w) /\
       submission_count s = count_type (value PORTAL_SUBMISSION) (table w) /\
       total_count s = Z.of_nat (List.length (rows (table w))) /\
       size_bytes s = st_size /\
       (Forall wf_row (rows (table w)) ->
        total_count s = analytics_count s + submission_count s)).
Proof.
  split; [apply get_queue_stats_table|].
  unfold get_queue_stats, try_except, transaction, ret.
  destruct (hd false (faults w)) eqn:Hf.
  { exists no_stats. split; [reflexivity|]. split; [reflexivity|discriminate]. }
  destruct stat as [n|e].
  2:{ exists no_stats. split; [reflexivity|]. split; [reflexivity|discriminate]. }
  eexists. split; [reflexivity|]. split.
  { intros [H|[e H]]; discriminate. }
  intros st_size _ Hst. inversion Hst; subst st_size. clear Hst.
  unfold group_by_type. rewrite fold_tally. cbn [analytics_count submission_count
    total_count size_bytes no_stats].
  set (vs := order_by Z.leb (distinct_types (rows (table w)))).
  assert (Hin : forall v, In v vs <-> exists r, In r (rows (table w)) /\ item_type r = v).
  { intros v. unfold vs. rewrite order_by_In. apply distinct_types_In. }
  assert (Hex : forall v, existsb (Z.eqb v) vs = false -> count_type v (table w) = 0).
  { intros v Hv. apply count_type_absent. intros r Hr Heq.
    assert (In v vs) by (apply Hin; exists r; auto).
    assert (existsb (Z.eqb v) vs = true); [|congruence].
    apply existsb_exists. exists v. split; [assumption|apply Z.eqb_refl]. }
  assert (Htot : sumZ (map (fun v => count_type v (table w)) vs) =
                 Z.of_nat (List.length (rows (table w)))).
  { destruct (table w) as [l s] eqn:Ht. simpl in *. apply group_counts_total.
    - unfold vs. eapply Permutation_NoDup; [apply order_by_perm|].
      apply distinct_types_NoDup.
    - intros r Hr. apply Hin. exists r. auto. }
  assert (Ha : (if existsb (Z.eqb 2) vs then count_type 2 (table w) else 0) =
               count_type 2 (table w)).
  { destruct (existsb (Z.eqb 2) vs) eqn:E; [reflexivity|]. now rewrite Hex. }
  assert (Hs : (if existsb (Z.eqb 1) vs then count_type 1 (table w) else 0) =
               count_type 1 (table w)).
  { destruct (existsb (Z.eqb 1) vs) eqn:E; [reflexivity|]. now rewrite Hex. }
  simpl value. rewrite Ha, Hs, Htot.
  repeat (split; [reflexivity || lia|]).
  intros Hwf. destruct (table w) as [l s]. simpl in *. now apply count_types_wf.
Qed.

End QueueHistoryFacts.
(* ================================================================== *)
(** * The limits of the queue over a history of calls *)
(* ================================================================== *)

Module QueueLimitsFacts.

Import Datetime TelemetryQueue QueueStats QueueHistory QueueExamples.
Import TelemetryQueueFacts QueueHistoryFacts.

(** ** What each statement does to the counts *)

Lemma count_insert_item (v ty : Z) (d ts : string) (t : Table) :
  count_type v (insert_item ty ty d ts t) =
  count_type v t + (if ty =? v then 1 else 0).
Proof.
  unfold count_type, insert_item. cbn [rows].
  rewrite filter_app, length_app. cbn [filter]. unfold has_type at 2.
  cbn [item_type]. destruct (ty =? v); cbn [List.length]; lia.
Qed.

Lemma count_delete_where (v : Z) (p : Row -> bool) (t : Table) :
  count_type v (snd (delete_where p t)) <= count_type v t.
Proof.
  unfold count_type, delete_where. cbn [snd rows].
  induction (rows t) as [|r l IH]; cbn [filter]; [lia|].
  destruct (p r); cbn [negb]; [|cbn [filter]];
    destruct (has_type v r); cbn [List.length]; lia.
Qed.

Lemma count_delete_row (v : Z) (o : Row) (l : list Row) :
  In o l -> has_type v o = true ->
  (List.length (filter (has_type v)
                  (filter (fun r => negb (id r =? id o)%Z) l))
   < List.length (filter (has_type v) l))%nat.
Proof.
  intros Hin Hty. induction l as [|r l IH]; [contradiction|].
  assert (Hle : (List.length (filter (has_type v)
                                (filter (fun r => negb (id r =? id o)%Z) l))
                 <= List.length (filter (has_type v) l))%nat).
  { clear. induction l as [|r l IH]; cbn [filter]; [lia|].
    destruct (negb (id r =? id o)); [cbn [filter]|];
      destruct (has_type v r); cbn [List.length]; lia. }
  cbn [filter]. destruct Hin as [->|Hin].
  - rewrite Z.eqb_refl, Hty. cbn [negb List.length]. lia.
  - specialize (IH Hin).
    destruct (negb (id r =? id o)); [cbn [filter]|];
      destruct (has_type v r); cbn [List.length]; lia.
Qed.

Lemma count_delete_oldest_of_type (v v' : Z) (t : Table) :
  count_type v' (delete_oldest_of_type v t) <= count_type v' t /\
  (0 < count_type v t ->
   count_type v (delete_oldest_of_type v t) < count_type v t).
Proof.
  unfold delete_oldest_of_type. split.
  - destruct (oldest_of_type v t); [apply count_delete_where|lia].
  - intros Hpos. destruct (oldest_of_type_exists v t Hpos) as [o Ho].
    rewrite Ho. destruct (oldest_of_type_spec v t Ho) as (Hin & Hty & _).
    unfold count_type, delete_where. cbn [snd rows].
    apply inj_lt, count_delete_row; [exact Hin|].
    unfold has_type. now apply Z.eqb_eq.
Qed.

Lemma count_bump_retry (v : Z) (ts : string) (ids : list Z) (t : Table) :
  count_type v (bump_retry ts ids t) = count_type v t.
Proof.
  unfold count_type, bump_retry. cbn [rows]. f_equal.
  induction (rows t) as [|r l IH]; [reflexivity|].
  cbn [map filter].
  assert (Hty : has_type v (if id_in ids r
                            then mkRow (id r) (item_type r) (priority r) (data r)
                                       (created_at r) (retry_count r + 1) (Some ts)
                            else r) = has_type v r)
    by (now destruct (id_in ids r)).
  rewrite Hty. destruct (has_type v r); cbn [List.length]; now rewrite IH.
Qed.

Lemma count_inserting (v ty : Z) (dumped : result string) (now : datetime)
                       (w : World) :
  count_type v (table (snd (inserting ty dumped now w))) <=
  count_type v (table w) + (if ty =? v then 1 else 0).
Proof.
  destruct (inserting_table ty dumped now w)
    as [(e & _ & ->)|(text & _ & _ & _ & ->)].
  - destruct (ty =? v); lia.
  - rewrite count_insert_item. lia.
Qed.

(** ** A store that answers keeps answering *)

Lemma fault_free_inserting (ty : Z) (dumped : result string) (now : datetime)
                           (w : World) :
  fault_free w -> fault_free (snd (inserting ty dumped now w)).
Proof.
  intros H. unfold fault_free.
  rewrite (proj1 (inserting_faults ty dumped now w)).
  exact (fault_free_after (table w) H).
Qed.

Ltac answers H :=
  repeat match goal with
         | |- context [hd false (faults ?x)] =>
             rewrite (@fault_free_hd x)
               by (repeat apply fault_free_after; exact H)
         end.

Lemma within_limits_le (self : QueueManager) (t t' : Table) :
  (forall v, count_type v t' <= count_type v t) ->
  within_limits self t -> within_limits self t'.
Proof.
  intros Hle [Ha Hs]. split.
  - specialize (Hle (value ANALYTICS_RECORD)). lia.
  - specialize (Hle (value PORTAL_SUBMISSION)). lia.
Qed.

Lemma limits_run_call (self : QueueManager) (c : call) (w : World) :
  fault_free w -> 0 < MAX_ANALYTICS_RECORDS self ->
  within_limits self (table w) ->
  fault_free (run_call self c w) /\
  within_limits self (table (run_call self c w)).
Proof.
  intros Hff Hmax Hlim.
  destruct c as [record|submission|n|ids|ids|stat|days]; cbn [run_call].
  - rewrite enqueue_analytics_eq. cbv zeta.
    destruct Hlim as [Ha Hs].
    rewrite (fault_free_hd Hff).
    destruct (count_type (value ANALYTICS_RECORD) (table w)
              >=? MAX_ANALYTICS_RECORDS self) eqn:Hfull; answers Hff;
      (split; [apply fault_free_inserting;
               repeat apply fault_free_after; exact Hff|]);
      unfold within_limits;
      match goal with
      | |- context [inserting ?ty ?d ?now ?w0] =>
          pose proof (count_inserting (value ANALYTICS_RECORD) ty d now w0) as Hca;
          pose proof (count_inserting (value PORTAL_SUBMISSION) ty d now w0) as Hcs
      end;
      cbn [table after value Z.eqb Pos.eqb] in Hca, Hcs.
    + destruct (count_delete_oldest_of_type
                  (value ANALYTICS_RECORD) (value PORTAL_SUBMISSION) (table w))
        as [Hle _].
      destruct (count_delete_oldest_of_type
                  (value ANALYTICS_RECORD) (value ANALYTICS_RECORD) (table w))
        as [_ Hlt].
      cbn [value] in *. lia.
    + cbn [value] in *. lia.
  - rewrite enqueue_submission_eq. cbv zeta.
    destruct Hlim as [Ha Hs].
    rewrite (fault_free_hd Hff).
    destruct (count_type (value PORTAL_SUBMISSION) (table w)
              >=? MAX_SUBMISSIONS self) eqn:Hfull; answers Hff.
    + cbn [snd]. split; [now apply fault_free_after|]. now split.
    + split; [apply fault_free_inserting;
              repeat apply fault_free_after; exact Hff|].
      unfold within_limits.
      pose proof (count_inserting (value ANALYTICS_RECORD)
                    (value PORTAL_SUBMISSION) submission (utcnow w)
                    (after w (table w))) as Hca.
      pose proof (count_inserting (value PORTAL_SUBMISSION)
                    (value PORTAL_SUBMISSION) submission (utcnow w)
                    (after w (table w))) as Hcs.
      cbn [table after value Z.eqb Pos.eqb] in Hca, Hcs.
      cbn [value] in *. lia.
  - rewrite dequeue_batch_eq. cbn [snd].
    split; [now apply fault_free_after|exact Hlim].
  - destruct ids as [|i ids]; [now split|].
    rewrite mark_synced_eq by discriminate. cbn [snd].
    split; [now apply fault_free_after|].
    rewrite (fault_free_hd Hff). cbn [table after].
    destruct (forallb fits_int64 (i :: ids)); [|exact Hlim].
    eapply within_limits_le; [|exact Hlim].
    intro v. apply count_delete_where.
  - destruct ids as [|i ids]; [now split|].
    rewrite mark_failed_eq by discriminate. cbn [snd].
    split; [now apply fault_free_after|].
    rewrite (fault_free_hd Hff). cbn [table after].
    destruct (forallb fits_int64 (i :: ids)); [|exact Hlim].
    eapply within_limits_le; [|exact Hlim].
    intro v. rewrite count_bump_retry. lia.
  - split; [|now rewrite get_queue_stats_table].
    unfold get_queue_stats, try_except, transaction, ret.
    rewrite (fault_free_hd Hff).
    destruct stat; cbn [snd]; now apply fault_free_after.
  - rewrite cleanup_old_records_eq.
    destruct (cutoff_str (utcnow w) days); [|now split].
    rewrite (fault_free_hd Hff). cbn [snd].
    split; [now apply fault_free_after|]. cbn [table after].
    eapply within_limits_le; [|exact Hlim].
    intro v. apply count_delete_where.
Qed.

(** The limits hold as long as the store answers.  From a queue within its
    limits, with room for at least one Analytics record, no sequence of
    calls and clock movements on a store that answers takes the number of
    Analytics records above [MAX_ANALYTICS_RECORDS] or the number of
    submissions above [MAX_SUBMISSIONS]. *)
Theorem limits_hold_while_the_store_answers
        (self : QueueManager) (history : list event) (w : World) :
  fault_free w -> 0 < MAX_ANALYTICS_RECORDS self ->
  within_limits self (table w) ->
  within_limits self (table (run self history w)).
Proof.
  intros Hff Hmax. revert w Hff.
  induction history as [|e rest IH]; intros w Hff Hlim; cbn [run];
    [exact Hlim|].
  destruct e as [c|now]; cbn [run_event].
  - destruct (limits_run_call c Hff Hmax Hlim) as [Hff' Hlim'].
    now apply IH.
  - apply IH; [exact Hff|exact Hlim].
Qed.

(** One count that cannot be read is enough to go over a limit: the count
    is taken for 0 and the submission is stored in a queue that is full. *)
Example limits_broken_by_one_failed_count :
  within_limits small_manager (table busy_world) /\
  fst (enqueue_submission small_manager (Ok "{}") busy_world) = Ok tt /\
  count_type (value PORTAL_SUBMISSION)
             (table (snd (enqueue_submission small_manager (Ok "{}") busy_world))) = 2 /\
  MAX_SUBMISSIONS small_manager = 1.
Proof. vm_compute. intuition discriminate. Qed.

Lemma limits_hold_while_the_store_answers_witness :
  within_limits small_manager
    (table (run small_manager
              [Call (Enqueue_analytics (Ok "{}")); Tick afternoon_jan_20;
               Call (Enqueue_submission (Ok "{}")); Call (Mark_failed [2])]
              full_world)).
Proof.
  apply limits_hold_while_the_store_answers.
  - constructor.
  - reflexivity.
  - split; vm_compute; discriminate.
Defined.

End QueueLimitsFacts.
(* ================================================================== *)
(** * Batch sync: what leaves the queue, and when *)
(* ================================================================== *)

Module BatchSyncFacts.

Import Json Text Config Datetime ManagementAgent BatchSync QueueHistory.
Import TelemetryQueueFacts QueueHistoryFacts.

Module Q := TelemetryQueue.

(** ** Rows and their ids *)

Lemma row_of_id (l : list Q.Row) (a b : Q.Row) :
  NoDup (map Q.id l) -> In a l -> In b l -> Q.id a = Q.id b -> a = b.
Proof.
  induction l as [|r l IH]; simpl; intros Hnd Ha Hb Hid; [contradiction|].
  inversion Hnd as [|? ? Hnot Hnd']; subst.
  destruct Ha as [Ha|Ha], Hb as [Hb|Hb]; subst.
  - reflexivity.
  - exfalso. apply Hnot. rewrite Hid. now apply in_map.
  - exfalso. apply Hnot. rewrite <- Hid. now apply in_map.
  - now apply IH.
Qed.

Lemma in_ids_of (p : Q.Row -> bool) (l : list Q.Row) (r : Q.Row) :
  Q.id_in (map Q.id (filter p l)) r = true <->
  exists r0, In r0 l /\ p r0 = true /\ Q.id r0 = Q.id r.
Proof.
  rewrite id_in_spec, in_map_iff. split.
  - intros [r0 [Hid Hin]]. apply filter_In in Hin. exists r0. tauto.
  - intros [r0 [Hin [Hp Hid]]]. exists r0. split; [exact Hid|].
    apply filter_In. tauto.
Qed.

Lemma selected_incl (t : Q.Table) : incl (selected t) (Q.rows t).
Proof.
  intros r Hr. unfold selected in Hr. apply sql_limit_incl in Hr.
  apply order_by_In in Hr. exact Hr.
Qed.

(** ** What [dequeue_batch] hands to the sync *)

Lemma dequeue_batch_100 (q : Q.World) :
  Q.dequeue_batch 100 q = (Ok (batch_of q), Q.after q (Q.table q)).
Proof.
  unfold batch_of. rewrite dequeue_batch_eq. cbn [fst].
  destruct (hd false (Q.faults q)); [reflexivity|].
  destruct (Q.fits_int64 100); [|reflexivity].
  destruct (Q.row_items _); reflexivity.
Qed.

Lemma batch_of_selected (q : Q.World) :
  hd false (Q.faults q) = false -> Forall Q.wf_row (Q.rows (Q.table q)) ->
  Q.row_items (selected (Q.table q)) = Ok (batch_of q).
Proof.
  intros Hf Hwf. unfold batch_of. rewrite dequeue_batch_eq. cbn [fst].
  rewrite Hf. change (Q.fits_int64 100) with true. cbv iota.
  fold (selected (Q.table q)).
  destruct (row_items_wf (l := selected (Q.table q))) as [items [Hitems _]].
  { apply Forall_forall. intros r Hr. apply selected_incl in Hr.
    revert r Hr. now apply Forall_forall. }
  now rewrite Hitems.
Qed.

Lemma items_of_type_ids (ty : Q.QueueItemType) (sel : list Q.Row) :
  forall items, Q.row_items sel = Ok items ->
  map fst (items_of_type ty items) =
  map Q.id (filter (Q.has_type (Q.value ty)) sel).
Proof.
  induction sel as [|r sel IH]; simpl; intros items H.
  - inversion H; subst. reflexivity.
  - destruct (Q.row_item r) as [[[i ty'] d]|] eqn:Hr; [|discriminate].
    destruct (Q.row_items sel) as [rest|] eqn:Hrest; [|discriminate].
    inversion H; subst. clear H.
    destruct (row_item_inv _ Hr) as [Hi [Hty Hd]].
    unfold items_of_type in *. simpl.
    unfold QueueItemType_eqb at 1. unfold Q.has_type at 1. rewrite Hty.
    destruct (Q.value ty' =? Q.value ty); simpl; rewrite (IH rest eq_refl);
      [now rewrite Hi|reflexivity].
Qed.

Section Sync.

Variable hmac : string -> string -> string.
Variable json_loads : string -> json.

(** ** One batch request *)

Lemma send_batch_eq (path key : string) (items : list json) (w : World) :
  send_batch hmac path key items w =
  match device_token (config w) with
  | Some token =>
      if String.eqb token "" then (Ok false, w)
      else
        let payload := [("device_token", JStr token); (key, JList items);
                        ("timestamp",
                         JStr (isoformat (utcnow (env w)) ++ "Z")%string)] in
        (Ok (answered_200 (hd None (posts (env w)))),
         after_post (backend_url (config w) ++ path)%string
                    (dict_merge payload
                       [("signature",
                         JStr (hmac (utf8 token)
                                    (utf8 (dumps_canonical (JDict payload)))))])
                    w)
  | None => (Ok false, w)
  end.
Proof.
  unfold send_batch, _sign_request, session_post, next_post, _get_timestamp,
    set_env, try_except, bind, modify, gets, ret, raise.
  cbn [fst snd config].
  destruct (device_token (config w)) as [token|]; [|reflexivity].
  destruct (String.eqb token ""); [reflexivity|].
  cbn [env posts].
  destruct (hd None (posts (env w))) as [response|]; reflexivity.
Qed.

(** A batch request returns, leaves configuration and files alone, and
    consumes at most one answer. *)
Lemma send_batch_returns (path key : string) (items : list json) (w : World) :
  exists sent w',
    send_batch hmac path key items w = (Ok sent, w') /\
    config w' = config w /\ disk w' = disk w /\
    (posts (env w') = posts (env w) \/ posts (env w') = tl (posts (env w))) /\
    (sent = true -> answered_200 (hd None (posts (env w))) = true).
Proof.
  rewrite send_batch_eq.
  destruct (device_token (config w)) as [token|].
  - destruct (String.eqb token "").
    + exists false, w. intuition discriminate.
    + eexists _, _. split; [reflexivity|]. cbn. intuition.
  - exists false, w. intuition discriminate.
Qed.

(** ** One block of the sync *)

Lemma mark_synced_returns (ids : list Z) (q : Q.World) :
  fst (Q.mark_synced ids q) = Ok tt.
Proof.
  destruct ids; [reflexivity|]. now rewrite mark_synced_eq by discriminate.
Qed.

Lemma mark_failed_returns (ids : list Z) (q : Q.World) :
  fst (Q.mark_failed ids q) = Ok tt.
Proof.
  destruct ids; [reflexivity|]. now rewrite mark_failed_eq by discriminate.
Qed.

Lemma sync_items_eq (path key : string) (items : list (Z * string)) (w : World)
      (q : Q.World) :
  sync_items json_loads (send_batch hmac path key) items (w, q) =
  match items with
  | [] => (Ok tt, (w, q))
  | _ =>
      match send_batch hmac path key (map json_loads (map snd items)) w with
      | (Ok sent, w') =>
          (Ok tt,
           (w', snd ((if sent then Q.mark_synced (map fst items)
                      else Q.mark_failed (map fst items)) q)))
      | (Raise e, w') => (Raise e, (w', q))
      end
  end.
Proof.
  destruct items as [|item items]; [reflexivity|].
  unfold sync_items, on_agent, on_queue, bind. cbn [fst snd].
  destruct (send_batch _ _ _ _ w) as [[sent|e] w']; [|reflexivity].
  destruct sent; cbn [fst snd].
  - pose proof (mark_synced_returns (map fst (item :: items)) q) as H.
    destruct (Q.mark_synced _ q) as [r q']. simpl in H. now subst r.
  - pose proof (mark_failed_returns (map fst (item :: items)) q) as H.
    destruct (Q.mark_failed _ q) as [r q']. simpl in H. now subst r.
Qed.

(** The sync as a whole: it returns whether the device is registered, and
    its effect is that of the two blocks in turn. *)
Lemma sync_queued_analytics_eq (w : World) (q : Q.World) :
  sync_queued_analytics hmac json_loads (w, q) =
  if is_registered (config w) then
    match batch_of q with
    | [] => (Ok true, (w, Q.after q (Q.table q)))
    | _ =>
        (Ok true,
         snd (sync_items json_loads (_send_submissions_batch hmac)
                (items_of_type Q.PORTAL_SUBMISSION (batch_of q))
                (snd (sync_items json_loads (_send_analytics_batch hmac)
                        (items_of_type Q.ANALYTICS_RECORD (batch_of q))
                        (w, Q.after q (Q.table q))))))
    end
  else (Ok false, (w, q)).
Proof.
  unfold sync_queued_analytics.
  unfold bind at 1. unfold on_agent at 1. unfold gets at 1. cbn [fst snd].
  destruct (is_registered (config w)); [|reflexivity]. cbn [negb].
  unfold try_except, bind at 1. unfold on_queue at 1. cbn [fst snd].
  rewrite dequeue_batch_100.
  destruct (batch_of q) as [|item rest]; [reflexivity|].
  set (b := item :: rest).
  unfold bind, _send_analytics_batch, _send_submissions_batch.
  rewrite sync_items_eq.
  destruct (items_of_type Q.ANALYTICS_RECORD b) as [|ia la].
  - cbn [ret fst snd]. rewrite sync_items_eq.
    destruct (items_of_type Q.PORTAL_SUBMISSION b) as [|i1 l1]; [reflexivity|].
    destruct (send_batch_returns "/api/v1/devices/submissions" "submissions"
                (map json_loads (map snd (i1 :: l1))) w)
      as [sent [w' [Heq _]]].
    rewrite Heq. reflexivity.
  - destruct (send_batch_returns "/api/v1/devices/analytics" "records"
                (map json_loads (map snd (ia :: la))) w)
      as [sent [w' [Heq _]]].
    rewrite Heq. cbn [fst snd]. rewrite sync_items_eq.
    destruct (items_of_type Q.PORTAL_SUBMISSION b) as [|i1 l1]; [reflexivity|].
    destruct (send_batch_returns "/api/v1/devices/submissions" "submissions"
                (map json_loads (map snd (i1 :: l1))) w')
      as [sent' [w'' [Heq' _]]].
    rewrite Heq'. reflexivity.
Qed.


(** ** What a block does to configuration, files and table *)

Lemma kept_refl (t : Q.Table) : kept t t.
Proof.
  split; [reflexivity|]. intros r Hr. exists r. split; [exact Hr|apply same_item_refl].
Qed.

Lemma kept_trans (a b c : Q.Table) : kept a b -> kept b c -> kept a c.
Proof.
  intros [Hab Hab'] [Hbc Hbc']. split; [congruence|].
  intros r Hr. destruct (Hbc' r Hr) as [rb [Hrb Hsame]].
  destruct (Hab' rb Hrb) as [ra [Hra Hsame']].
  exists ra. split; [exact Hra|]. eapply same_item_trans; eassumption.
Qed.

Lemma kept_mark_synced (ids : list Z) (q : Q.World) :
  kept (Q.table q) (Q.table (snd (Q.mark_synced ids q))).
Proof.
  destruct ids as [|i ids]; [apply kept_refl|].
  rewrite mark_synced_eq by discriminate. cbn [snd Q.after Q.table].
  destruct (hd false (Q.faults q)); [apply kept_refl|].
  destruct (forallb Q.fits_int64 (i :: ids)); [|apply kept_refl].
  split; [reflexivity|]. cbn [snd Q.delete_where Q.rows].
  intros r Hr. apply filter_In in Hr. exists r.
  split; [tauto|apply same_item_refl].
Qed.

Lemma kept_mark_failed (ids : list Z) (q : Q.World) :
  kept (Q.table q) (Q.table (snd (Q.mark_failed ids q))).
Proof.
  destruct ids as [|i ids]; [apply kept_refl|].
  rewrite mark_failed_eq by discriminate. cbn [snd Q.after Q.table].
  destruct (hd false (Q.faults q)); [apply kept_refl|].
  destruct (forallb Q.fits_int64 (i :: ids)); [|apply kept_refl].
  split; [reflexivity|]. rewrite bump_retry_rows.
  intros r' Hr'. apply in_map_iff in Hr'. destruct Hr' as [r [Heq Hr]]. subst r'.
  exists r. split; [exact Hr|apply bumped_same_item].
Qed.

Lemma sync_items_contained (path key : string) (items : list (Z * string))
      (w : World) (q : Q.World) :
  let s' := snd (sync_items json_loads (send_batch hmac path key) items (w, q)) in
  config (fst s') = config w /\ disk (fst s') = disk w /\
  kept (Q.table q) (Q.table (snd s')).
Proof.
  cbv zeta. rewrite sync_items_eq.
  destruct items as [|item items].
  { cbn [fst snd]. repeat split; try reflexivity. intros r Hr. exists r.
    split; [exact Hr|apply same_item_refl]. }
  destruct (send_batch_returns path key
              (map json_loads (map snd (item :: items))) w)
    as [sent [w' [Heq [Hc [Hd _]]]]].
  rewrite Heq. cbn [fst snd]. split; [exact Hc|]. split; [exact Hd|].
  destruct sent; [apply kept_mark_synced|apply kept_mark_failed].
Qed.

(** The sync never raises, tells whether the device is registered, touches
    neither the configuration nor the files, and adds or alters no item of
    the queue; a device that is not registered does nothing at all. *)
Theorem sync_queued_analytics_contained (w : World) (q : Q.World) :
  let r := sync_queued_analytics hmac json_loads (w, q) in
  fst r = Ok (is_registered (config w)) /\
  config (fst (snd r)) = config w /\
  disk (fst (snd r)) = disk w /\
  kept (Q.table q) (Q.table (snd (snd r))) /\
  (is_registered (config w) = false -> snd r = (w, q)).
Proof.
  cbv zeta. rewrite sync_queued_analytics_eq.
  destruct (is_registered (config w)).
  2:{ cbn [fst snd]. repeat split; try reflexivity. apply kept_refl. }
  destruct (batch_of q) as [|item rest].
  { cbn [fst snd Q.after Q.table]. repeat split; try reflexivity; try discriminate.
    apply kept_refl. }
  set (b := item :: rest).
  unfold _send_analytics_batch, _send_submissions_batch. cbn [fst snd].
  destruct (sync_items_contained "/api/v1/devices/analytics" "records"
              (items_of_type Q.ANALYTICS_RECORD b) w (Q.after q (Q.table q)))
    as [Hc1 [Hd1 Hk1]].
  destruct (sync_items json_loads (send_batch hmac "/api/v1/devices/analytics" "records")
              (items_of_type Q.ANALYTICS_RECORD b) (w, Q.after q (Q.table q)))
    as [r1 [w1 q1]].
  cbn [fst snd] in *.
  destruct (sync_items_contained "/api/v1/devices/submissions" "submissions"
              (items_of_type Q.PORTAL_SUBMISSION b) w1 q1)
    as [Hc2 [Hd2 Hk2]].
  split; [reflexivity|]. split; [exact (eq_trans Hc2 Hc1)|].
  split; [exact (eq_trans Hd2 Hd1)|]. split; [|discriminate].
  exact (kept_trans Hk1 Hk2).
Qed.


(** ** A backend that acknowledges nothing *)

Lemma mark_failed_rows (ids : list Z) (q : Q.World) :
  exists f,
    Q.rows (Q.table (snd (Q.mark_failed ids q))) = map f (Q.rows (Q.table q)) /\
    forall r, same_item r (f r) /\ Q.retry_count r <= Q.retry_count (f r).
Proof.
  assert (Hid : exists f : Q.Row -> Q.Row,
             Q.rows (Q.table q) = map f (Q.rows (Q.table q)) /\
             forall r, same_item r (f r) /\ Q.retry_count r <= Q.retry_count (f r)).
  { exists (fun r => r). split; [now rewrite map_id|].
    intros r. split; [apply same_item_refl|lia]. }
  destruct ids as [|i ids]; [exact Hid|].
  rewrite mark_failed_eq by discriminate. cbn [snd Q.after Q.table].
  destruct (hd false (Q.faults q)); [exact Hid|].
  destruct (forallb Q.fits_int64 (i :: ids)); [|exact Hid].
  exists (bumped (isoformat (Q.utcnow q) ++ "Z")%string (i :: ids)).
  split; [apply bump_retry_rows|].
  intros r. split; [apply bumped_same_item|].
  unfold bumped. destruct (Q.id_in (i :: ids) r); cbn [Q.retry_count]; lia.
Qed.

Lemma not_acknowledged_hd (answers : list (option Response)) :
  Forall (fun answer => answered_200 answer = false) answers ->
  answered_200 (hd None answers) = false.
Proof. intros H. destruct H; [reflexivity|assumption]. Qed.

Lemma not_acknowledged_tl (answers : list (option Response)) :
  Forall (fun answer => answered_200 answer = false) answers ->
  Forall (fun answer => answered_200 answer = false) (tl answers).
Proof. intros H. destruct H; [constructor|assumption]. Qed.

Lemma retried_rows_trans (l1 l2 l3 : list Q.Row) :
  Forall2 (fun r r' => same_item r r' /\ Q.retry_count r <= Q.retry_count r') l1 l2 ->
  Forall2 (fun r r' => same_item r r' /\ Q.retry_count r <= Q.retry_count r') l2 l3 ->
  Forall2 (fun r r' => same_item r r' /\ Q.retry_count r <= Q.retry_count r') l1 l3.
Proof.
  intros H. revert l3. induction H as [|a b l1 l2 [Hs Hr] _ IH]; intros l3 H23.
  - inversion H23. constructor.
  - inversion H23 as [|? c ? l3' [Hs' Hr'] H23']; subst. constructor.
    + split; [eapply same_item_trans; eassumption|lia].
    + now apply IH.
Qed.

Lemma retried_rows_map (f : Q.Row -> Q.Row) (l : list Q.Row) :
  (forall r, same_item r (f r) /\ Q.retry_count r <= Q.retry_count (f r)) ->
  Forall2 (fun r r' => same_item r r' /\ Q.retry_count r <= Q.retry_count r')
          l (map f l).
Proof. intros H. induction l; simpl; constructor; auto. Qed.

Lemma sync_items_offline (path key : string) (items : list (Z * string))
      (w : World) (q : Q.World) :
  Forall (fun answer => answered_200 answer = false) (posts (env w)) ->
  let s' := snd (sync_items json_loads (send_batch hmac path key) items (w, q)) in
  Forall (fun answer => answered_200 answer = false) (posts (env (fst s'))) /\
  Forall2 (fun r r' => same_item r r' /\ Q.retry_count r <= Q.retry_count r')
          (Q.rows (Q.table q)) (Q.rows (Q.table (snd s'))).
Proof.
  intros Hoff. cbv zeta. rewrite sync_items_eq.
  destruct items as [|item items].
  { cbn [fst snd]. split; [exact Hoff|].
    rewrite <- (map_id (Q.rows (Q.table q))) at 2. apply retried_rows_map.
    intros r. split; [apply same_item_refl|lia]. }
  destruct (send_batch_returns path key
              (map json_loads (map snd (item :: items))) w)
    as [sent [w' [Heq [_ [_ [Hposts Hsent]]]]]].
  rewrite Heq. cbn [fst snd]. split.
  - destruct Hposts as [H|H]; rewrite H;
      [exact Hoff|now apply not_acknowledged_tl].
  - destruct sent.
    + rewrite not_acknowledged_hd in Hsent by assumption.
      discriminate (Hsent eq_refl).
    + destruct (mark_failed_rows (map fst (item :: items)) q) as [f [Hrows Hf]].
      rewrite Hrows. now apply retried_rows_map.
Qed.

(** Offline, nothing is lost.  When no request is answered with status 200
    (the backend is unreachable or refuses), a sync leaves every row in
    place: the same ids, types, priorities, payloads and creation times in
    the same order, the retry counts never lower, whatever the store does. *)
Theorem sync_offline_loses_nothing (w : World) (q : Q.World) :
  Forall (fun answer => answered_200 answer = false) (posts (env w)) ->
  let q' := snd (snd (sync_queued_analytics hmac json_loads (w, q))) in
  Forall2 (fun r r' => same_item r r' /\ Q.retry_count r <= Q.retry_count r')
          (Q.rows (Q.table q)) (Q.rows (Q.table q')).
Proof.
  intros Hoff. cbv zeta. rewrite sync_queued_analytics_eq.
  assert (Hrefl : Forall2 (fun r r' => same_item r r' /\
                                        Q.retry_count r <= Q.retry_count r')
                          (Q.rows (Q.table q)) (Q.rows (Q.table q))).
  { rewrite <- (map_id (Q.rows (Q.table q))) at 2. apply retried_rows_map.
    intros r. split; [apply same_item_refl|lia]. }
  destruct (is_registered (config w)); [|exact Hrefl].
  destruct (batch_of q) as [|item rest]; [exact Hrefl|].
  set (b := item :: rest).
  unfold _send_analytics_batch, _send_submissions_batch. cbn [fst snd].
  destruct (sync_items_offline "/api/v1/devices/analytics" "records"
              (items_of_type Q.ANALYTICS_RECORD b) w (Q.after q (Q.table q)) Hoff)
    as [Hoff1 H1].
  destruct (sync_items json_loads (send_batch hmac "/api/v1/devices/analytics" "records")
              (items_of_type Q.ANALYTICS_RECORD b) (w, Q.after q (Q.table q)))
    as [r1 [w1 q1]].
  cbn [fst snd] in *.
  pose proof (sync_items_offline "/api/v1/devices/submissions" "submissions"
                (items_of_type Q.PORTAL_SUBMISSION b) w1 q1 Hoff1) as [_ H2].
  exact (retried_rows_trans H1 H2).
Qed.

(** ** A store that answers: the fate of each partition *)

Lemma settle_rows_In (ts : string) (sent : bool) (ids : list Z)
      (l : list Q.Row) (r' : Q.Row) :
  In r' (settle_rows ts sent ids l) <->
  exists r, In r l /\ settled ts sent ids r = Some r'.
Proof.
  unfold settle_rows. rewrite in_flat_map. split.
  - intros [r [Hr Hin]]. exists r. split; [exact Hr|].
    destruct (settled ts sent ids r); [|destruct Hin].
    destruct Hin as [Heq|[]]. now subst.
  - intros [r [Hr Hs]]. exists r. split; [exact Hr|]. rewrite Hs. now left.
Qed.

Lemma settle_rows_none (ts : string) (sent : bool) (l : list Q.Row) :
  settle_rows ts sent [] l = l.
Proof. induction l as [|r l IH]; simpl; [reflexivity|]. now f_equal. Qed.

Lemma settle_rows_delete (ts : string) (ids : list Z) (t : Q.Table) :
  Q.rows (snd (Q.delete_where (Q.id_in ids) t)) = settle_rows ts true ids (Q.rows t).
Proof.
  cbn [snd Q.delete_where Q.rows]. induction (Q.rows t) as [|r l IH];
    [reflexivity|].
  cbn [filter settle_rows flat_map]. unfold settled at 1.
  destruct (Q.id_in ids r); cbn [negb app]; [exact IH|].
  f_equal. exact IH.
Qed.

Lemma settle_rows_bump (ts : string) (ids : list Z) (t : Q.Table) :
  Q.rows (Q.bump_retry ts ids t) = settle_rows ts false ids (Q.rows t).
Proof.
  rewrite bump_retry_rows. induction (Q.rows t) as [|r l IH]; [reflexivity|].
  cbn [map settle_rows flat_map]. unfold settled at 1, bumped at 1.
  destruct (Q.id_in ids r) eqn:E; cbn [app]; f_equal; try exact IH.
  unfold bumped. now rewrite E.
Qed.

Lemma settled_same_item (ts : string) (sent : bool) (ids : list Z) (r r' : Q.Row) :
  settled ts sent ids r = Some r' -> same_item r r'.
Proof.
  unfold settled. destruct (Q.id_in ids r).
  - destruct sent; [discriminate|]. intros H; inversion H. apply bumped_same_item.
  - intros H; inversion H. apply same_item_refl.
Qed.

Lemma id_in_same_id (ids : list Z) (a b : Q.Row) :
  Q.id a = Q.id b -> Q.id_in ids a = Q.id_in ids b.
Proof. unfold Q.id_in. now intros ->. Qed.

Lemma sync_items_settles (path key : string) (items : list (Z * string))
      (w : World) (q : Q.World) (token : string) :
  device_token (config w) = Some token -> String.eqb token "" = false ->
  Q.fault_free q -> forallb Q.fits_int64 (map fst items) = true ->
  let s' := snd (sync_items json_loads (send_batch hmac path key) items (w, q)) in
  Q.rows (Q.table (snd s')) =
    settle_rows (isoformat (Q.utcnow q) ++ "Z")%string
                (answered_200 (hd None (posts (env w)))) (map fst items)
                (Q.rows (Q.table q)) /\
  Q.fault_free (snd s') /\
  Q.utcnow (snd s') = Q.utcnow q /\
  config (fst s') = config w /\
  posts (env (fst s')) = match items with
                         | [] => posts (env w)
                         | _ => tl (posts (env w))
                         end.
Proof.
  intros Htoken Hne Hff Hfit. cbv zeta. rewrite sync_items_eq.
  destruct items as [|item items].
  { cbn [fst snd map]. rewrite settle_rows_none. auto. }
  rewrite send_batch_eq, Htoken, Hne. cbv zeta. cbn [fst snd].
  pose proof (fault_free_hd Hff) as Hhd.
  destruct (answered_200 (hd None (posts (env w)))).
  - rewrite mark_synced_eq by discriminate. rewrite Hhd, Hfit.
    cbn [snd Q.table Q.after].
    split; [apply settle_rows_delete|].
    split; [now apply fault_free_after|]. auto.
  - rewrite mark_failed_eq by discriminate. rewrite Hhd, Hfit.
    cbn [snd Q.table Q.after Q.utcnow].
    split; [apply settle_rows_bump|].
    split; [now apply fault_free_after|]. auto.
Qed.

Lemma row_items_none (sel : list Q.Row) :
  Q.row_items sel = Ok [] -> sel = [].
Proof.
  destruct sel as [|r sel]; [reflexivity|]. simpl.
  destruct (Q.row_item r); [|discriminate].
  destruct (Q.row_items sel); discriminate.
Qed.

(** The two partitions of a batch are settled independently.  On a
    registered device whose store answers, with [analytics] and
    [submissions] the rows of each type among the first 100 in priority
    order: every row of a partition whose request was answered 200 is gone
    from the queue, every row of a partition whose request failed is still
    there with its retry count raised by one, whatever happened to the other
    partition; and a row outside the batch is untouched. *)
Theorem sync_partitions_settle_independently (w : World) (q : Q.World) :
  has_token (config w) = true -> Q.fault_free q -> Q.wf_table (Q.table q) ->
  let q' := snd (snd (sync_queued_analytics hmac json_loads (w, q))) in
  let analytics :=
    filter (Q.has_type (Q.value Q.ANALYTICS_RECORD)) (selected (Q.table q)) in
  let submissions :=
    filter (Q.has_type (Q.value Q.PORTAL_SUBMISSION)) (selected (Q.table q)) in
  let answer_a := hd None (posts (env w)) in
  let answer_s := hd None (match analytics with
                           | [] => posts (env w)
                           | _ => tl (posts (env w))
                           end) in
  let gone (r : Q.Row) :=
    forall r', In r' (Q.rows (Q.table q')) -> Q.id r' <> Q.id r in
  let retried (r : Q.Row) :=
    exists r', In r' (Q.rows (Q.table q')) /\ same_item r r' /\
               Q.retry_count r' = Q.retry_count r + 1 in
  (forall r, In r analytics -> if answered_200 answer_a then gone r else retried r) /\
  (forall r, In r submissions -> if answered_200 answer_s then gone r else retried r) /\
  (forall r, In r (Q.rows (Q.table q)) -> ~ In r (selected (Q.table q)) ->
             In r (Q.rows (Q.table q'))).
Proof.
  intros Htok Hff Hwft.
  pose proof Hwft as (Hnd & _ & Hwf & _).
  destruct (AgentFacts.has_token_inv _ Htok) as [token [Htoken Hne]].
  set (t := Q.table q).
  set (ts := (isoformat (Q.utcnow q) ++ "Z")%string).
  set (ids_a := map Q.id (filter (Q.has_type (Q.value Q.ANALYTICS_RECORD)) (selected t))).
  set (ids_s := map Q.id (filter (Q.has_type (Q.value Q.PORTAL_SUBMISSION)) (selected t))).
  (* the table at the end *)
  assert (Hrows :
    Q.rows (Q.table (snd (snd (sync_queued_analytics hmac json_loads (w, q))))) =
    settle_rows ts
      (answered_200 (hd None (match filter (Q.has_type (Q.value Q.ANALYTICS_RECORD))
                                           (selected t) with
                              | [] => posts (env w)
                              | _ => tl (posts (env w))
                              end)))
      ids_s
      (settle_rows ts (answered_200 (hd None (posts (env w)))) ids_a (Q.rows t))).
  { rewrite sync_queued_analytics_eq.
    assert (Hreg : is_registered (config w) = true)
      by (unfold is_registered; now rewrite Htoken).
    rewrite Hreg.
    pose proof (batch_of_selected q (fault_free_hd Hff) Hwf) as Hsel.
    fold t in Hsel.
    pose proof (items_of_type_ids Q.ANALYTICS_RECORD _ Hsel) as Ha.
    pose proof (items_of_type_ids Q.PORTAL_SUBMISSION _ Hsel) as Hs.
    fold ids_a in Ha. fold ids_s in Hs.
    destruct (batch_of q) as [|item rest] eqn:Hb.
    { apply row_items_none in Hsel. unfold ids_a, ids_s. rewrite Hsel.
      cbn [filter map snd Q.table Q.after]. now rewrite !settle_rows_none. }
    rewrite <- Hb in *. clear Hb item rest.
    unfold _send_analytics_batch, _send_submissions_batch. cbn [fst snd].
    assert (Hfit_a : forallb Q.fits_int64
                       (map fst (items_of_type Q.ANALYTICS_RECORD (batch_of q)))
                     = true).
    { rewrite Ha. apply (wf_table_ids_fit Hwft).
      intros r Hr. apply filter_In in Hr. apply selected_incl. tauto. }
    assert (Hfit_s : forallb Q.fits_int64
                       (map fst (items_of_type Q.PORTAL_SUBMISSION (batch_of q)))
                     = true).
    { rewrite Hs. apply (wf_table_ids_fit Hwft).
      intros r Hr. apply filter_In in Hr. apply selected_incl. tauto. }
    pose proof (@sync_items_settles "/api/v1/devices/analytics" "records"
                  (items_of_type Q.ANALYTICS_RECORD (batch_of q))
                  w (Q.after q (Q.table q)) token Htoken Hne
                  (@fault_free_after q (Q.table q) Hff) Hfit_a) as H1.
    cbv zeta in H1.
    destruct (sync_items json_loads
                (send_batch hmac "/api/v1/devices/analytics" "records")
                (items_of_type Q.ANALYTICS_RECORD (batch_of q))
                (w, Q.after q (Q.table q))) as [r1 [w1 q1]].
    cbn [fst snd Q.after Q.table Q.utcnow] in H1.
    destruct H1 as [Hr1 [Hff1 [Hnow1 [Hc1 Hp1]]]].
    assert (Htoken1 : device_token (config w1) = Some token) by now rewrite Hc1.
    pose proof (@sync_items_settles "/api/v1/devices/submissions" "submissions"
                  (items_of_type Q.PORTAL_SUBMISSION (batch_of q))
                  w1 q1 token Htoken1 Hne Hff1 Hfit_s) as H2.
    cbv zeta in H2. destruct H2 as [Hr2 _].
    etransitivity; [exact Hr2|].
    rewrite Hnow1, Hr1, Ha, Hs, Hp1. fold ts.
    assert (Hempty : match items_of_type Q.ANALYTICS_RECORD (batch_of q) with
                     | [] => posts (env w)
                     | _ :: _ => tl (posts (env w))
                     end =
                     match filter (Q.has_type (Q.value Q.ANALYTICS_RECORD))
                                  (selected t) with
                     | [] => posts (env w)
                     | _ :: _ => tl (posts (env w))
                     end).
    { unfold ids_a in Ha.
      destruct (items_of_type Q.ANALYTICS_RECORD (batch_of q));
        destruct (filter (Q.has_type (Q.value Q.ANALYTICS_RECORD)) (selected t));
        try reflexivity; discriminate. }
    now rewrite Hempty. }
  cbv zeta. rewrite Hrows. clear Hrows.
  set (sent_a := answered_200 (hd None (posts (env w)))).
  set (sent_s := answered_200 (hd None _)).
  (* ids and partitions *)
  assert (Hin_a : forall r, In r (Q.rows t) ->
            (Q.id_in ids_a r = true <->
             In r (selected t) /\ Q.item_type r = Q.value Q.ANALYTICS_RECORD)).
  { intros r Hr. unfold ids_a. rewrite in_ids_of. split.
    - intros [r0 [Hr0 [Hty Hid]]].
      assert (r0 = r).
      { eapply row_of_id;
          [exact Hnd|apply selected_incl; exact Hr0|exact Hr|exact Hid]. }
      subst r0. split; [exact Hr0|]. now apply Z.eqb_eq in Hty.
    - intros [Hsel Hty]. exists r. repeat split; auto.
      unfold Q.has_type. now apply Z.eqb_eq. }
  assert (Hin_s : forall r, In r (Q.rows t) ->
            (Q.id_in ids_s r = true <->
             In r (selected t) /\ Q.item_type r = Q.value Q.PORTAL_SUBMISSION)).
  { intros r Hr. unfold ids_s. rewrite in_ids_of. split.
    - intros [r0 [Hr0 [Hty Hid]]].
      assert (r0 = r).
      { eapply row_of_id;
          [exact Hnd|apply selected_incl; exact Hr0|exact Hr|exact Hid]. }
      subst r0. split; [exact Hr0|]. now apply Z.eqb_eq in Hty.
    - intros [Hsel Hty]. exists r. repeat split; auto.
      unfold Q.has_type. now apply Z.eqb_eq. }
  assert (Hfinal : forall r', In r' (settle_rows ts sent_s ids_s
                                      (settle_rows ts sent_a ids_a (Q.rows t))) <->
            exists r r1, In r (Q.rows t) /\ settled ts sent_a ids_a r = Some r1 /\
                         settled ts sent_s ids_s r1 = Some r').
  { intros r'. rewrite settle_rows_In. split.
    - intros [r1 [Hr1 Hs]]. apply settle_rows_In in Hr1.
      destruct Hr1 as [r [Hr Ha]]. exists r, r1. auto.
    - intros [r [r1 [Hr [Ha Hs]]]]. exists r1. split; [|exact Hs].
      apply settle_rows_In. exists r. auto. }
  assert (Hgone : forall r sent_1 sent_2 r1,
            In r (Q.rows t) ->
            settled ts sent_a ids_a r = sent_1 ->
            (sent_1 = None \/ (sent_1 = Some r1 /\ settled ts sent_s ids_s r1 = sent_2 /\
                               sent_2 = None)) ->
            forall r', In r' (settle_rows ts sent_s ids_s
                                (settle_rows ts sent_a ids_a (Q.rows t))) ->
                       Q.id r' <> Q.id r).
  { intros r sent_1 sent_2 r1 Hr H1 Hcase r' Hr' Hid.
    apply Hfinal in Hr'. destruct Hr' as [r0 [r01 [Hr0 [Ha0 Hs0]]]].
    assert (r0 = r).
    { destruct (settled_same_item _ _ _ _ Ha0) as [E1 _].
      destruct (settled_same_item _ _ _ _ Hs0) as [E2 _].
      eapply row_of_id; [exact Hnd|exact Hr0|exact Hr|congruence]. }
    subst r0. destruct Hcase as [Hn|[Hsome [H2 Hn]]]; [congruence|].
    assert (r01 = r1) by congruence. subst r01. congruence. }
  split; [|split].
  - (* Analytics *)
    intros r Hr. apply filter_In in Hr. destruct Hr as [Hsel Hty].
    apply Z.eqb_eq in Hty.
    assert (Hrt : In r (Q.rows t)) by now apply selected_incl.
    assert (Ha : Q.id_in ids_a r = true) by (apply Hin_a; auto).
    assert (Hs : Q.id_in ids_s r = false).
    { apply not_true_is_false. intros H. apply Hin_s in H; [|exact Hrt].
      destruct H as [_ H]. rewrite Hty in H. discriminate. }
    destruct sent_a eqn:Esa.
    + apply (Hgone r None None r Hrt); [|now left].
      unfold settled. now rewrite Ha.
    + exists (bumped ts ids_a r). split; [|split].
      * apply Hfinal. exists r, (bumped ts ids_a r). split; [exact Hrt|].
        split; [unfold settled; now rewrite Ha|].
        unfold settled.
        rewrite (id_in_same_id ids_s (bumped ts ids_a r) r), Hs; [reflexivity|].
        apply bumped_same_item.
      * apply bumped_same_item.
      * unfold bumped. now rewrite Ha.
  - (* submissions *)
    intros r Hr. apply filter_In in Hr. destruct Hr as [Hsel Hty].
    apply Z.eqb_eq in Hty.
    assert (Hrt : In r (Q.rows t)) by now apply selected_incl.
    assert (Hs : Q.id_in ids_s r = true) by (apply Hin_s; auto).
    assert (Ha : Q.id_in ids_a r = false).
    { apply not_true_is_false. intros H. apply Hin_a in H; [|exact Hrt].
      destruct H as [_ H]. rewrite Hty in H. discriminate. }
    assert (Ha' : settled ts sent_a ids_a r = Some r)
      by (unfold settled; now rewrite Ha).
    destruct sent_s eqn:Ess.
    + apply (Hgone r (Some r) None r Hrt Ha'). right.
      repeat split. unfold settled. now rewrite Hs.
    + exists (bumped ts ids_s r). split; [|split].
      * apply Hfinal. exists r, r. split; [exact Hrt|]. split; [exact Ha'|].
        unfold settled. now rewrite Hs.
      * apply bumped_same_item.
      * unfold bumped. now rewrite Hs.
  - (* the rest of the table *)
    intros r Hrt Hout.
    assert (Ha : Q.id_in ids_a r = false).
    { apply not_true_is_false. intros H. apply Hin_a in H; tauto. }
    assert (Hs : Q.id_in ids_s r = false).
    { apply not_true_is_false. intros H. apply Hin_s in H; tauto. }
    apply Hfinal. exists r, r. split; [exact Hrt|].
    unfold settled. now rewrite Ha, Hs.
Qed.


(** ** What goes over the wire *)

Lemma send_batch_posted (path key : string) (items : list json) (w : World)
      (token : string) :
  device_token (config w) = Some token ->
  String.eqb "signature" key = false ->
  let w' := snd (send_batch hmac path key items w) in
  config w' = config w /\
  (posted w' = posted w \/
   exists body,
     posted w' = ((backend_url (config w) ++ path)%string, body) :: posted w /\
     dict_get "device_token" body = Some (JStr token) /\
     verify_signature hmac token body = true).
Proof.
  intros Htoken Hkey. cbv zeta. rewrite send_batch_eq, Htoken.
  destruct (String.eqb token ""); [now split; [|left]|].
  cbv zeta. cbn [snd after_post config posted]. split; [reflexivity|]. right.
  set (ts := JStr (isoformat (utcnow (env w)) ++ "Z")%string).
  set (payload := [("device_token", JStr token); (key, JList items);
                   ("timestamp", ts)]).
  set (v := JStr (hmac (utf8 token) (utf8 (dumps_canonical (JDict payload))))).
  assert (Hm : dict_merge payload [("signature", v)] =
               [("device_token", JStr token); (key, JList items);
                ("timestamp", ts); ("signature", v)]).
  { unfold dict_merge, payload. cbn [fold_left fst snd dict_set].
    change ("signature" =? "device_token")%string with false. cbv iota.
    rewrite Hkey. reflexivity. }
  rewrite Hm. eexists. split; [reflexivity|]. split; [reflexivity|].
  unfold verify_signature.
  assert (Hg : dict_get "signature"
                 [("device_token", JStr token); (key, JList items);
                  ("timestamp", ts); ("signature", v)] = Some v).
  { cbn [dict_get]. change ("signature" =? "device_token")%string with false.
    cbv iota. rewrite Hkey. reflexivity. }
  assert (Hr : dict_remove "signature"
                 [("device_token", JStr token); (key, JList items);
                  ("timestamp", ts); ("signature", v)] = payload).
  { unfold dict_remove. cbn [filter fst].
    change ("signature" =? "device_token")%string with false. cbn [negb].
    rewrite Hkey. reflexivity. }
  rewrite Hg, Hr. unfold v. apply String.eqb_refl.
Qed.

Lemma sync_items_posted (path key : string) (items : list (Z * string))
      (w : World) (q : Q.World) (token : string) :
  device_token (config w) = Some token ->
  String.eqb "signature" key = false ->
  let s' := snd (sync_items json_loads (send_batch hmac path key) items (w, q)) in
  config (fst s') = config w /\
  (posted (fst s') = posted w \/
   exists body,
     posted (fst s') = ((backend_url (config w) ++ path)%string, body) :: posted w /\
     dict_get "device_token" body = Some (JStr token) /\
     verify_signature hmac token body = true).
Proof.
  intros Htoken Hkey. cbv zeta. rewrite sync_items_eq.
  destruct items as [|item items]; [now split; [|left]|].
  pose proof (@send_batch_posted path key
                (map json_loads (map snd (item :: items))) w token Htoken Hkey) as H.
  cbv zeta in H.
  destruct (send_batch_returns path key
              (map json_loads (map snd (item :: items))) w)
    as [sent [w' [Heq _]]].
  rewrite Heq in *. exact H.
Qed.

(** Every batch request is signed.  Whatever the state of the queue and of
    the store, a sync sends at most two requests, each to the Analytics or
    the submissions endpoint of the configured backend, each carrying the
    stored credential and a signature that verifies against the body without
    its signature under that credential. *)
Theorem sync_requests_are_signed (w : World) (q : Q.World) (token : string) :
  device_token (config w) = Some token ->
  exists sent,
    posted (fst (snd (sync_queued_analytics hmac json_loads (w, q)))) =
      sent ++ posted w /\
    (List.length sent <= 2)%nat /\
    Forall (fun request =>
              (fst request = analytics_url (config w) \/
               fst request = submissions_url (config w)) /\
              dict_get "device_token" (snd request) = Some (JStr token) /\
              verify_signature hmac token (snd request) = true)
           sent.
Proof.
  intros Htoken. rewrite sync_queued_analytics_eq.
  assert (Hreg : is_registered (config w) = true)
    by (unfold is_registered; now rewrite Htoken).
  rewrite Hreg.
  destruct (batch_of q) as [|item rest].
  { exists []. cbn. repeat split; auto. }
  set (b := item :: rest).
  unfold _send_analytics_batch, _send_submissions_batch. cbn [fst snd].
  pose proof (@sync_items_posted "/api/v1/devices/analytics" "records"
                (items_of_type Q.ANALYTICS_RECORD b) w (Q.after q (Q.table q))
                token Htoken eq_refl) as H1.
  cbv zeta in H1.
  destruct (sync_items json_loads (send_batch hmac "/api/v1/devices/analytics" "records")
              (items_of_type Q.ANALYTICS_RECORD b) (w, Q.after q (Q.table q)))
    as [r1 [w1 q1]].
  cbn [fst snd] in H1. destruct H1 as [Hc1 Hp1].
  assert (Htoken1 : device_token (config w1) = Some token) by now rewrite Hc1.
  pose proof (@sync_items_posted "/api/v1/devices/submissions" "submissions"
                (items_of_type Q.PORTAL_SUBMISSION b) w1 q1
                token Htoken1 eq_refl) as H2.
  cbv zeta in H2. destruct H2 as [_ Hp2].
  set (w2 := fst (snd (sync_items json_loads
                         (send_batch hmac "/api/v1/devices/submissions" "submissions")
                         (items_of_type Q.PORTAL_SUBMISSION b) (w1, q1)))) in *.
  change (exists sent,
            posted w2 = sent ++ posted w /\ (List.length sent <= 2)%nat /\
            Forall (fun request =>
                      (fst request = analytics_url (config w) \/
                       fst request = submissions_url (config w)) /\
                      dict_get "device_token" (snd request) = Some (JStr token) /\
                      verify_signature hmac token (snd request) = true) sent).
  destruct Hp1 as [E1|[body1 [E1 [Hd1 Hv1]]]];
    destruct Hp2 as [E2|[body2 [E2 [Hd2 Hv2]]]]; rewrite E2, E1.
  - exists []. cbn. repeat split; auto.
  - eexists [_]. split; [reflexivity|]. split; [cbn; lia|].
    constructor; [|constructor]. cbn [fst snd]. rewrite Hc1.
    split; [now right|auto].
  - eexists [_]. split; [reflexivity|]. split; [cbn; lia|].
    constructor; [|constructor]. cbn [fst snd]. split; [now left|auto].
  - eexists [_; _]. split; [reflexivity|]. split; [cbn; lia|].
    constructor; [|constructor; [|constructor]]; cbn [fst snd].
    + rewrite Hc1. split; [now right|auto].
    + split; [now left|auto].
Qed.

End Sync.

(** ** The statements at work *)

Import SyncExamples.

Lemma sync_offline_loses_nothing_witness :
  let q' := snd (snd (sync_queued_analytics
                        AgentExamples.toy_hmac toy_loads
                        (syncing_world [None; unavailable],
                         QueueExamples.full_world))) in
  Forall2 (fun r r' => same_item r r' /\ Q.retry_count r <= Q.retry_count r')
          (Q.rows (Q.table QueueExamples.full_world)) (Q.rows (Q.table q')) /\
  map Q.retry_count (Q.rows (Q.table q')) = [1; 1; 1].
Proof.
  split; [|reflexivity].
  apply (@sync_offline_loses_nothing AgentExamples.toy_hmac toy_loads
           (syncing_world [None; unavailable]) QueueExamples.full_world).
  repeat constructor.
Defined.

Lemma sync_partitions_settle_independently_witness :
  let q' := snd (snd (sync_queued_analytics
                        AgentExamples.toy_hmac toy_loads
                        (syncing_world [unavailable; accepted],
                         QueueExamples.full_world))) in
  (forall r, In r [QueueExamples.a1; QueueExamples.a2] ->
     exists r', In r' (Q.rows (Q.table q')) /\ same_item r r' /\
                Q.retry_count r' = Q.retry_count r + 1) /\
  (forall r, In r [QueueExamples.s3] ->
     forall r', In r' (Q.rows (Q.table q')) -> Q.id r' <> Q.id r) /\
  map Q.id (Q.rows (Q.table q')) = [1; 2].
Proof.
  destruct (@sync_partitions_settle_independently
              AgentExamples.toy_hmac toy_loads
              (syncing_world [unavailable; accepted]) QueueExamples.full_world
              eq_refl (Forall_nil _) wf_full_table) as [Ha [Hs _]].
  split; [exact Ha|]. split; [exact Hs|reflexivity].
Defined.

Lemma sync_requests_are_signed_witness :
  exists sent,
    posted (fst (snd (sync_queued_analytics
                        AgentExamples.toy_hmac toy_loads
                        (syncing_world [accepted; accepted],
                         QueueExamples.full_world)))) = sent ++ [] /\
    (List.length sent <= 2)%nat /\
    Forall (fun request =>
              (fst request = analytics_url AgentExamples.registered_config \/
               fst request = submissions_url AgentExamples.registered_config) /\
              dict_get "device_token" (snd request) = Some (JStr "T1") /\
              verify_signature AgentExamples.toy_hmac "T1" (snd request) = true)
           sent.
Proof.
  exact (@sync_requests_are_signed AgentExamples.toy_hmac toy_loads
           (syncing_world [accepted; accepted]) QueueExamples.full_world
           "T1" eq_refl).
Defined.

End BatchSyncFacts.
(* ================================================================== *)
(** * The captive portal: what is stored, and what the visitor is told *)
(* ================================================================== *)

Module PortalHandlerFacts.

Import Json Text Config Datetime ManagementAgent BatchSync PortalHandler.
Import TelemetryQueueFacts.

Module Q := TelemetryQueue.

(** ** Forms *)

Lemma form_get_set_same (k v : string) (d : Form) :
  form_get k (form_set k v d) = Some v.
Proof.
  induction d as [|[k' v'] d IH]; simpl.
  - now rewrite String.eqb_refl.
  - destruct (String.eqb k k') eqn:E; simpl; [now rewrite String.eqb_refl|].
    now rewrite E.
Qed.

Lemma form_get_set_other (k k0 v : string) (d : Form) :
  String.eqb k k0 = false -> form_get k (form_set k0 v d) = form_get k d.
Proof.
  intros Hne. induction d as [|[k' v'] d IH]; simpl.
  - now rewrite Hne.
  - destruct (String.eqb k0 k') eqn:E; simpl.
    + apply String.eqb_eq in E. subst k'. now rewrite Hne.
    + now rewrite IH.
Qed.

Lemma form_get_del_same (k : string) (d : Form) :
  form_get k (form_del k d) = None.
Proof.
  induction d as [|[k' v'] d IH]; simpl; [reflexivity|].
  destruct (String.eqb k k') eqn:E; simpl; [exact IH|]. now rewrite E.
Qed.

Lemma form_get_del_other (k k0 : string) (d : Form) :
  String.eqb k k0 = false -> form_get k (form_del k0 d) = form_get k d.
Proof.
  intros Hne. induction d as [|[k' v'] d IH]; simpl; [reflexivity|].
  destruct (String.eqb k0 k') eqn:E; simpl.
  - apply String.eqb_eq in E. subst k'. now rewrite Hne.
  - now rewrite IH.
Qed.

Section Handler.

Variable sha256 : string -> string.
Variable members : EventConfig -> dict.
Variable self_queue : Q.QueueManager.

(** What is stored for a submission that came with the device [mac]: no
    member [mac_address], the hash under [mac_address_hash], and every other
    field but the timestamp as it was submitted. *)
Lemma prepared_hides_mac (timestamp mac : string) (form_data : Form) :
  let d := prepared sha256 timestamp (form_set "mac_address" mac form_data) in
  form_get "mac_address" d = None /\
  form_get "mac_address_hash" d = Some (sha256 (utf8 mac)) /\
  (forall k, String.eqb k "mac_address" = false ->
             String.eqb k "mac_address_hash" = false ->
             String.eqb k "submission_timestamp" = false ->
             form_get k d = form_get k form_data).
Proof.
  cbv zeta. unfold prepared.
  set (s0 := form_set "mac_address" mac form_data).
  set (s1 := if negb (form_has "submission_timestamp" s0)
             then form_set "submission_timestamp" timestamp s0 else s0).
  assert (Hmac : form_get "mac_address" s1 = Some mac).
  { unfold s1. destruct (negb _).
    - rewrite form_get_set_other by reflexivity. apply form_get_set_same.
    - apply form_get_set_same. }
  rewrite Hmac. split; [apply form_get_del_same|]. split.
  - rewrite form_get_del_other by reflexivity. apply form_get_set_same.
  - intros k H1 H2 H3.
    rewrite form_get_del_other, form_get_set_other by assumption.
    unfold s1. destruct (negb _).
    + rewrite form_get_set_other by assumption. now apply form_get_set_other.
    + now apply form_get_set_other.
Qed.

(** ** Validation *)

Lemma append_if_nil (cond : bool) (e : string) (errs : list string) :
  append_if cond e errs = [] <-> cond = false /\ errs = [].
Proof.
  unfold append_if. destruct cond.
  - split; [|intros [H _]; discriminate]. intros H.
    destruct errs; discriminate.
  - tauto.
Qed.


Lemma append_if_some_nil (o : option string) (f : string -> bool) (e : string)
      (errs : list string) :
  match o with
  | Some x => append_if (f x) e errs
  | None => errs
  end = [] <->
  (forall x, o = Some x -> f x = false) /\ errs = [].
Proof.
  destruct o as [x|].
  - rewrite append_if_nil. split.
    + intros [H1 H2]. split; [|exact H2]. intros y Hy. now inversion Hy; subst.
    + intros [H1 H2]. split; [now apply H1|exact H2].
  - split; [intros H; split; [discriminate|exact H]|tauto].
Qed.

Lemma no_errors_iff (errs : list string) :
  (Z.of_nat (List.length errs) =? 0) = true <-> errs = [].
Proof.
  destruct errs; simpl; [tauto|]. split; discriminate.
Qed.

Lemma validate_submission_no_errors (c : Config) (form_data : Form) :
  valid (validate_submission members c form_data) = true <->
  errors (validate_submission members c form_data) = [].
Proof.
  unfold validate_submission.
  destruct (is_assigned c); cbn [negb]; [|split; discriminate].
  destruct (event_config c) as [e|]; [|split; discriminate].
  destruct (members e) as [|m ms]; [split; discriminate|].
  cbv zeta. cbn [valid errors]. apply no_errors_iff.
Qed.

(** A form is accepted exactly when nothing is held against it, that is
    when the device has a non-empty event configuration, both names are
    given, the fields the event requires are given, an e-mail address that
    is given holds an at sign and a dot, and a telephone number that is given
    holds at least ten digits. *)
Theorem validate_submission_accepts_iff (c : Config) (form_data : Form) :
  (valid (validate_submission members c form_data) = true <->
   errors (validate_submission members c form_data) = []) /\
  (valid (validate_submission members c form_data) = true <->
   exists e,
     event_config c = Some e /\ members e <> [] /\
     blank "first_name" form_data = false /\
     blank "last_name" form_data = false /\
     (flag "require_email" (members e) = true -> blank "email" form_data = false) /\
     (flag "require_phone" (members e) = true -> blank "phone" form_data = false) /\
     (forall email, form_get "email" form_data = Some email ->
                    String.eqb email "" = false ->
                    contains "@" email = true /\ contains "." email = true) /\
     (forall phone, form_get "phone" form_data = Some phone ->
                    String.eqb phone "" = false ->
                    10 <= Z.of_nat (String.length (digits_of phone)))).
Proof.
  split; [apply validate_submission_no_errors|].
  rewrite validate_submission_no_errors.
  unfold validate_submission, is_assigned.
  destruct (event_config c) as [e|]; cbn [negb errors].
  2:{ split; [discriminate|]. intros [e [H _]]. discriminate. }
  destruct (members e) as [|m ms] eqn:Hm; cbn [errors].
  { split; [discriminate|]. intros [e' [He' [Hne _]]].
    inversion He'; subst e'. now rewrite Hm in Hne. }
  cbv zeta. cbn [errors].
  rewrite !append_if_nil, !append_if_some_nil, !append_if_nil.
  split.
  - intros [Hlast [Hfirst [Hphone [Hemail [Hrp [Hre _]]]]]].
    exists e. split; [reflexivity|]. rewrite Hm. split; [discriminate|].
    split; [exact Hfirst|]. split; [exact Hlast|].
    split. { intros Hf. rewrite Hf in Hre. exact Hre. }
    split. { intros Hf. rewrite Hf in Hrp. exact Hrp. }
    split.
    + intros email He Hne. specialize (Hemail email He).
      rewrite Hne in Hemail. cbn [negb andb] in Hemail.
      apply orb_false_iff in Hemail. destruct Hemail as [H1 H2].
      apply negb_false_iff in H1. apply negb_false_iff in H2. auto.
    + intros phone Hp Hne. specialize (Hphone phone Hp).
      rewrite Hne in Hphone. cbn [negb andb] in Hphone.
      apply Z.ltb_ge in Hphone. exact Hphone.
  - intros [e' [He' [_ [Hfirst [Hlast [Hre [Hrp [Hemail Hphone]]]]]]]].
    inversion He'; subst e'. rewrite Hm in *.
    split; [exact Hlast|]. split; [exact Hfirst|].
    split.
    { intros phone Hp. destruct (String.eqb phone "") eqn:Hne; [reflexivity|].
      cbn [negb andb]. apply Z.ltb_ge. now apply Hphone. }
    split.
    { intros email He. destruct (String.eqb email "") eqn:Hne; [reflexivity|].
      cbn [negb andb]. destruct (Hemail email He Hne) as [H1 H2].
      now rewrite H1, H2. }
    split.
    { destruct (flag "require_phone" (m :: ms)); [|reflexivity]. now apply Hrp. }
    split; [|reflexivity].
    destruct (flag "require_email" (m :: ms)); [|reflexivity]. now apply Hre.
Qed.

(** ** Granting access *)

Lemma grant_wifi_access_returns (mac : string) (w : World) :
  exists granted w',
    grant_wifi_access mac w = (Ok granted, w') /\
    config w' = config w /\ disk w' = disk w /\ posted w' = posted w.
Proof.
  unfold grant_wifi_access, run_checked, next_proc, set_env, try_except, bind,
    modify, gets, ret, raise. cbn [fst snd].
  destruct (hd (Exit 0) (procs (env w))) as [rc| |];
    try (eexists _, _; split; [reflexivity|auto]).
  destruct (rc =? 0); cbn [negb fst snd env procs];
    try (eexists _, _; split; [reflexivity|auto]).
  destruct (hd (Exit 0) (tl (procs (env w)))) as [rc'| |];
    try (eexists _, _; split; [reflexivity|auto]).
  destruct (rc' =? 0); eexists _, _; (split; [reflexivity|auto]).
Qed.

(** ** A submission, from the form to the queue *)

Lemma handle_submission_eq (form_data : Form) (mac : string) (w : World)
      (q : Q.World) :
  handle_submission sha256 members self_queue form_data mac (w, q) =
  if valid (validate_submission members (config w) form_data) then
    match Q.enqueue_submission self_queue
            (Ok (dumps_form
                   (prepared sha256 (isoformat (utcnow (env w)) ++ "Z")%string
                             (form_set "mac_address" mac form_data)))) q with
    | (Ok _, q') =>
        (Ok (Success "Thank you for your submission!"),
         (snd (grant_wifi_access mac w), q'))
    | (Raise _, q') => (Ok (Failure ["Failed to save submission"]), (w, q'))
    end
  else (Ok (Failure (errors (validate_submission members (config w) form_data))),
        (w, q)).
Proof.
  unfold handle_submission.
  unfold bind at 1. unfold on_agent at 1. unfold gets at 1. cbn [fst snd].
  destruct (valid (validate_submission members (config w) form_data));
    [|reflexivity].
  cbn [negb]. unfold queue_submission, _get_timestamp, on_agent, on_queue,
    try_except, bind, gets, ret. cbn [fst snd].
  destruct (Q.enqueue_submission self_queue _ q) as [[[]|e] q'];
    cbn [fst snd negb]; [|reflexivity].
  destruct (grant_wifi_access_returns mac w) as [granted [w' [Heq _]]].
  rewrite Heq. reflexivity.
Qed.

(** The visitor is told the truth, and the MAC address is not stored.
    Whatever the store and [ndsctl] do, [handle_submission] returns, and
    leaves configuration and files alone.  Either it reports a failure with
    at least one message, and then the queue holds what it held and no
    process was run; or it reports success, and then the form was valid and
    exactly one row was appended, a portal submission whose document has no
    member [mac_address], holds the hash of the address under
    [mac_address_hash], and holds every other field but the timestamp as it
    was submitted. *)
Theorem handle_submission_stores_what_it_acknowledges
        (form_data : Form) (mac : string) (w : World) (q : Q.World) :
  let r := handle_submission sha256 members self_queue form_data mac (w, q) in
  config (fst (snd r)) = config w /\
  disk (fst (snd r)) = disk w /\
  ((exists errs,
      fst r = Ok (Failure errs) /\ errs <> [] /\
      Q.table (snd (snd r)) = Q.table q /\ fst (snd r) = w) \/
   (fst r = Ok (Success "Thank you for your submission!") /\
    valid (validate_submission members (config w) form_data) = true /\
    exists d,
      Q.rows (Q.table (snd (snd r))) =
        Q.rows (Q.table q) ++
        [Q.inserted (Q.value Q.PORTAL_SUBMISSION) (dumps_form d)
                    (Q.utcnow q) (Q.table q)] /\
      form_get "mac_address" d = None /\
      form_get "mac_address_hash" d = Some (sha256 (utf8 mac)) /\
      (forall k, String.eqb k "mac_address" = false ->
                 String.eqb k "mac_address_hash" = false ->
                 String.eqb k "submission_timestamp" = false ->
                 form_get k d = form_get k form_data))).
Proof.
  cbv zeta. rewrite handle_submission_eq.
  destruct (valid (validate_submission members (config w) form_data)) eqn:Hv.
  2:{ cbn [fst snd]. split; [reflexivity|]. split; [reflexivity|]. left.
      eexists. split; [reflexivity|]. split; [|split; reflexivity].
      intros Hnil. apply validate_submission_no_errors in Hnil. congruence. }
  set (d := prepared sha256 (isoformat (utcnow (env w)) ++ "Z")%string
                     (form_set "mac_address" mac form_data)).
  rewrite enqueue_submission_eq. cbv zeta.
  destruct (grant_wifi_access_returns mac w) as [granted [w' [Heq [Hc [Hd _]]]]].
  destruct (_ >=? Q.MAX_SUBMISSIONS self_queue).
  { cbn [fst snd Q.after Q.table]. split; [reflexivity|]. split; [reflexivity|]. left.
    eexists. split; [reflexivity|]. split; [discriminate|]. split; reflexivity. }
  destruct (hd false (Q.faults (Q.after q (Q.table q)))).
  { cbn [fst snd Q.after Q.table]. split; [reflexivity|]. split; [reflexivity|]. left.
    eexists. split; [reflexivity|]. split; [discriminate|]. split; reflexivity. }
  destruct (inserting_table (Q.value Q.PORTAL_SUBMISSION) (Ok (dumps_form d))
              (Q.utcnow q) (Q.after q (Q.table q)))
    as [(e & He & Ht)|(text & Htext & _ & Hok & Ht)].
  { destruct (Q.inserting _ _ _ _) as [[[]|e'] q']; [discriminate|].
    cbn [fst snd] in *. split; [reflexivity|]. split; [reflexivity|]. left.
    eexists. split; [reflexivity|]. split; [discriminate|].
    split; [exact Ht|reflexivity]. }
  injection Htext as <-.
  destruct (Q.inserting _ _ _ _) as [[[]|e'] q']; [|discriminate].
  cbn [fst snd] in *. rewrite Heq. cbn [fst snd].
  split; [exact Hc|]. split; [exact Hd|]. right.
  split; [reflexivity|]. split; [reflexivity|].
  exists d. split; [rewrite Ht; reflexivity|]. apply prepared_hides_mac.
Qed.

(** A full submission queue is reported to the visitor.  When the form is
    valid, the store answers and the queue already holds the maximum number
    of submissions, the visitor is told that the submission could not be
    saved; the queue holds what it held, and nothing else happened: no
    access was granted. *)
Theorem handle_submission_full_queue_is_reported
        (form_data : Form) (mac : string) (w : World) (q : Q.World) :
  valid (validate_submission members (config w) form_data) = true ->
  hd false (Q.faults q) = false ->
  Q.MAX_SUBMISSIONS self_queue <=
    Q.count_type (Q.value Q.PORTAL_SUBMISSION) (Q.table q) ->
  let r := handle_submission sha256 members self_queue form_data mac (w, q) in
  fst r = Ok (Failure ["Failed to save submission"]) /\
  Q.table (snd (snd r)) = Q.table q /\
  fst (snd r) = w.
Proof.
  intros Hv Hf Hfull. cbv zeta. rewrite handle_submission_eq, Hv.
  rewrite enqueue_submission_eq. cbv zeta. rewrite Hf.
  destruct (Z.geb_spec (Q.count_type (Q.value Q.PORTAL_SUBMISSION) (Q.table q))
                       (Q.MAX_SUBMISSIONS self_queue)) as [_|Hlt]; [|lia].
  cbn [fst snd Q.after Q.table]. repeat split.
Qed.

End Handler.

(** ** The statements at work *)

Import PortalExamples.

Lemma handle_submission_full_queue_is_reported_witness :
  fst (handle_submission toy_sha256 toy_members QueueExamples.small_manager
         ada "aa:bb:cc:dd:ee:ff"
         (AgentExamples.registered_world None, QueueExamples.full_world))
    = Ok (Failure ["Failed to save submission"]) /\
  Q.table (snd (snd (handle_submission toy_sha256 toy_members
                       QueueExamples.small_manager ada "aa:bb:cc:dd:ee:ff"
                       (AgentExamples.registered_world None,
                        QueueExamples.full_world))))
    = Q.table QueueExamples.full_world.
Proof.
  destruct (@handle_submission_full_queue_is_reported
              toy_sha256 toy_members QueueExamples.small_manager
              ada "aa:bb:cc:dd:ee:ff"
              (AgentExamples.registered_world None) QueueExamples.full_world
              eq_refl eq_refl) as [H1 [H2 _]].
  - vm_compute. discriminate.
  - split; [exact H1|exact H2].
Defined.

End PortalHandlerFacts.
(* ================================================================== *)
(** * Restarts: what [Config.load] finds on the disk *)
(* ================================================================== *)

Module ConfigLoadFacts.

Import Json Text Config Datetime ManagementAgent ConfigLoad Registration.

(** ** Invariants of the world *)

Section Preserves.

Variable P : World -> Prop.

Lemma preserves_ret {T} (a : T) : preserves P (ret a).
Proof. now intros w. Qed.

Lemma preserves_raise {T} (e : exn) : preserves P (raise (A := T) e).
Proof. now intros w. Qed.

Lemma preserves_gets {T} (f : World -> T) : preserves P (gets f).
Proof. now intros w. Qed.

Lemma preserves_bind {T U} (m : IO T) (k : T -> IO U) :
  preserves P m -> (forall a, preserves P (k a)) -> preserves P (bind m k).
Proof.
  intros Hm Hk w Hw. unfold bind. specialize (Hm w Hw).
  destruct (m w) as [[a|e] w1]; simpl in *; [|exact Hm].
  now apply Hk.
Qed.

Lemma preserves_try_except {T} (m : IO T) (h : exn -> IO T) :
  preserves P m -> (forall e, preserves P (h e)) -> preserves P (try_except m h).
Proof.
  intros Hm Hh w Hw. unfold try_except. specialize (Hm w Hw).
  destruct (m w) as [[a|e] w1]; simpl in *; [exact Hm|].
  now apply Hh.
Qed.

End Preserves.

(** ** What keeps memory and [config.json] in agreement *)

Lemma coherent_set_env (f : Env -> Env) : preserves cache_coherent (set_env f).
Proof. now intros w H. Qed.

Lemma coherent_set_config (f : Config -> Config) :
  (forall c, event_config (f c) = event_config c) ->
  (forall c, config_version (f c) = config_version c) ->
  preserves cache_coherent (set_config f).
Proof.
  intros H1 H2 w H. unfold cache_coherent in *. cbn [set_config modify snd config disk].
  now rewrite H1, H2.
Qed.

Lemma coherent_set_disk (f : Disk -> Disk) :
  (forall d, config_cache (f d) = config_cache d) ->
  preserves cache_coherent (set_disk f).
Proof.
  intros H1 w H. unfold cache_coherent in *. cbn [set_disk modify snd config disk].
  now rewrite H1.
Qed.

Lemma coherent_posted (f g : World -> list (string * dict)) :
  preserves cache_coherent
    (modify (fun w => mkWorld (config w) (disk w) (env w) (f w) (g w))).
Proof. now intros w H. Qed.

Lemma coherent_save_event_config (cfg : EventConfig) (v : Z) :
  preserves cache_coherent (save_event_config cfg v).
Proof.
  intros w H. unfold save_event_config, io_step, next_io, _get_timestamp,
    set_env, set_disk, set_config, try_except, bind, modify, gets, ret, raise.
  cbn [fst snd].
  destruct (hd IoOk (io (env w))); cbn [fst snd]; try exact H.
  unfold cache_coherent. cbn. auto.
Qed.

Lemma coherent_clear_event_config : preserves cache_coherent clear_event_config.
Proof.
  intros w H. unfold clear_event_config, io_step, next_io,
    set_env, set_disk, set_config, try_except, bind, modify, gets, ret, raise.
  cbn [fst snd]. unfold cache_coherent in H.
  destruct (config_cache (disk w)) as [cache|] eqn:Hc; cbn [fst snd].
  - destruct (hd IoOk (io (env w))); cbn [fst snd];
      unfold cache_coherent; cbn; rewrite ?Hc; auto.
  - unfold cache_coherent. cbn. rewrite Hc. auto.
Qed.

Create HintDb coherent.

#[local] Hint Resolve coherent_set_env coherent_posted
  coherent_save_event_config coherent_clear_event_config : coherent.

Ltac coherent_step :=
  first
    [ solve [auto with coherent]
    | apply preserves_ret | apply preserves_raise | apply preserves_gets
    | apply coherent_set_config; [intros ?; reflexivity|intros ?; reflexivity]
    | apply coherent_set_disk; intros ?; reflexivity
    | apply preserves_bind; [|intros ?]
    | apply preserves_try_except; [|intros ?]
    | progress cbv zeta
    | match goal with
      | |- preserves _ (match ?x with _ => _ end) => destruct x
      end ].

Ltac coherent := repeat coherent_step.

Lemma coherent_next_io : preserves cache_coherent next_io.
Proof. unfold next_io. coherent. Qed.

Lemma coherent_next_proc : preserves cache_coherent next_proc.
Proof. unfold next_proc. coherent. Qed.

Lemma coherent_next_post : preserves cache_coherent next_post.
Proof. unfold next_post. coherent. Qed.

Lemma coherent_next_fetch : preserves cache_coherent next_fetch.
Proof. unfold next_fetch. coherent. Qed.

#[local] Hint Resolve coherent_next_io coherent_next_proc coherent_next_post
  coherent_next_fetch : coherent.

Lemma coherent_io_step : preserves cache_coherent io_step.
Proof. unfold io_step. coherent. Qed.

#[local] Hint Resolve coherent_io_step : coherent.

Lemma coherent_save_device_config : preserves cache_coherent save_device_config.
Proof. unfold save_device_config. coherent. Qed.

#[local] Hint Resolve coherent_save_device_config : coherent.

Lemma coherent_wipe_device_data : preserves cache_coherent wipe_device_data.
Proof. unfold wipe_device_data. coherent. Qed.

Lemma coherent_get_serial_number : preserves cache_coherent get_serial_number.
Proof. unfold get_serial_number. coherent. Qed.

Lemma coherent_session_get (url : string) (params : dict) :
  preserves cache_coherent (session_get url params).
Proof.
  unfold session_get. apply preserves_bind; [|intros _; coherent].
  now intros w H.
Qed.

#[local] Hint Resolve coherent_session_get : coherent.

Lemma coherent_fetch_configuration : preserves cache_coherent fetch_configuration.
Proof. unfold fetch_configuration. coherent. Qed.

Lemma coherent_cache_configuration (cfg : EventConfig) :
  preserves cache_coherent (cache_configuration cfg).
Proof. unfold cache_configuration. coherent. Qed.

#[local] Hint Resolve coherent_wipe_device_data coherent_get_serial_number
  coherent_fetch_configuration coherent_cache_configuration : coherent.

Lemma coherent_process_command (command : Command) :
  preserves cache_coherent (process_command command).
Proof.
  unfold process_command, _handle_config_refresh, _handle_restart,
    _handle_wipe, _handle_firmware_update, run_checked.
  destruct command; coherent.
Qed.

#[local] Hint Resolve coherent_process_command : coherent.

Lemma coherent_process_commands (commands : list Command) :
  preserves cache_coherent (process_commands commands).
Proof. induction commands as [|c cs IH]; simpl; coherent. Qed.

Lemma coherent_take_token (had : bool) (data : HeartbeatData) :
  preserves cache_coherent (take_token had data).
Proof. unfold take_token. coherent. Qed.

Lemma coherent_write_hostapd (lines : list string) :
  preserves cache_coherent (write_hostapd lines).
Proof. unfold write_hostapd. coherent. Qed.

Lemma coherent_read_hostapd : preserves cache_coherent read_hostapd.
Proof. unfold read_hostapd. coherent. Qed.

#[local] Hint Resolve coherent_process_commands coherent_take_token
  coherent_write_hostapd coherent_read_hostapd : coherent.

Lemma coherent_rollback (lines : list string) :
  preserves cache_coherent (rollback lines).
Proof. unfold rollback. coherent. Qed.

#[local] Hint Resolve coherent_rollback : coherent.

Lemma coherent_apply_ssid_configuration (s : string) :
  preserves cache_coherent (apply_ssid_configuration s).
Proof. unfold apply_ssid_configuration. coherent. Qed.

#[local] Hint Resolve coherent_apply_ssid_configuration : coherent.

Lemma coherent_reconcile_ssid (data : HeartbeatData) :
  preserves cache_coherent (reconcile_ssid data).
Proof. unfold reconcile_ssid. coherent. Qed.

Lemma coherent_session_post (url : string) (body : dict) :
  preserves cache_coherent (session_post url body).
Proof. unfold session_post. coherent. Qed.

#[local] Hint Resolve coherent_reconcile_ssid coherent_session_post : coherent.

Section Agent.

Variable hmac : string -> string -> string.

Lemma coherent_sign_request (payload : dict) :
  preserves cache_coherent (_sign_request hmac payload).
Proof. unfold _sign_request. coherent. Qed.

#[local] Hint Resolve coherent_sign_request : coherent.

Lemma coherent_heartbeat_request (timestamp : string) :
  preserves cache_coherent (heartbeat_request hmac timestamp).
Proof. unfold heartbeat_request. coherent. Qed.

#[local] Hint Resolve coherent_heartbeat_request : coherent.

Lemma coherent_send_heartbeat : preserves cache_coherent (send_heartbeat hmac).
Proof. unfold send_heartbeat, _get_timestamp. coherent. Qed.

(** Memory and [config.json] never drift apart.  From a state in which they
    agree on the event configuration, they still agree after a heartbeat
    with everything it may trigger, after a remote command, after a
    configuration was cached and after a wipe, whatever the file system,
    the backend and [systemctl] do. *)
Theorem event_configuration_stays_coherent (w : World) :
  cache_coherent w ->
  cache_coherent (snd (send_heartbeat hmac w)) /\
  (forall command, cache_coherent (snd (process_command command w))) /\
  (forall cfg, cache_coherent (snd (cache_configuration cfg w))) /\
  cache_coherent (snd (fetch_configuration w)) /\
  cache_coherent (snd (wipe_device_data w)).
Proof.
  intros H. split; [now apply coherent_send_heartbeat|].
  split; [intros command; now apply coherent_process_command|].
  split; [intros cfg; now apply coherent_cache_configuration|].
  split; [now apply coherent_fetch_configuration|].
  now apply coherent_wipe_device_data.
Qed.

End Agent.

(** ** Loading *)

Lemma io_step_quiet (w : World) : io (env w) = [] -> io_step w = (Ok tt, w).
Proof.
  destruct w as [c d [i p po f u cs rs] pd]. simpl. intros ->. reflexivity.
Qed.

Lemma load_eq (w : World) :
  io (env w) = [] ->
  fst (load w) =
  Ok (let c1 := match device_conf (disk w) with
                | Some saved => from_device_conf saved init
                | None => init
                end in
      match config_cache (disk w) with
      | Some cache => from_config_cache cache c1
      | None => c1
      end).
Proof.
  intros Hio. unfold load, bind, gets, try_except, ret. cbv beta.
  rewrite (io_step_quiet w Hio). cbv beta iota.
  rewrite (io_step_quiet w Hio). cbv beta iota.
  destruct (device_conf (disk w)) as [saved|]; cbv beta iota;
    rewrite ?(io_step_quiet w Hio); cbv beta iota;
    destruct (config_cache (disk w)) as [cache|]; cbv beta iota;
    rewrite ?(io_step_quiet w Hio); reflexivity.
Qed.

(** A restart finds what was saved.  In a state where memory and
    [config.json] agree, a [Config.load] whose file operations succeed
    returns the event configuration and version that are in memory; when
    [device.conf] was written from the attributes in memory as well, it
    returns the very configuration that is in memory. *)
Theorem load_restores_what_was_saved (w : World) :
  cache_coherent w -> io (env w) = [] ->
  exists c,
    fst (load w) = Ok c /\
    event_config c = event_config (config w) /\
    config_version c = config_version (config w) /\
    (device_conf (disk w) = Some (device_conf_of (config w)) -> c = config w).
Proof.
  intros Hcoh Hio. eexists. split; [now apply load_eq|]. cbv zeta.
  unfold cache_coherent in Hcoh.
  destruct (config_cache (disk w)) as [cache|]; destruct Hcoh as [He Hv].
  - split; [now rewrite He|]. split; [now rewrite Hv|].
    intros Hd. rewrite Hd. destruct (config w); simpl in *. now subst.
  - destruct (device_conf (disk w)) as [saved|]; cbn.
    + split; [now rewrite He|]. split; [now rewrite Hv|].
      intros Hd. inversion Hd; subst. destruct (config w); simpl in *. now subst.
    + split; [now rewrite He|]. split; [now rewrite Hv|]. discriminate.
Qed.

(** ** Stepping through a method that returned *)

Lemma bind_returned {S A B} (m : M S A) (k : A -> M S B) (s s' : S) (b : B) :
  bind m k s = (Ok b, s') ->
  exists a s1, m s = (Ok a, s1) /\ k a s1 = (Ok b, s').
Proof.
  unfold bind. destruct (m s) as [[a|e] s1]; [|discriminate].
  intros H. exists a, s1. auto.
Qed.

Lemma set_config_returned (f : Config -> Config) (w w' : World) (u : unit) :
  set_config f w = (Ok u, w') ->
  w' = mkWorld (f (config w)) (disk w) (env w) (posted w) (got w).
Proof. unfold set_config, modify. now intros [= _ <-]. Qed.

Lemma save_device_config_returned (w w' : World) (u : unit) :
  save_device_config w = (Ok u, w') ->
  device_conf (disk w') = Some (device_conf_of (config w)) /\
  config w' = config w.
Proof.
  unfold save_device_config, io_step, next_io, set_env, set_disk, try_except,
    bind, modify, gets, ret, raise. cbn [fst snd].
  destruct (hd IoOk (io (env w))); cbn [fst snd]; try discriminate.
  cbn [env io hd tl].
  destruct (hd IoOk (tl (io (env w)))); cbn [fst snd]; try discriminate.
  now intros [= _ <-].
Qed.

Lemma get_serial_number_returned (w w' : World) (serial : string) :
  get_serial_number w = (Ok serial, w') ->
  device_serial (config w') = Some serial /\
  device_token (config w') = device_token (config w) /\
  disk w' = disk w /\ env w' = env w.
Proof.
  unfold get_serial_number, set_config, bind, modify, gets, ret. cbn [fst snd].
  destruct (device_serial (config w)) as [s0|] eqn:Hs.
  - destruct (String.eqb s0 "") eqn:He; cbn [negb]; intros [= <- <-];
      cbn; auto.
  - intros [= <- <-]. cbn. auto.
Qed.

(** ** Registration *)

Lemma register_device_returns (answer : option RegisterResponse) (w : World) :
  exists registered, fst (register_device answer w) = Ok registered.
Proof.
  unfold register_device, try_except.
  match goal with
  | |- context [match ?m w with _ => _ end] => destruct (m w) as [[b|e] w']
  end; eexists; reflexivity.
Qed.

(** [register_device] returns [True] only when the credential of the
    response is in memory and [device.conf] holds the attributes that are in
    memory; and it never raises. *)
Theorem register_device_true_means_persisted
        (answer : option RegisterResponse) (w : World) :
  fst (register_device answer w) = Ok true ->
  let w' := snd (register_device answer w) in
  (exists data new_id new_token,
     answer = Some (mkRegisterResponse 200 (Some data)) /\
     rd_device_id data = Some new_id /\
     rd_device_token data = Some new_token /\
     device_id (config w') = new_id /\
     device_token (config w') = new_token) /\
  device_conf (disk w') = Some (device_conf_of (config w')) /\
  (exists serial, device_serial (config w') = Some serial /\
                  fst (get_serial_number w) = Ok serial) /\
  forall answer0 w0, exists registered,
    fst (register_device answer0 w0) = Ok registered.
Proof.
  cbv zeta. unfold register_device at 1 2 3 4 5 6, try_except.
  match goal with
  | |- context [match ?m w with _ => _ end] =>
      destruct (m w) as [[b|e] w'] eqn:Hbody
  end; cbn [fst snd]; [|discriminate].
  intros [= ->].
  apply bind_returned in Hbody. destruct Hbody as [serial [w1 [Hget H]]].
  apply bind_returned in H. destruct H as [c [w1' [Hc H]]].
  unfold gets in Hc. injection Hc as <- <-.
  apply bind_returned in H. destruct H as [u [w2 [Hpost H]]].
  unfold modify in Hpost. injection Hpost as _ <-.
  destruct answer as [[code body]|]; [|discriminate].
  cbn [rr_status_code rr_json_body] in H.
  destruct (code =? 200) eqn:Hcode; [|discriminate].
  apply Z.eqb_eq in Hcode. subst code.
  destruct body as [data|]; [|discriminate].
  destruct (rd_device_id data) as [new_id|] eqn:Hid; [|discriminate].
  apply bind_returned in H. destruct H as [u1 [w3 [H3 H]]].
  apply set_config_returned in H3.
  apply bind_returned in H. destruct H as [u2 [w4 [H4 H]]].
  apply set_config_returned in H4.
  destruct (rd_device_token data) as [new_token|] eqn:Htok; [|discriminate].
  apply bind_returned in H. destruct H as [u3 [w5 [H5 H]]].
  apply set_config_returned in H5.
  apply bind_returned in H. destruct H as [u4 [w6 [H6 H]]].
  apply set_config_returned in H6.
  apply bind_returned in H. destruct H as [u5 [w7 [Hsave H]]].
  unfold ret in H. injection H as <-.
  apply save_device_config_returned in Hsave. destruct Hsave as [Hconf Hcfg].
  apply get_serial_number_returned in Hget as Hserial.
  subst w3 w4 w5 w6. cbn [config disk env posted] in *.
  split.
  { exists data, new_id, new_token. rewrite Hcfg. cbn. auto. }
  split; [now rewrite Hcfg|].
  split; [exists serial; rewrite Hcfg, Hget; cbn; auto|].
  intros answer0 w0. apply register_device_returns.
Qed.

(** ** Provisioning by the telemetry agent *)

Lemma send_initial_heartbeat_returns (telemetry : json) (w : World) :
  exists token w', BatchSync.send_initial_heartbeat telemetry w = (Ok token, w').
Proof.
  unfold BatchSync.send_initial_heartbeat, try_except.
  match goal with
  | |- context [match ?m w with _ => _ end] => destruct (m w) as [[b|e] w']
  end; eexists _, _; reflexivity.
Qed.

Lemma session_post_returned (url : string) (body : dict) (w w' : World)
      (response : Response) :
  session_post url body w = (Ok response, w') ->
  hd None (posts (env w)) = Some response /\ config w' = config w.
Proof.
  unfold session_post, next_post, set_env, bind, modify, gets, ret, raise.
  cbn [fst snd env posts].
  destruct (hd None (posts (env w))) as [r|]; [|discriminate].
  intros [= <- <-]. auto.
Qed.

Lemma session_post_keeps_config (url : string) (body : dict) (w : World) :
  config (snd (session_post url body w)) = config w.
Proof.
  unfold session_post, next_post, set_env, bind, modify, gets, ret, raise.
  cbn [fst snd env posts].
  now destruct (hd None (posts (env w))).
Qed.

(** The token [send_initial_heartbeat] returns is that of a 200 response,
    and is not empty; the credential in memory is not touched. *)
Lemma send_initial_heartbeat_spec (telemetry : json) (w w' : World)
      (result : option string) :
  BatchSync.send_initial_heartbeat telemetry w = (Ok result, w') ->
  device_token (config w') = device_token (config w) /\
  forall token, result = Some token ->
    String.eqb token "" = false /\
    exists data, hd None (posts (env w)) = Some (mkResponse 200 (Some data)) /\
                 hb_device_token data = Some (Some token).
Proof.
  unfold BatchSync.send_initial_heartbeat, try_except.
  match goal with
  | |- context [match ?m w with _ => _ end] =>
      destruct (m w) as [[b|e] w1] eqn:Hbody
  end.
  - intros [= <- <-].
    apply bind_returned in Hbody. destruct Hbody as [ts [w2 [Hts H]]].
    unfold _get_timestamp, gets in Hts. injection Hts as _ <-.
    apply bind_returned in H. destruct H as [c [w3 [Hc H]]].
    unfold gets in Hc. injection Hc as <- <-.
    apply bind_returned in H. destruct H as [serial [w4 [Hget H]]].
    apply get_serial_number_returned in Hget.
    destruct Hget as [_ [Htok [_ Henv]]].
    apply bind_returned in H. destruct H as [response [w5 [Hpost H]]].
    apply session_post_returned in Hpost. destruct Hpost as [Hhd Hcfg].
    rewrite Henv in Hhd.
    assert (Hkeep : device_token (config w5) = device_token (config w))
      by now rewrite Hcfg.
    destruct response as [code body]. cbn [status_code json_body] in H.
    destruct (code =? 200) eqn:Hcode.
    + apply Z.eqb_eq in Hcode. subst code.
      destruct body as [data|]; [|discriminate].
      destruct (hb_device_token data) as [[token|]|] eqn:Hdata.
      * destruct (String.eqb token "") eqn:He; cbn [negb] in H;
          unfold ret in H; injection H as <- <-; (split; [exact Hkeep|]);
          intros token' [= <-].
        split; [exact He|]. exists data. auto.
      * unfold ret in H. injection H as <- <-. split; [exact Hkeep|]. discriminate.
      * unfold ret in H. injection H as <- <-. split; [exact Hkeep|]. discriminate.
    + unfold ret in H. injection H as <- <-. split; [exact Hkeep|]. discriminate.
  - unfold ret. intros [= <- <-]. split; [|discriminate].
    (* the request raised: only the serial and the script were touched *)
    revert Hbody. unfold bind, _get_timestamp, gets. cbn [fst snd].
    destruct (get_serial_number w) as [[serial|e0] w2] eqn:Hget.
    + apply get_serial_number_returned in Hget. destruct Hget as [_ [Htok _]].
      match goal with
      | |- context [session_post ?u ?p w2] =>
          pose proof (session_post_keeps_config u p w2) as Hp;
          destruct (session_post u p w2) as [[response|e1] w3]
      end; cbn [snd] in Hp.
      * destruct (status_code response =? 200);
          [destruct (json_body response) as [data|];
           [destruct (hb_device_token data) as [[token|]|];
            [destruct (negb (String.eqb token ""))|..]|]|];
          unfold ret, raise; intros [= _ <-]; now rewrite Hp.
      * intros [= _ <-]. now rewrite Hp.
    + exfalso. revert Hget.
      unfold get_serial_number, set_config, bind, modify, gets, ret. cbn [fst snd].
      destruct (device_serial (config w)) as [s0|];
        [destruct (negb (String.eqb s0 ""))|]; discriminate.
Qed.

(** The initial heartbeat of a device without a credential stores no empty
    one.  The branch of the telemetry agent's main loop for a device that is
    not registered leaves such a device without a credential or with the
    non-empty token of a 200 response, whatever the backend answers and
    whether the file can be saved.  Nothing is said here of a device that
    is registered: its heartbeat tests nothing of the token it is given. *)
Theorem provision_never_stores_empty_credential (telemetry : json) (w : World) :
  device_token (config w) = None ->
  let w' := snd (BatchSync.provision telemetry w) in
  (device_token (config w') = None \/ has_token (config w') = true) /\
  (forall token, device_token (config w') = Some token ->
     exists data, hd None (posts (env w)) = Some (mkResponse 200 (Some data)) /\
                  hb_device_token data = Some (Some token)).
Proof.
  intros Hnone. cbv zeta. unfold BatchSync.provision, bind.
  destruct (send_initial_heartbeat_returns telemetry w) as [result [w1 Hsend]].
  rewrite Hsend.
  destruct (send_initial_heartbeat_spec _ _ Hsend) as [Hkeep Hresult].
  rewrite Hnone in Hkeep.
  destruct result as [token|]; cbn [snd].
  - destruct (Hresult token eq_refl) as [Hne Hdata].
    assert (Hcfg : config (snd (save_device_config
                     (mkWorld (set_device_token (Some token) (config w1))
                              (disk w1) (env w1) (posted w1) (got w1)))) =
                   set_device_token (Some token) (config w1)).
    { refine (@AgentFacts.keeps_save_device_config _ config _ _ _);
        reflexivity. }
    unfold set_config, modify. cbn [fst snd].
    match goal with
    | |- context [save_device_config ?x] =>
        destruct (save_device_config x) as [[u|e] w2]
    end; cbn [snd] in *; rewrite Hcfg; unfold has_token; cbn; rewrite Hne;
      (split; [now right|intros token' [= <-]; exact Hdata]).
  - unfold ret. cbn [snd]. split; [now left|]. rewrite Hkeep. discriminate.
Qed.

(** ** The statements at work *)

Import AgentExamples.

Lemma event_configuration_stays_coherent_witness :
  cache_coherent (registered_world None) /\
  cache_coherent (snd (send_heartbeat toy_hmac (registered_world None))) /\
  cache_coherent (snd (wipe_device_data (registered_world None))).
Proof.
  assert (H : cache_coherent (registered_world None)) by (split; reflexivity).
  destruct (@event_configuration_stays_coherent toy_hmac (registered_world None) H)
    as [H1 [_ [_ [_ H5]]]].
  auto.
Defined.

Lemma load_restores_what_was_saved_witness :
  exists c, fst (load (registered_world None)) = Ok c /\ c = registered_config.
Proof.
  assert (H : cache_coherent (registered_world None)) by (split; reflexivity).
  destruct (@load_restores_what_was_saved (registered_world None) H eq_refl)
    as [c [H1 [_ [_ H4]]]].
  exists c. split; [exact H1|]. apply H4. reflexivity.
Defined.

Lemma register_device_true_means_persisted_witness :
  let answer := Some (mkRegisterResponse 200
                        (Some (mkRegisterData (Some (Some 17)) (Some (Some "T1"))
                                              None None))) in
  let w' := snd (register_device answer (fresh_world None)) in
  fst (register_device answer (fresh_world None)) = Ok true /\
  device_conf (disk w') = Some (device_conf_of (config w')) /\
  device_token (config w') = Some "T1".
Proof.
  cbv zeta. split; [reflexivity|].
  destruct (@register_device_true_means_persisted
              (Some (mkRegisterResponse 200
                       (Some (mkRegisterData (Some (Some 17)) (Some (Some "T1"))
                                             None None))))
              (fresh_world None) eq_refl) as [_ [H _]].
  split; [exact H|reflexivity].
Defined.

Lemma provision_never_stores_empty_credential_witness :
  let answer := mkResponse 200 (Some (mkHeartbeatData (Some (Some "")) None None [])) in
  let w' := snd (BatchSync.provision telemetry (fresh_world (Some answer))) in
  device_token (config w') = None \/ has_token (config w') = true.
Proof.
  cbv zeta.
  apply (@provision_never_stores_empty_credential telemetry
           (fresh_world (Some (mkResponse 200
              (Some (mkHeartbeatData (Some (Some "")) None None [])))))
           eq_refl).
Defined.

End ConfigLoadFacts.
(* ================================================================== *)
(** * The management agent: serial, commands, radio file, signatures *)
(* ================================================================== *)

Module AgentMoreFacts.

Import Json Text Config Datetime ManagementAgent.

(** ** The serial number *)

Lemma generated_serial_shape (e : Env) :
  String.eqb (generated_serial e) "" = false /\
  String.prefix "CS-SHAKA-V1-" (generated_serial e) = true.
Proof.
  unfold generated_serial. destruct (cpu_serial e); simpl.
  - split; [reflexivity|]. now destruct (last3 s).
  - split; [reflexivity|]. now destruct (pad 3 (random_suffix e)).
Qed.

(** The serial number is fixed once it was asked for.  [get_serial_number]
    never raises and returns a serial that is not empty; a configured serial
    is returned as it is, and a serial it has to make up starts with
    [CS-SHAKA-V1-] and is kept in memory, so that every later call returns
    the same serial whatever [/proc/cpuinfo] and the random source give
    then.  The files are not touched. *)
Theorem get_serial_number_is_stable (w : World) :
  exists serial,
    fst (get_serial_number w) = Ok serial /\
    String.eqb serial "" = false /\
    device_serial (config (snd (get_serial_number w))) = Some serial /\
    disk (snd (get_serial_number w)) = disk w /\
    (forall w2, config w2 = config (snd (get_serial_number w)) ->
                get_serial_number w2 = (Ok serial, w2)) /\
    (forall s, device_serial (config w) = Some s -> String.eqb s "" = false ->
               serial = s /\ snd (get_serial_number w) = w) /\
    (device_serial (config w) = None \/ device_serial (config w) = Some "" ->
     String.prefix "CS-SHAKA-V1-" serial = true).
Proof.
  destruct (generated_serial_shape (env w)) as [Hne Hpre].
  assert (Hagain : forall serial c w2,
            device_serial c = Some serial ->
            String.eqb serial "" = false ->
            config w2 = c -> get_serial_number w2 = (Ok serial, w2)).
  { intros serial c w2 Hs Hn Hc. unfold get_serial_number, bind, gets, ret.
    cbn [fst snd]. now rewrite Hc, Hs, Hn. }
  assert (Hmade : device_serial (config w) = None \/
                  device_serial (config w) = Some "" ->
                  get_serial_number w =
                  (Ok (generated_serial (env w)),
                   mkWorld (set_device_serial (Some (generated_serial (env w)))
                                              (config w))
                           (disk w) (env w) (posted w) (got w))).
  { unfold get_serial_number, set_config, bind, modify, gets, ret. cbn [fst snd].
    intros [H|H]; rewrite H; reflexivity. }
  destruct (device_serial (config w)) as [s0|] eqn:Hs.
  - destruct (String.eqb s0 "") eqn:He.
    + apply String.eqb_eq in He. subst s0. rewrite Hmade by now right.
      exists (generated_serial (env w)). cbn [fst snd config disk].
      split; [reflexivity|]. split; [exact Hne|]. split; [reflexivity|].
      split; [reflexivity|]. split.
      { intros w2 Hc. eapply Hagain; [|exact Hne|exact Hc]. reflexivity. }
      split; [|intros _; exact Hpre].
      intros s1 Hs1 Hn. inversion Hs1; subst s1. discriminate.
    + rewrite (Hagain s0 (config w) w Hs He eq_refl).
      exists s0. cbn [fst snd].
      split; [reflexivity|]. split; [exact He|]. split; [exact Hs|].
      split; [reflexivity|]. split.
      { intros w2 Hc. eapply Hagain; [exact Hs|exact He|exact Hc]. }
      split.
      { intros s1 Hs1 _. inversion Hs1. split; reflexivity. }
      intros [H|H]; [discriminate|]. inversion H; subst s0. discriminate.
  - rewrite Hmade by now left.
    exists (generated_serial (env w)). cbn [fst snd config disk].
    split; [reflexivity|]. split; [exact Hne|]. split; [reflexivity|].
    split; [reflexivity|]. split.
    { intros w2 Hc. eapply Hagain; [|exact Hne|exact Hc]. reflexivity. }
    split; [|intros _; exact Hpre].
    intros s1 Hs1 Hn. discriminate.
Qed.

(** ** Remote commands *)

(** What [fetch_configuration] sends: on a registered device one GET to
    the configuration endpoint of the backend, with the credential as its
    query parameter; nothing otherwise. *)
Lemma fetch_configuration_got (w : World) :
  got (snd (fetch_configuration w)) =
  match device_token (config w) with
  | Some token =>
      ((backend_url (config w) ++ "/api/v1/devices/config")%string,
       [("device_token", JStr token)]) :: got w
  | None => got w
  end.
Proof.
  unfold fetch_configuration, session_get, next_fetch, set_env, is_registered,
    try_except, bind, modify, gets, ret, raise.
  cbn [fst snd config]. destruct (device_token (config w)) as [token|];
    [|reflexivity].
  cbn [negb fst snd env fetches got].
  destruct (hd None (fetches (env w))) as [response|]; [|reflexivity].
  destruct (cr_status_code response =? 200); [|reflexivity].
  now destruct (cr_json_body response) as [[cfg|]|].
Qed.

Lemma got_cache_configuration (cfg : EventConfig) (w : World) :
  got (snd (cache_configuration cfg w)) = got w.
Proof.
  refine (@AgentFacts.keeps_cache_configuration _ got _ _ _ cfg w);
    reflexivity.
Qed.

Lemma got_handle_restart (w : World) : got (snd (_handle_restart w)) = got w.
Proof.
  assert (Hrun : AgentFacts.keeps got run_checked).
  { unfold run_checked. apply AgentFacts.keeps_bind.
    - refine (@AgentFacts.keeps_next_proc _ got _); reflexivity.
    - intros [rc| |]; [destruct (rc =? 0)| |];
        first [apply AgentFacts.keeps_ret|apply AgentFacts.keeps_raise]. }
  unfold _handle_restart.
  refine (AgentFacts.keeps_try_except _ _ _ w).
  - repeat (apply AgentFacts.keeps_bind; [exact Hrun|intros _]).
    apply AgentFacts.keeps_ret.
  - intros e. apply AgentFacts.keeps_ret.
Qed.

Lemma got_handle_wipe (w : World) : got (snd (_handle_wipe w)) = got w.
Proof.
  unfold _handle_wipe.
  refine (AgentFacts.keeps_try_except _ _ _ w).
  - apply AgentFacts.keeps_bind; [|intros _; apply AgentFacts.keeps_ret].
    refine (@AgentFacts.keeps_wipe_device_data _ got _ _ _ _ _); reflexivity.
  - intros e. apply AgentFacts.keeps_ret.
Qed.

(** A remote command is contained.  [process_command] never changes the
    serial, the radio name in memory, the backend URL, the hostapd file or
    the list of POST requests sent.  A command that is no dict raises
    [AttributeError] and changes nothing.  A command that is a dict never
    raises; [config_refresh] on a device with a credential sends one GET to
    the configuration endpoint with the credential as its query parameter,
    and no other command sends any request; a command of a type it does not
    know, or of no type, is answered with [error] and changes nothing at
    all, and so is a firmware update. *)
Theorem process_command_is_contained (command : Command) (w : World) :
  let w' := snd (process_command command w) in
  device_serial (config w') = device_serial (config w) /\
  wifi_ssid (config w') = wifi_ssid (config w) /\
  backend_url (config w') = backend_url (config w) /\
  hostapd_conf (disk w') = hostapd_conf (disk w) /\
  posted w' = posted w /\
  match command with
  | not_a_dict => process_command command w = (Raise AttributeError, w)
  | mkCommand command_type firmware_url =>
      (exists status, fst (process_command command w) = Ok status) /\
      got w' =
        match command_type, device_token (config w) with
        | Some ty, Some token =>
            if String.eqb ty "config_refresh"
            then ((backend_url (config w) ++ "/api/v1/devices/config")%string,
                  [("device_token", JStr token)]) :: got w
            else got w
        | _, _ => got w
        end /\
      (match command_type with
       | Some ty => String.eqb ty "config_refresh" = false /\
                    String.eqb ty "restart" = false /\
                    String.eqb ty "wipe" = false
       | None => True
       end -> process_command command w = (Ok error, w))
  end.
Proof.
  cbv zeta.
  split; [refine (@AgentFacts.keeps_process_command
                    _ (fun w0 => device_serial (config w0)) _ _ _ _ _ _
                    command w);
          reflexivity|].
  split; [refine (@AgentFacts.keeps_process_command
                    _ (fun w0 => wifi_ssid (config w0)) _ _ _ _ _ _ command w);
          reflexivity|].
  split; [refine (@AgentFacts.keeps_process_command
                    _ (fun w0 => backend_url (config w0)) _ _ _ _ _ _
                    command w);
          reflexivity|].
  split; [refine (@AgentFacts.keeps_process_command
                    _ (fun w0 => hostapd_conf (disk w0)) _ _ _ _ _ _ command w);
          reflexivity|].
  split; [refine (@AgentFacts.keeps_process_command
                    _ posted _ _ _ _ _ _ command w); reflexivity|].
  destruct command as [command_type firmware_url|]; [|reflexivity].
  split; [|split].
  - unfold process_command, try_except.
    match goal with
    | |- context [match ?m w with _ => _ end] => destruct (m w) as [[b|e] w']
    end; eexists; reflexivity.
  - unfold process_command.
    assert (Hret : forall (m : IO command_status),
              got (snd (try_except m (fun _ => ret error) w)) = got (snd (m w))).
    { intros m. unfold try_except, ret. now destruct (m w) as [[b|e] w']. }
    rewrite Hret. clear Hret.
    destruct command_type as [ty|];
      [|now destruct (device_token (config w))].
    destruct (String.eqb ty "config_refresh").
    { unfold _handle_config_refresh, bind.
      pose proof (fetch_configuration_got w) as Hgot.
      destruct (fetch_configuration w) as [[[cfg|]|e] w1]; cbn [fst snd] in *.
      - unfold ret. assert (Hc := got_cache_configuration cfg w1).
        destruct (cache_configuration cfg w1) as [[b|e] w2]; cbn [snd] in *;
          rewrite Hc, Hgot; now destruct (device_token (config w)).
      - unfold ret. cbn [snd]. rewrite Hgot.
        now destruct (device_token (config w)).
      - rewrite Hgot. now destruct (device_token (config w)). }
    destruct (String.eqb ty "restart");
      [rewrite got_handle_restart; now destruct (device_token (config w))|].
    destruct (String.eqb ty "wipe");
      [rewrite got_handle_wipe; now destruct (device_token (config w))|].
    destruct (String.eqb ty "update_firmware"); unfold _handle_firmware_update, ret;
      cbn [snd]; now destruct (device_token (config w)).
  - unfold process_command, _handle_firmware_update, try_except, ret.
    destruct command_type as [ty|]; [|reflexivity].
    intros [H1 [H2 H3]]. rewrite H1, H2, H3.
    now destruct (String.eqb ty "update_firmware").
Qed.

(** A [config_refresh] on the provisioned device sends its credential to
    the configuration endpoint, and a command that is no dict raises. *)
Example process_command_sends_the_credential :
  got (snd (process_command (mkCommand (Some "config_refresh") None)
              (AgentExamples.registered_world None))) =
  [((DEFAULT_BACKEND_URL ++ "/api/v1/devices/config")%string,
    [("device_token", JStr "T1")])] /\
  fst (process_command not_a_dict (AgentExamples.registered_world None)) =
  Raise AttributeError.
Proof. split; reflexivity. Qed.

(** ** The radio file *)

(** Without an [ssid=] line there is nothing to apply.  When the hostapd
    file is missing, or holds no line that starts with [ssid=],
    [apply_ssid_configuration] returns [False] whatever the file system
    does; the files and the configuration are what they were and hostapd is
    not restarted. *)
Theorem apply_ssid_configuration_needs_an_ssid_line (s : string) (w : World) :
  match hostapd_conf (disk w) with
  | Some text => existsb is_ssid_line (readlines text) = false
  | None => True
  end ->
  fst (apply_ssid_configuration s w) = Ok false /\
  disk (snd (apply_ssid_configuration s w)) = disk w /\
  config (snd (apply_ssid_configuration s w)) = config w /\
  procs (env (snd (apply_ssid_configuration s w))) = procs (env w).
Proof.
  intros H.
  unfold apply_ssid_configuration, read_hostapd, replace_ssid, next_io, set_env,
    try_except, bind, modify, gets, ret, raise. cbn [fst snd].
  destruct (hd IoOk (io (env w))); cbn [fst snd io_exn disk]; auto.
  destruct (hostapd_conf (disk w)) as [text|]; cbn [fst snd]; auto.
  rewrite H. cbn [negb fst snd]. auto.
Qed.

Lemma apply_ssid_configuration_needs_an_ssid_line_witness :
  fst (apply_ssid_configuration "EventNet2"
         (AgentExamples.scripted_world "interface=wlan0" [] [])) = Ok false /\
  disk (snd (apply_ssid_configuration "EventNet2"
               (AgentExamples.scripted_world "interface=wlan0" [] []))) =
  disk (AgentExamples.scripted_world "interface=wlan0" [] []).
Proof.
  destruct (@apply_ssid_configuration_needs_an_ssid_line
              "EventNet2" (AgentExamples.scripted_world "interface=wlan0" [] [])
              eq_refl) as [H1 [H2 _]].
  split; [exact H1|exact H2].
Defined.

(** ** Canonical JSON and the signature *)

Lemma key_leb_antisym (a b : string * string) :
  key_leb a b = true -> key_leb b a = true -> fst a = fst b.
Proof.
  unfold key_leb, String.leb.
  destruct (String.compare (fst a) (fst b)) eqn:E.
  - intros _ _. now apply String.compare_eq_iff.
  - intros _. rewrite String.compare_antisym, E. discriminate.
  - discriminate.
Qed.

Lemma key_leb_total (a b : string * string) :
  key_leb a b = true \/ key_leb b a = true.
Proof. apply String.leb_total. Qed.

Lemma key_leb_trans (a b c : string * string) :
  key_leb a b = true -> key_leb b c = true -> key_leb a c = true.
Proof. apply TextOrder.leb_trans. Qed.

(** Members in key order, with no key twice, are in one order only. *)
Lemma members_in_key_order_unique (l1 : list (string * string)) :
  forall l2,
    Permutation l1 l2 -> NoDup (map fst l1) ->
    StronglySorted (fun a b => key_leb a b = true) l1 ->
    StronglySorted (fun a b => key_leb a b = true) l2 ->
    l1 = l2.
Proof.
  induction l1 as [|a l1 IH]; intros l2 Hp Hnd H1 H2.
  - now apply Permutation_nil in Hp.
  - destruct l2 as [|b l2].
    { apply Permutation_sym, Permutation_nil in Hp. discriminate. }
    inversion H1 as [|? ? H1' Ha]; subst. inversion H2 as [|? ? H2' Hb]; subst.
    inversion Hnd as [|? ? Hnot Hnd']; subst.
    assert (Hab : a = b).
    { assert (Hin_a : In a (b :: l2))
        by (eapply Permutation_in; [exact Hp|now left]).
      assert (Hin_b : In b (a :: l1))
        by (eapply Permutation_in; [apply Permutation_sym; exact Hp|now left]).
      destruct Hin_a as [E|Hin_a]; [now symmetry|].
      destruct Hin_b as [E|Hin_b]; [exact E|].
      exfalso. apply Hnot.
      rewrite Forall_forall in Ha, Hb.
      rewrite (key_leb_antisym a b (Ha b Hin_b) (Hb a Hin_a)).
      now apply in_map. }
    subst b. f_equal. apply IH; auto.
    now apply Permutation_cons_inv in Hp.
Qed.

Lemma rendered_keys (f : json -> string) (d : dict) :
  map fst (map (fun kv : string * json =>
                  match kv with (k, v) => (k, f v) end) d) = map fst d.
Proof. induction d as [|[k v] d IH]; simpl; [reflexivity|]. now rewrite IH. Qed.

(** The signature does not depend on the order in which the members of the
    payload were inserted: two dicts with the same members, no key twice,
    have the same canonical JSON, and [_sign_request] gives the same result
    for both. *)
Theorem signature_ignores_insertion_order
        (hmac : string -> string -> string) (d1 d2 : dict) (w : World) :
  NoDup (map fst d1) -> Permutation d1 d2 ->
  dumps_canonical (JDict d1) = dumps_canonical (JDict d2) /\
  _sign_request hmac d1 w = _sign_request hmac d2 w.
Proof.
  intros Hnd Hp.
  assert (Hd : dumps_canonical (JDict d1) = dumps_canonical (JDict d2)).
  { set (f := fun kv : string * json =>
                match kv with (k, v) => (k, dumps_canonical v) end).
    assert (Hord : order_by key_leb (map f d1) = order_by key_leb (map f d2));
      [|simpl; unfold f in Hord; rewrite Hord; reflexivity].
    apply members_in_key_order_unique.
    - eapply Permutation_trans;
        [apply Permutation_sym, order_by_perm|].
      eapply Permutation_trans; [|apply order_by_perm].
      now apply Permutation_map.
    - eapply Permutation_NoDup.
      + apply Permutation_map. apply order_by_perm.
      + unfold f. now rewrite rendered_keys.
    - apply order_by_sorted; [apply key_leb_total|apply key_leb_trans].
    - apply order_by_sorted; [apply key_leb_total|apply key_leb_trans]. }
  split; [exact Hd|].
  unfold _sign_request, bind, gets, ret, raise. cbn [fst snd].
  destruct (device_token (config w)) as [token|]; [|reflexivity].
  destruct (String.eqb token ""); [reflexivity|]. now rewrite Hd.
Qed.

Lemma signature_ignores_insertion_order_witness :
  dumps_canonical (JDict [("timestamp", JStr "t"); ("device_token", JStr "T1")]) =
  dumps_canonical (JDict [("device_token", JStr "T1"); ("timestamp", JStr "t")]).
Proof.
  apply (@signature_ignores_insertion_order AgentExamples.toy_hmac
           [("timestamp", JStr "t"); ("device_token", JStr "T1")]
           [("device_token", JStr "T1"); ("timestamp", JStr "t")]
           (AgentExamples.registered_world None)).
  - repeat constructor; simpl; intuition discriminate.
  - apply perm_swap.
Defined.

End AgentMoreFacts.
(* ================================================================== *)
(** * Timestamps: the order of the text and the order of time *)
(* ================================================================== *)

Module ChronologyFacts.

Import Datetime Chronology.

(** ** Strings *)

Lemma lexi_eq_r (c : comparison) : lexi c Eq = c.
Proof. now destruct c. Qed.

Lemma compare_app (x : string) :
  forall y s t,
    String.length x = String.length y ->
    String.compare (x ++ s) (y ++ t) = lexi (String.compare x y) (String.compare s t).
Proof.
  induction x as [|a x IH]; intros [|b y] s t H; simpl in *; try discriminate.
  - reflexivity.
  - destruct (Ascii.compare a b); try reflexivity. apply IH. now injection H.
Qed.

Lemma compare_cons (c : ascii) (s t : string) :
  String.compare (String c s) (String c t) = String.compare s t.
Proof. simpl. now rewrite TextOrder.ascii_compare_refl. Qed.

Lemma length_app (a b : string) :
  String.length (a ++ b) = (String.length a + String.length b)%nat.
Proof. induction a as [|c a IH]; simpl; [reflexivity|]. now rewrite IH. Qed.

(** ** Digits *)

Lemma dec_length (w : nat) : forall n, String.length (dec w n) = w.
Proof.
  induction w as [|w IH]; intros n; simpl; [reflexivity|].
  rewrite length_app, IH. simpl. lia.
Qed.

Lemma digit_char_code (k : N) :
  (k < 10)%N -> N_of_ascii (digit_char k) = (48 + k)%N.
Proof. intros H. unfold digit_char. apply N_ascii_embedding. lia. Qed.

Lemma compare_digit (a b : N) :
  (a < 10)%N -> (b < 10)%N ->
  String.compare (String (digit_char a) "") (String (digit_char b) "") = (a ?= b)%N.
Proof.
  intros Ha Hb. simpl. unfold Ascii.compare. rewrite !digit_char_code by assumption.
  destruct (N.compare_spec (48 + a) (48 + b)), (N.compare_spec a b);
    try reflexivity; lia.
Qed.

Lemma compare_tens (qa ra qb rb : N) :
  (ra < 10)%N -> (rb < 10)%N ->
  (10 * qa + ra ?= 10 * qb + rb)%N = lexi (qa ?= qb)%N (ra ?= rb)%N.
Proof.
  intros Ha Hb.
  destruct (N.compare_spec qa qb) as [Hq|Hq|Hq]; cbn [lexi].
  - destruct (N.compare_spec ra rb) as [Hr|Hr|Hr];
      [apply N.compare_eq_iff|apply N.compare_lt_iff|apply N.compare_gt_iff]; lia.
  - apply N.compare_lt_iff. lia.
  - apply N.compare_gt_iff. lia.
Qed.

Lemma compare_div_mod (a b : N) :
  (a ?= b)%N = lexi (a / 10 ?= b / 10)%N (a mod 10 ?= b mod 10)%N.
Proof.
  transitivity (10 * (a / 10) + a mod 10 ?= 10 * (b / 10) + b mod 10)%N.
  - f_equal; apply N.div_mod; discriminate.
  - apply compare_tens; apply N.mod_lt; discriminate.
Qed.

Lemma div_10_bound (w : nat) (n : N) :
  (n < pow10 (S w))%N -> (n / 10 < pow10 w)%N.
Proof. intros H. apply N.Div0.div_lt_upper_bound. exact H. Qed.

(** On numbers of [w] digits, the order of the digits is that of the
    numbers. *)
Lemma dec_compare (w : nat) :
  forall a b, (a < pow10 w)%N -> (b < pow10 w)%N ->
              String.compare (dec w a) (dec w b) = (a ?= b)%N.
Proof.
  induction w as [|w IH]; intros a b Ha Hb.
  - simpl in *. assert (a = 0%N) by lia. assert (b = 0%N) by lia. now subst.
  - cbn [dec]. rewrite compare_app by now rewrite !dec_length.
    rewrite IH by now apply div_10_bound.
    rewrite compare_digit by (apply N.mod_lt; discriminate).
    symmetry. apply compare_div_mod.
Qed.

(** ** [pad] prints these digits *)

Lemma ten_cases (k : N) :
  (k < 10)%N ->
  (k = 0 \/ k = 1 \/ k = 2 \/ k = 3 \/ k = 4 \/ k = 5 \/ k = 6 \/ k = 7 \/
   k = 8 \/ k = 9)%N.
Proof. lia. Qed.

Ltac each_digit H :=
  destruct (ten_cases H) as [?|[?|[?|[?|[?|[?|[?|[?|[?|?]]]]]]]]]; subst.

Lemma of_lu_push (k : N) (d : Decimal.uint) :
  (k < 10)%N ->
  DecimalPos.Unsigned.of_lu (push k d) = (k + 10 * DecimalPos.Unsigned.of_lu d)%N.
Proof. intros H. each_digit H; reflexivity. Qed.

Lemma of_lu_lu (w : nat) :
  forall n, (n < pow10 w)%N -> DecimalPos.Unsigned.of_lu (lu w n) = n.
Proof.
  induction w as [|w IH]; intros n H.
  - simpl in *. lia.
  - cbn [lu]. rewrite of_lu_push by (apply N.mod_lt; discriminate).
    rewrite IH by now apply div_10_bound.
    rewrite N.add_comm. symmetry. apply N.div_mod. discriminate.
Qed.

Lemma string_of_push (k : N) (d : Decimal.uint) :
  (k < 10)%N ->
  NilEmpty.string_of_uint (push k d) =
  String (digit_char k) (NilEmpty.string_of_uint d).
Proof. intros H. each_digit H; reflexivity. Qed.

Lemma revapp_push (k : N) (d acc : Decimal.uint) :
  (k < 10)%N ->
  Decimal.revapp (push k d) acc = Decimal.revapp d (push k acc).
Proof. intros H. each_digit H; reflexivity. Qed.

Lemma nb_digits_push (k : N) (d : Decimal.uint) :
  (k < 10)%N -> Decimal.nb_digits (push k d) = S (Decimal.nb_digits d).
Proof. intros H. each_digit H; reflexivity. Qed.

Lemma nb_digits_lu (w : nat) : forall n, Decimal.nb_digits (lu w n) = w.
Proof.
  induction w as [|w IH]; intros n; [reflexivity|].
  cbn [lu]. rewrite nb_digits_push by (apply N.mod_lt; discriminate).
  now rewrite IH.
Qed.

Lemma string_of_revapp_lu (w : nat) :
  forall n acc,
    NilEmpty.string_of_uint (Decimal.revapp (lu w n) acc) =
    (dec w n ++ NilEmpty.string_of_uint acc)%string.
Proof.
  induction w as [|w IH]; intros n acc; [reflexivity|].
  cbn [lu dec]. rewrite revapp_push by (apply N.mod_lt; discriminate).
  rewrite IH, string_of_push by (apply N.mod_lt; discriminate).
  now rewrite TextFacts.append_assoc.
Qed.

Lemma string_of_uint_length (d : Decimal.uint) :
  String.length (NilEmpty.string_of_uint d) = Decimal.nb_digits d.
Proof. induction d; simpl; congruence. Qed.

Lemma zeros_succ (k : nat) : zeros (S k) = String "0" (zeros k).
Proof. reflexivity. Qed.

(** Leading zeros put back in front of a normalised number give the digits
    it had. *)
Lemma padded_unorm (u : Decimal.uint) :
  u <> Decimal.Nil ->
  (zeros (Decimal.nb_digits u -
          String.length (NilZero.string_of_uint (Decimal.unorm u)))
   ++ NilZero.string_of_uint (Decimal.unorm u))%string =
  NilEmpty.string_of_uint u.
Proof.
  assert (Hhead : forall v : Decimal.uint,
            v <> Decimal.Nil -> Decimal.nzhead v = v ->
            (zeros (Decimal.nb_digits v -
                    String.length (NilZero.string_of_uint (Decimal.unorm v)))
             ++ NilZero.string_of_uint (Decimal.unorm v))%string =
            NilEmpty.string_of_uint v).
  { intros v Hv Hnz. unfold Decimal.unorm. rewrite Hnz.
    destruct v; try contradiction;
      unfold NilZero.string_of_uint;
      rewrite string_of_uint_length, Nat.sub_diag; reflexivity. }
  induction u as [|u IH| | | | | | | | |]; intros Hne;
    try (apply Hhead; [exact Hne|reflexivity]).
  rewrite DecimalFacts.unorm_D0.
  assert (Hcase : u = Decimal.Nil \/ u <> Decimal.Nil)
    by (destruct u; [now left|right; discriminate..]).
  destruct Hcase as [Hu|Hu'].
  - subst u. reflexivity.
  - specialize (IH Hu').
    assert (Hlen : (String.length (NilZero.string_of_uint (Decimal.unorm u))
                    <= Decimal.nb_digits u)%nat).
    { pose proof (DecimalFacts.nb_digits_unorm u Hu') as Hle.
      pose proof (DecimalFacts.unorm_nonnil u) as Hnn.
      unfold NilZero.string_of_uint.
      destruct (Decimal.unorm u); try contradiction;
        rewrite string_of_uint_length; exact Hle. }
    cbn [Decimal.nb_digits].
    rewrite Nat.sub_succ_l by exact Hlen.
    rewrite zeros_succ. cbn [append NilEmpty.string_of_uint].
    now rewrite IH.
Qed.

Lemma pad_dec (w : nat) (n : Z) :
  (0 < w)%nat -> (Z.to_N n < pow10 w)%N -> pad w n = dec w (Z.to_N n).
Proof.
  intros Hw Hm. unfold pad, digits.
  set (m := Z.to_N n) in *.
  set (u := Decimal.rev (lu w m)).
  assert (Hof : N.of_uint u = m).
  { unfold N.of_uint, u. rewrite DecimalPos.Unsigned.of_uint_alt.
    rewrite DecimalFacts.rev_rev. now apply of_lu_lu. }
  assert (Hto : N.to_uint m = Decimal.unorm u).
  { rewrite <- Hof. apply DecimalN.Unsigned.to_of. }
  assert (Hnb : Decimal.nb_digits u = w).
  { unfold u. rewrite DecimalFacts.nb_digits_rev. apply nb_digits_lu. }
  assert (Hne : u <> Decimal.Nil).
  { intros E. rewrite E in Hnb. simpl in Hnb. lia. }
  cbv zeta. rewrite Hto.
  pose proof (padded_unorm Hne) as Hp. rewrite Hnb in Hp. rewrite Hp.
  unfold u, Decimal.rev. rewrite string_of_revapp_lu. simpl.
  apply TextFacts.append_nil_r.
Qed.

(** ** Timestamps *)

Lemma days_in_month_le (y m : Z) : days_in_month y m <= 31.
Proof.
  unfold days_in_month. destruct (m =? 2); [destruct (is_leap y); lia|].
  destruct (_ || _); lia.
Qed.

(** A timestamp is made of fields of fixed width. *)
Lemma timestamp_digits (d : datetime) :
  valid d ->
  timestamp d =
  (dec 4 (Z.to_N (year d)) ++ String "-"
    (dec 2 (Z.to_N (month d)) ++ String "-"
      (dec 2 (Z.to_N (day d)) ++ String "T"
        (dec 2 (Z.to_N (hour d)) ++ String ":"
          (dec 2 (Z.to_N (minute d)) ++ String ":"
            (dec 2 (Z.to_N (second d)) ++ fraction d))))))%string.
Proof.
  intros [Hy [Hm [Hd [Hh [Hmi [Hs Hus]]]]]].
  pose proof (days_in_month_le (year d) (month d)) as Hdim.
  unfold timestamp, isoformat, fraction.
  rewrite (@pad_dec 4 (year d)) by (try lia; change (pow10 4) with 10000%N; lia).
  rewrite (@pad_dec 2 (month d)) by (try lia; change (pow10 2) with 100%N; lia).
  rewrite (@pad_dec 2 (day d)) by (try lia; change (pow10 2) with 100%N; lia).
  rewrite (@pad_dec 2 (hour d)) by (try lia; change (pow10 2) with 100%N; lia).
  rewrite (@pad_dec 2 (minute d)) by (try lia; change (pow10 2) with 100%N; lia).
  rewrite (@pad_dec 2 (second d)) by (try lia; change (pow10 2) with 100%N; lia).
  rewrite (@pad_dec 6 (microsecond d))
    by (try lia; change (pow10 6) with 1000000%N; lia).
  destruct (microsecond d =? 0);
    rewrite !TextFacts.append_assoc; cbn [append]; reflexivity.
Qed.

Lemma compare_fields (w : nat) (a b : Z) :
  0 <= a -> 0 <= b -> (Z.to_N a < pow10 w)%N -> (Z.to_N b < pow10 w)%N ->
  String.compare (dec w (Z.to_N a)) (dec w (Z.to_N b)) = (a ?= b).
Proof.
  intros Ha Hb Ha' Hb'. rewrite dec_compare by assumption.
  now apply Z2N.inj_compare.
Qed.

(** The order of two timestamps, field by field. *)
Lemma compare_timestamps (d1 d2 : datetime) :
  valid d1 -> valid d2 ->
  String.compare (timestamp d1) (timestamp d2) =
  lexi (year d1 ?= year d2)
    (lexi (month d1 ?= month d2)
       (lexi (day d1 ?= day d2)
          (lexi (hour d1 ?= hour d2)
             (lexi (minute d1 ?= minute d2)
                (lexi (second d1 ?= second d2)
                   (String.compare (fraction d1) (fraction d2))))))).
Proof.
  intros H1 H2. rewrite !timestamp_digits by assumption.
  destruct H1 as [Hy1 [Hm1 [Hd1 [Hh1 [Hmi1 [Hs1 Hus1]]]]]].
  destruct H2 as [Hy2 [Hm2 [Hd2 [Hh2 [Hmi2 [Hs2 Hus2]]]]]].
  pose proof (days_in_month_le (year d1) (month d1)).
  pose proof (days_in_month_le (year d2) (month d2)).
  repeat (rewrite compare_app by (now rewrite !dec_length);
          rewrite ?compare_cons).
  rewrite (@compare_fields 4) by (try lia; change (pow10 4) with 10000%N; lia).
  rewrite !(@compare_fields 2) by (try lia; change (pow10 2) with 100%N; lia).
  reflexivity.
Qed.

Lemma compare_fractions (d1 d2 : datetime) :
  valid d1 -> valid d2 ->
  (microsecond d1 = 0 <-> microsecond d2 = 0) ->
  String.compare (fraction d1) (fraction d2) = (microsecond d1 ?= microsecond d2).
Proof.
  intros [_ [_ [_ [_ [_ [_ Hus1]]]]]] [_ [_ [_ [_ [_ [_ Hus2]]]]]] Hshape.
  unfold fraction.
  destruct (Z.eqb_spec (microsecond d1) 0) as [E1|N1];
    destruct (Z.eqb_spec (microsecond d2) 0) as [E2|N2].
  - now rewrite E1, E2.
  - exfalso. apply N2. now apply Hshape.
  - exfalso. apply N1. now apply Hshape.
  - rewrite compare_cons, compare_app by (now rewrite !dec_length).
    rewrite (@compare_fields 6)
      by (try lia; change (pow10 6) with 1000000%N; lia).
    apply lexi_eq_r.
Qed.

(** An instant on the full second, and a later instant of that second:
    the text of the first sorts after the text of the second. *)
Lemma full_second_sorts_last (d1 d2 : datetime) :
  valid d1 -> valid d2 -> same_second d1 d2 ->
  microsecond d1 = 0 -> microsecond d2 <> 0 ->
  compare d1 d2 = Lt /\
  String.compare (timestamp d1) (timestamp d2) = Gt.
Proof.
  intros H1 H2 [Ey [Em [Ed [Eh [Emi Es]]]]] E1 N2.
  assert (Hus2 : 0 < microsecond d2).
  { destruct H2 as [_ [_ [_ [_ [_ [_ Hus2]]]]]]. lia. }
  split.
  - unfold compare. rewrite Ey, Em, Ed, Eh, Emi, Es, !Z.compare_refl, E1.
    cbn [lexi]. now apply Z.compare_lt_iff.
  - rewrite compare_timestamps by assumption.
    rewrite Ey, Em, Ed, Eh, Emi, Es, !Z.compare_refl. cbn [lexi].
    unfold fraction. rewrite E1. cbn [Z.eqb].
    destruct (Z.eqb_spec (microsecond d2) 0); [contradiction|]. reflexivity.
Qed.

(** Timestamps sort like the instants they print, but for the missing
    fraction.  For two valid instants that both have, or both lack, a
    microsecond part, the order of the texts [_get_timestamp] returns is the
    order of the instants, so [ORDER BY created_at] and [created_at < ?] are
    chronological on them.  But an instant on the full second prints without
    a fraction, and its text sorts after that of every later instant of the
    same second. *)
Theorem timestamps_sort_like_time (d1 d2 : datetime) :
  valid d1 -> valid d2 ->
  ((microsecond d1 = 0 <-> microsecond d2 = 0) ->
   String.compare (timestamp d1) (timestamp d2) = compare d1 d2 /\
   forall ty1 ty2 x1 x2 t1 t2,
     TelemetryQueue.created_leb (TelemetryQueue.inserted ty1 x1 d1 t1)
                                (TelemetryQueue.inserted ty2 x2 d2 t2) = true <->
     compare d1 d2 <> Gt) /\
  (same_second d1 d2 -> microsecond d1 = 0 -> microsecond d2 <> 0 ->
   compare d1 d2 = Lt /\
   String.compare (timestamp d1) (timestamp d2) = Gt /\
   forall ty1 ty2 x1 x2 t1 t2,
     TelemetryQueue.created_leb (TelemetryQueue.inserted ty1 x1 d1 t1)
                                (TelemetryQueue.inserted ty2 x2 d2 t2) = false).
Proof.
  intros H1 H2. split.
  - intros Hshape.
    assert (Hc : String.compare (timestamp d1) (timestamp d2) = compare d1 d2).
    { rewrite compare_timestamps, compare_fractions by assumption. reflexivity. }
    split; [exact Hc|].
    intros ty1 ty2 x1 x2 t1 t2.
    unfold TelemetryQueue.created_leb, TelemetryQueue.inserted, String.leb.
    cbn [TelemetryQueue.created_at]. fold (timestamp d1). fold (timestamp d2).
    rewrite Hc. destruct (compare d1 d2); split; congruence.
  - intros [Ey [Em [Ed [Eh [Emi Es]]]]] E1 N2.
    assert (Hus2 : 0 < microsecond d2).
    { destruct H2 as [_ [_ [_ [_ [_ [_ Hus2]]]]]]. lia. }
    assert (Hc : String.compare (timestamp d1) (timestamp d2) = Gt).
    { rewrite compare_timestamps by assumption.
      rewrite Ey, Em, Ed, Eh, Emi, Es, !Z.compare_refl. cbn [lexi].
      unfold fraction. rewrite E1. cbn [Z.eqb].
      destruct (Z.eqb_spec (microsecond d2) 0); [contradiction|]. reflexivity. }
    split; [|split; [exact Hc|]].
    + unfold compare. rewrite Ey, Em, Ed, Eh, Emi, Es, !Z.compare_refl, E1.
      cbn [lexi]. now apply Z.compare_lt_iff.
    + intros ty1 ty2 x1 x2 t1 t2.
      unfold TelemetryQueue.created_leb, TelemetryQueue.inserted, String.leb.
      cbn [TelemetryQueue.created_at]. fold (timestamp d1). fold (timestamp d2).
      now rewrite Hc.
Qed.

Lemma timestamps_sort_like_time_witness :
  String.compare (timestamp QueueExamples.noon_jan_5)
                 (timestamp QueueExamples.afternoon_jan_20) =
  compare QueueExamples.noon_jan_5 QueueExamples.afternoon_jan_20.
Proof.
  assert (H1 : valid QueueExamples.noon_jan_5) by (repeat split; vm_compute; congruence).
  assert (H2 : valid QueueExamples.afternoon_jan_20) by (repeat split; vm_compute; congruence).
  destruct (timestamps_sort_like_time H1 H2) as [H _].
  apply H. simpl. tauto.
Defined.

End ChronologyFacts.
(* ================================================================== *)
(** * The queue and the order of time *)
(* ================================================================== *)

Module QueueOrderFacts.

Import Datetime TelemetryQueue QueueExamples ChronologyExamples.
Import TelemetryQueueFacts.

(** Below capacity, with a store that answers and a rowid left, the record
    is appended. *)
Lemma enqueue_analytics_appends (self : QueueManager) (text : string) (w : World) :
  fault_free w ->
  count_type (value ANALYTICS_RECORD) (table w) < MAX_ANALYTICS_RECORDS self ->
  seq (table w) < MAX_ROWID ->
  enqueue_analytics self (Ok text) w =
  (Ok tt,
   after (after w (table w))
         (insert_item (value ANALYTICS_RECORD) (value ANALYTICS_RECORD) text
                      (Chronology.timestamp (utcnow w)) (table w))).
Proof.
  intros Hff Hroom Hrow. rewrite enqueue_analytics_eq. cbv zeta.
  rewrite (fault_free_hd Hff).
  destruct (Z.geb_spec (count_type (value ANALYTICS_RECORD) (table w))
                       (MAX_ANALYTICS_RECORDS self)) as [Hge|_]; [lia|].
  rewrite (fault_free_hd (fault_free_after (table w) Hff)).
  unfold inserting. cbn [table after].
  now rewrite insert_dumped_ok by exact Hrow.
Qed.

(** The text of the later stamp is first. *)
Lemma later_stamp_first (d1 d2 : datetime) :
  valid d1 -> valid d2 -> Chronology.same_second d1 d2 ->
  microsecond d1 = 0 -> microsecond d2 <> 0 ->
  String.leb (Chronology.timestamp d1) (Chronology.timestamp d2) = false /\
  String.leb (Chronology.timestamp d2) (Chronology.timestamp d1) = true.
Proof.
  intros H1 H2 Hs E1 N2.
  destruct (ChronologyFacts.full_second_sorts_last H1 H2 Hs E1 N2) as [_ Hgt].
  unfold String.leb. rewrite Hgt.
  rewrite String.compare_antisym, Hgt. split; reflexivity.
Qed.

(** C1, as the code has it.  Two Analytics records are enqueued in a fresh
    queue, the first on a full second and the second later in that second;
    the store answers and nothing is evicted.  [dequeue_batch] then returns
    the second record before the first: the rows are ordered by the text of
    created_at, and the stamp of a full second, printed without a fraction,
    is last among the stamps of its second. *)
Theorem dequeue_batch_returns_later_record_first
        (self : QueueManager) (w : World) (first second : string)
        (later : datetime) (batch_size : Z) :
  fault_free w -> table w = empty_table ->
  2 <= MAX_ANALYTICS_RECORDS self ->
  valid (utcnow w) -> valid later ->
  Chronology.same_second (utcnow w) later ->
  microsecond (utcnow w) = 0 -> microsecond later <> 0 ->
  2 <= batch_size <= 2 ^ 63 - 1 ->
  let w1 := snd (enqueue_analytics self (Ok first) w) in
  let w2 := snd (enqueue_analytics self (Ok second)
                   (mkWorld (table w1) (faults w1) later)) in
  Chronology.compare (utcnow w) later = Lt /\
  fst (enqueue_analytics self (Ok first) w) = Ok tt /\
  fst (enqueue_analytics self (Ok second)
         (mkWorld (table w1) (faults w1) later)) = Ok tt /\
  rows (table w2) =
    [inserted (value ANALYTICS_RECORD) first (utcnow w) (table w);
     inserted (value ANALYTICS_RECORD) second later (table w1)] /\
  fst (dequeue_batch batch_size w2) =
    Ok [(2, ANALYTICS_RECORD, second); (1, ANALYTICS_RECORD, first)].
Proof.
  intros Hff Ht Hcap Hv1 Hv2 Hsame E1 N2 Hn.
  destruct (ChronologyFacts.full_second_sorts_last Hv1 Hv2 Hsame E1 N2)
    as [Hlt _].
  destruct (later_stamp_first Hv1 Hv2 Hsame E1 N2) as [Hleb _].
  assert (H1 : enqueue_analytics self (Ok first) w =
               (Ok tt,
                after (after w (table w))
                  (insert_item (value ANALYTICS_RECORD) (value ANALYTICS_RECORD)
                     first (Chronology.timestamp (utcnow w)) (table w)))).
  { apply enqueue_analytics_appends; [exact Hff| |];
      rewrite Ht; unfold MAX_ROWID; cbn; lia. }
  cbv zeta. rewrite H1. cbn [fst snd].
  set (t1 := insert_item (value ANALYTICS_RECORD) (value ANALYTICS_RECORD)
               first (Chronology.timestamp (utcnow w)) (table w)).
  set (w1 := mkWorld (table (after (after w (table w)) t1))
                     (faults (after (after w (table w)) t1)) later).
  assert (Hff1 : fault_free w1).
  { unfold w1, fault_free. cbn [faults after].
    apply (fault_free_after t1 (fault_free_after (table w) Hff)). }
  assert (H2 : enqueue_analytics self (Ok second) w1 =
               (Ok tt,
                after (after w1 (table w1))
                  (insert_item (value ANALYTICS_RECORD) (value ANALYTICS_RECORD)
                     second (Chronology.timestamp (utcnow w1)) (table w1)))).
  { apply enqueue_analytics_appends; [exact Hff1| |];
      unfold w1, t1; rewrite Ht; unfold MAX_ROWID; cbn; lia. }
  rewrite H2. cbn [fst snd].
  split; [exact Hlt|]. split; [reflexivity|]. split; [reflexivity|].
  split.
  { unfold w1, t1. rewrite Ht. reflexivity. }
  rewrite dequeue_batch_eq. cbn [fst].
  assert (Hff2 : hd false (faults (after (after w1 (table w1))
                   (insert_item (value ANALYTICS_RECORD) (value ANALYTICS_RECORD)
                      second (Chronology.timestamp (utcnow w1)) (table w1))))
                 = false).
  { apply fault_free_hd, fault_free_after, fault_free_after, Hff1. }
  rewrite Hff2.
  assert (Hfit : fits_int64 batch_size = true).
  { unfold fits_int64. apply andb_true_iff. split; apply Z.leb_le; lia. }
  rewrite Hfit. unfold w1, t1. rewrite Ht.
  cbn [table after rows insert_item empty_table seq app utcnow value].
  cbn [order_by insert_by]. unfold priority_created_leb at 1.
  cbn [priority created_at]. rewrite Hleb.
  cbn [Z.ltb Z.eqb Z.compare Pos.compare Pos.compare_cont Pos.eqb orb andb].
  unfold sql_limit. destruct (Z.ltb_spec batch_size 0); [lia|].
  assert (Hk : exists k, Z.to_nat batch_size = S (S k)).
  { exists (Z.to_nat batch_size - 2)%nat. lia. }
  destruct Hk as [k ->]. cbn [firstn]. rewrite firstn_nil. reflexivity.
Qed.

Lemma dequeue_batch_returns_later_record_first_witness :
  Chronology.compare noon_jan_5 half_past = Lt /\
  rows (table two_stamps) = [sharp; half] /\
  fst (dequeue_batch 10 two_stamps) =
    Ok [(2, ANALYTICS_RECORD, "second"); (1, ANALYTICS_RECORD, "first")].
Proof.
  assert (Hv1 : valid noon_jan_5) by (repeat split; vm_compute; congruence).
  assert (Hv2 : valid half_past) by (repeat split; vm_compute; congruence).
  assert (Hs : Chronology.same_second noon_jan_5 half_past)
    by (repeat split; reflexivity).
  assert (Hff : fault_free fresh_queue) by constructor.
  destruct (@dequeue_batch_returns_later_record_first small_manager fresh_queue
              "first" "second" half_past 10 Hff eq_refl)
    as (Hlt & _ & _ & _ & _);
    [reflexivity|exact Hv1|exact Hv2|exact Hs|reflexivity|discriminate|lia|].
  split; [exact Hlt|]. split; reflexivity.
Defined.

(** C6, as the code has it.  The queue is at capacity and the store
    answers.

    A record that [json.dumps] refuses costs a queued record: the eviction
    is committed before the INSERT is prepared, the exception of
    [json.dumps] reaches the caller, and the Analytics count is one below
    what it was.

    And the record evicted is not the oldest when the oldest was stamped on
    a full second: of two queued Analytics records of the same second, one
    stamped on the full second and one later, the earlier one stays, and the
    record that goes has a created_at that is not after that of the later
    one as TEXT. *)
Theorem enqueue_analytics_evicts_newer_record
        (self : QueueManager) (w : World) :
  fault_free w -> wf_table (table w) -> 0 < MAX_ANALYTICS_RECORDS self ->
  MAX_ANALYTICS_RECORDS self <= count_type (value ANALYTICS_RECORD) (table w) ->
  let n := count_type (value ANALYTICS_RECORD) (table w) in
  (forall e,
     fst (enqueue_analytics self (Raise e) w) = Raise e /\
     count_type (value ANALYTICS_RECORD)
                (table (snd (enqueue_analytics self (Raise e) w))) = n - 1) /\
  (forall (text : string) (old new : Row) (d_old d_new : datetime),
     seq (table w) < MAX_ROWID ->
     In old (rows (table w)) -> In new (rows (table w)) ->
     item_type old = value ANALYTICS_RECORD ->
     item_type new = value ANALYTICS_RECORD ->
     created_at old = Chronology.timestamp d_old ->
     created_at new = Chronology.timestamp d_new ->
     valid d_old -> valid d_new -> Chronology.same_second d_old d_new ->
     microsecond d_old = 0 -> microsecond d_new <> 0 ->
     let w' := snd (enqueue_analytics self (Ok text) w) in
     Chronology.compare d_old d_new = Lt /\
     fst (enqueue_analytics self (Ok text) w) = Ok tt /\
     In old (rows (table w')) /\
     count_type (value ANALYTICS_RECORD) (table w') = n /\
     exists o,
       In o (rows (table w)) /\ ~ In o (rows (table w')) /\
       item_type o = value ANALYTICS_RECORD /\ o <> old /\
       String.leb (created_at o) (created_at new) = true).
Proof.
  intros Hff Hwf Hmax Hfull n. split.
  - intros e. rewrite enqueue_analytics_eq. cbv zeta.
    rewrite (fault_free_hd Hff).
    destruct (Z.geb_spec (count_type (value ANALYTICS_RECORD) (table w))
                         (MAX_ANALYTICS_RECORDS self)) as [_|Hlt]; [|lia].
    rewrite (fault_free_hd (fault_free_after (table w) Hff)).
    assert (Hf2 : hd false (faults (after (after w (table w))
                     (delete_oldest_of_type (value ANALYTICS_RECORD) (table w))))
                  = false).
    { apply fault_free_hd, fault_free_after, fault_free_after, Hff. }
    rewrite Hf2. unfold inserting, insert_dumped. cbn [fst snd table after].
    split; [reflexivity|].
    destruct (@oldest_of_type_exists (value ANALYTICS_RECORD) (table w))
      as [o Ho]; [lia|].
    destruct (oldest_of_type_spec _ _ Ho) as (Hin & Hty & _).
    destruct (in_split _ _ Hin) as (pre & post & Hrows).
    destruct Hwf as (Hnd & _).
    unfold delete_oldest_of_type. rewrite Ho. unfold delete_where, count_type.
    cbn [snd rows]. unfold n, count_type. rewrite Hrows.
    rewrite delete_by_id_split by (now rewrite <- Hrows).
    rewrite !filter_app, !length_app. cbn [filter].
    assert (Ho2 : has_type (value ANALYTICS_RECORD) o = true)
      by (unfold has_type; now apply Z.eqb_eq).
    rewrite Ho2. cbn [List.length]. lia.
  - intros text old new d_old d_new Hroom Hold Hnew Htold Htnew Hcold Hcnew
           Hv1 Hv2 Hsame E1 N2 w'.
    destruct (ChronologyFacts.full_second_sorts_last Hv1 Hv2 Hsame E1 N2)
      as [Hlt _].
    destruct (later_stamp_first Hv1 Hv2 Hsame E1 N2) as [Hleb _].
    destruct (@enqueue_analytics_evicts_first_by_text self text w
                Hff Hwf Hroom Hmax) as (_ & Hok & _ & Hevict).
    destruct (Hevict Hfull)
      as (pre & o & post & Hrows & Hty & Hmin & Hrows' & Hgone & Hcount).
    assert (Hne : o <> old).
    { intros ->. specialize (Hmin new Hnew Htnew).
      rewrite Hcold, Hcnew in Hmin. congruence. }
    split; [exact Hlt|]. split; [exact Hok|]. split; [|split; [exact Hcount|]].
    + fold w' in Hrows'. rewrite Hrows'. rewrite Hrows in Hold.
      apply in_app_or in Hold. rewrite app_assoc. apply in_or_app. left.
      apply in_or_app. destruct Hold as [Hold|[Hold|Hold]]; auto.
      congruence.
    + exists o. split; [rewrite Hrows; apply in_or_app; right; now left|].
      split; [exact Hgone|]. split; [exact Hty|]. split; [exact Hne|].
      now apply Hmin.
Qed.

Lemma enqueue_analytics_evicts_newer_record_witness :
  Chronology.compare noon_jan_5 half_past = Lt /\
  fst (enqueue_analytics small_manager (Ok "third") two_stamps) = Ok tt /\
  In sharp (rows (table (snd (enqueue_analytics small_manager (Ok "third")
                                two_stamps)))) /\
  ~ In half (rows (table (snd (enqueue_analytics small_manager (Ok "third")
                                 two_stamps)))) /\
  fst (enqueue_analytics small_manager (Raise TypeError) two_stamps) =
    Raise TypeError /\
  count_type (value ANALYTICS_RECORD)
             (table (snd (enqueue_analytics small_manager (Raise TypeError)
                            two_stamps))) = 1.
Proof.
  assert (Hv1 : valid noon_jan_5) by (repeat split; vm_compute; congruence).
  assert (Hv2 : valid half_past) by (repeat split; vm_compute; congruence).
  assert (Hs : Chronology.same_second noon_jan_5 half_past)
    by (repeat split; reflexivity).
  assert (Hff : fault_free two_stamps) by constructor.
  assert (Hwf : wf_table (table two_stamps)) by solve_wf_table.
  destruct (@enqueue_analytics_evicts_newer_record small_manager two_stamps
              Hff Hwf) as [Hraise Hstay];
    [reflexivity|vm_compute; discriminate|].
  destruct (Hraise TypeError) as [Hr1 Hr2].
  assert (Hroom : seq (table two_stamps) < MAX_ROWID) by reflexivity.
  assert (Hin1 : In sharp (rows (table two_stamps))) by (now left).
  assert (Hin2 : In half (rows (table two_stamps))) by (right; now left).
  assert (Hus : microsecond half_past <> 0) by discriminate.
  destruct (Hstay "third" sharp half noon_jan_5 half_past Hroom Hin1 Hin2
              eq_refl eq_refl eq_refl eq_refl Hv1 Hv2 Hs eq_refl Hus)
    as (Hlt & Hok & Hin & _ & _).
  split; [exact Hlt|]. split; [exact Hok|]. split; [exact Hin|].
  split; [|split; [exact Hr1|exact Hr2]].
  vm_compute. intros [H|[H|[]]]; discriminate.
Defined.

End QueueOrderFacts.
(* ================================================================== *)
(** * The telemetry agent's heartbeat and the credential *)
(* ================================================================== *)

Module TelemetryAgentFacts.

Import Json Text Config Datetime ManagementAgent TelemetryAgent AgentExamples.

Section Agent.

Variable hmac : string -> string -> string.

(** ** One step of the agent at a time *)

Lemma on_world_step {T U} (m : IO T) (k : T -> M State U) (w : World) (n : Z) :
  bind (on_world m) k (w, n) =
  match fst (m w) with
  | Ok a => k a (snd (m w), n)
  | Raise e => (Raise e, (snd (m w), n))
  end.
Proof.
  unfold bind, on_world. cbn [fst snd]. now destruct (m w) as [[a|e] w'].
Qed.

Lemma sign_request_signs (payload : dict) (w : World) (token : string) :
  device_token (config w) = Some token -> String.eqb token "" = false ->
  _sign_request hmac payload w =
  (Ok (hmac (utf8 token) (utf8 (dumps_canonical (JDict payload)))), w).
Proof.
  intros Ht Hne. unfold _sign_request, bind, gets, ret. now rewrite Ht, Hne.
Qed.

Lemma session_post_answer (url : string) (request : dict) (w : World) :
  session_post url request w =
  (match hd None (posts (env w)) with
   | Some response => Ok response
   | None => Raise RequestException
   end, after_post url request w).
Proof.
  unfold session_post, next_post, set_env, bind, gets, modify, ret, raise,
    after_post.
  cbn [config disk env posted posts]. now destruct (hd None (posts (env w))).
Qed.

(** [save_device_config] writes the attributes in memory or raises; it
    raises before the file is replaced, or after. *)
Lemma save_device_config_cases (w : World) :
  let r := save_device_config w in
  config (snd r) = config w /\
  config_cache (disk (snd r)) = config_cache (disk w) /\
  (fst r = Ok tt /\ hd IoOk (io (env w)) = IoOk /\
   device_conf (disk (snd r)) = Some (device_conf_of (config w))
   \/
   (exists e, fst r = Raise e) /\ hd IoOk (io (env w)) <> IoOk /\
   disk (snd r) = disk w
   \/
   (exists e, fst r = Raise e) /\ hd IoOk (io (env w)) = IoOk /\
   hd IoOk (tl (io (env w))) <> IoOk /\
   device_conf (disk (snd r)) = Some (device_conf_of (config w))).
Proof.
  destruct w as [c [dc cc hc] [ios ps po fe now cpu rnd] p g].
  unfold save_device_config, io_step, next_io, set_env, set_disk,
    try_except, bind, gets, modify, ret, raise.
  cbn [config disk env io posted].
  destruct ios as [|o1 ios]; [|destruct o1]; cbn;
    try (destruct ios as [|o2 ios]; [|destruct o2]; cbn);
    (split; [reflexivity|]); (split; [reflexivity|]);
    first [ left; repeat split; reflexivity
          | right; left; split; [eexists; reflexivity|];
            split; [discriminate|reflexivity]
          | right; right; split; [eexists; reflexivity|];
            split; [reflexivity|]; split; [discriminate|reflexivity] ].
Qed.

(** The heartbeat of a device with a credential, up to the answer. *)
Lemma heartbeat_until_answer
      (telemetry : json) (w : World) (n : Z) (token : string) :
  device_token (config w) = Some token -> String.eqb token "" = false ->
  exists url request handle,
    TelemetryAgent.send_heartbeat hmac telemetry (w, n) =
    try_except
      (fun s => match hd None (posts (env w)) with
                | Some response => handle response s
                | None => (Raise RequestException, s)
                end)
      (fun _ => ret None) (after_post url request w, n) /\
    (forall response s,
       status_code response = 401 ->
       handle response s =
       (on_world (set_config (set_device_token None)) ;;;
        on_world save_device_config ;;;
        ret None) s) /\
    (forall data new_token s,
       match hb_status data with
       | Some st => String.eqb st "token_revoked"
       | None => false
       end = false ->
       hb_device_token data = Some (Some new_token) ->
       handle (mkResponse 200 (Some data)) s =
       ((c' <- on_world (gets config) ;;
         match device_token c' with
         | Some current =>
             if String.eqb new_token current then ret tt
             else
               on_world (set_config (set_device_token (Some new_token))) ;;;
               on_world save_device_config
         | None =>
             on_world (set_config (set_device_token (Some new_token))) ;;;
             on_world save_device_config
         end) ;;;
        modify (fun s : State => (fst s, 0)) ;;;
        ret (Some data)) s).
Proof.
  intros Ht Hne.
  eexists _, _, (fun response =>
    if status_code response =? 200 then _
    else if status_code response =? 401 then _ else _).
  split; [|split].
  - unfold TelemetryAgent.send_heartbeat.
    rewrite on_world_step. unfold gets at 1. cbn [fst snd].
    unfold is_registered. rewrite Ht. cbn [negb].
    unfold try_except.
    rewrite on_world_step. unfold _get_timestamp at 1, gets at 1. cbn [fst snd].
    rewrite on_world_step. unfold gets at 1. cbn [fst snd].
    rewrite on_world_step, (sign_request_signs _ w Ht Hne). cbn [fst snd].
    rewrite on_world_step, session_post_answer. cbn [fst snd].
    destruct (hd None (posts (env w))) as [response|]; reflexivity.
  - intros response s H401. rewrite H401. reflexivity.
  - intros data new_token s Hrev Htok. cbn [status_code json_body Z.eqb Pos.eqb].
    rewrite Hrev. rewrite Htok. reflexivity.
Qed.

(** The telemetry agent gives the credential up on HTTP 401.  A device
    with a credential that is answered 401 returns no result and has no
    credential in memory any more, so that its main loop goes back to the
    initial heartbeat; device id, serial and cached configuration stay.
    [device.conf] holds no credential either once the file operations have
    succeeded, and is what it was when the first of them failed. *)
Theorem telemetry_heartbeat_401_drops_credential
        (telemetry : json) (w : World) (n : Z) (body : option HeartbeatData) :
  has_token (config w) = true ->
  hd None (posts (env w)) = Some (mkResponse 401 body) ->
  let r := TelemetryAgent.send_heartbeat hmac telemetry (w, n) in
  let c' := config (fst (snd r)) in
  let d' := disk (fst (snd r)) in
  fst r = Ok None /\ snd (snd r) = n /\
  c' = set_device_token None (config w) /\ is_registered c' = false /\
  config_cache d' = config_cache (disk w) /\
  (device_conf d' = device_conf (disk w) \/
   device_conf d' = Some (device_conf_of c')) /\
  (hd IoOk (io (env w)) = IoOk -> device_conf d' = Some (device_conf_of c')).
Proof.
  intros H Hpost.
  destruct (AgentFacts.has_token_inv _ H) as (token & Ht & Hne).
  destruct (heartbeat_until_answer telemetry w n Ht Hne)
    as (url & request & handle & Heq & H401 & _).
  set (w2 := mkWorld (set_device_token None (config w)) (disk w)
                     (env (after_post url request w))
                     (posted (after_post url request w))
                     (got (after_post url request w))).
  assert (Hr : TelemetryAgent.send_heartbeat hmac telemetry (w, n) =
               (Ok None, (snd (save_device_config w2), n))).
  { rewrite Heq. unfold try_except. rewrite Hpost, H401 by reflexivity.
    rewrite on_world_step.
    change (set_config (set_device_token None) (after_post url request w))
      with (Ok tt : result unit, w2).
    cbn [fst snd]. rewrite on_world_step.
    destruct (fst (save_device_config w2)); reflexivity. }
  cbv zeta. rewrite Hr. cbn [fst snd]. clear Hr Heq H401.
  destruct (save_device_config_cases w2) as (Hc & Hcc & Hcases).
  cbv zeta in Hc, Hcc, Hcases.
  change (io (env w2)) with (io (env w)) in Hcases.
  change (config w2) with (set_device_token None (config w)) in *.
  change (disk w2) with (disk w) in *.
  rewrite Hc, Hcc.
  split; [reflexivity|]. split; [reflexivity|]. split; [reflexivity|].
  split; [reflexivity|]. split; [reflexivity|].
  destruct Hcases as [(_ & _ & Hconf)|[(_ & Hfail & Hdisk)|(_ & _ & _ & Hconf)]].
  - split; [now right|]. intros _. exact Hconf.
  - split; [left; now rewrite Hdisk|]. intros Hfirst. contradiction.
  - split; [now right|]. intros _. exact Hconf.
Qed.

(** A credential delivered with a heartbeat is in use at once, saved or not.
    When a 200 response that is no revocation carries a token, that token is
    the credential in memory afterwards, whatever the file system does.  The
    response is returned, and the retry count reset, exactly when the token
    was the one the device had or [device.conf] could be written with the
    new one; otherwise no result is returned, and [device.conf] holds what
    it held when the first file operation failed. *)
Theorem telemetry_heartbeat_takes_new_token
        (telemetry : json) (w : World) (n : Z)
        (data : HeartbeatData) (token : string) :
  has_token (config w) = true ->
  hd None (posts (env w)) = Some (mkResponse 200 (Some data)) ->
  (forall s, hb_status data = Some s -> String.eqb s "token_revoked" = false) ->
  hb_device_token data = Some (Some token) ->
  let r := TelemetryAgent.send_heartbeat hmac telemetry (w, n) in
  let c' := config (fst (snd r)) in
  let d' := disk (fst (snd r)) in
  c' = set_device_token (Some token) (config w) /\
  (fst r = Ok (Some data) /\ snd (snd r) = 0 /\
   (device_token (config w) = Some token /\ d' = disk w \/
    device_conf d' = Some (device_conf_of c'))
   \/
   fst r = Ok None /\ snd (snd r) = n /\
   device_token (config w) <> Some token /\
   (hd IoOk (io (env w)) <> IoOk /\ d' = disk w \/
    hd IoOk (tl (io (env w))) <> IoOk /\
    device_conf d' = Some (device_conf_of c'))).
Proof.
  intros H Hpost Hstatus Htok.
  destruct (AgentFacts.has_token_inv _ H) as (current & Ht & Hne).
  assert (Hrev : match hb_status data with
                 | Some s => String.eqb s "token_revoked"
                 | None => false
                 end = false).
  { destruct (hb_status data) as [s|]; [now apply Hstatus|reflexivity]. }
  destruct (heartbeat_until_answer telemetry w n Ht Hne)
    as (url & request & handle & Heq & _ & H200).
  set (w1 := after_post url request w).
  set (w2 := mkWorld (set_device_token (Some token) (config w)) (disk w)
                     (env w1) (posted w1) (got w1)).
  destruct (String.eqb_spec token current) as [Hsame|Hneq].
  - assert (Hr : TelemetryAgent.send_heartbeat hmac telemetry (w, n) =
                 (Ok (Some data), (w1, 0))).
    { rewrite Heq. unfold try_except.
      rewrite Hpost, (H200 _ _ _ Hrev Htok).
      unfold bind at 1. rewrite on_world_step.
      fold w1.
      change (gets config w1) with (Ok (config w) : result Config, w1).
      cbn [fst snd]. rewrite Ht.
      destruct (String.eqb_spec token current); [|contradiction].
      reflexivity. }
    cbv zeta. rewrite Hr. cbn [fst snd]. subst current.
    split.
    + change (config w1) with (config w).
      clear - Ht. destruct (config w). cbn in Ht |- *. now rewrite Ht.
    + left. split; [reflexivity|]. split; [reflexivity|]. left.
      split; [exact Ht|reflexivity].
  - assert (Hneq' : Some current <> Some token) by congruence.
    assert (Hr : TelemetryAgent.send_heartbeat hmac telemetry (w, n) =
                 match fst (save_device_config w2) with
                 | Ok _ => (Ok (Some data), (snd (save_device_config w2), 0))
                 | Raise _ => (Ok None, (snd (save_device_config w2), n))
                 end).
    { rewrite Heq. unfold try_except.
      rewrite Hpost, (H200 _ _ _ Hrev Htok).
      unfold bind at 1. rewrite on_world_step.
      fold w1.
      change (gets config w1) with (Ok (config w) : result Config, w1).
      cbn [fst snd]. rewrite Ht.
      destruct (String.eqb_spec token current); [contradiction|].
      rewrite on_world_step.
      change (set_config (set_device_token (Some token)) w1)
        with (Ok tt : result unit, w2).
      cbn [fst snd]. unfold on_world, bind, modify, ret. cbn [fst snd].
      destruct (save_device_config w2) as [[[]|e] w3]; reflexivity. }
    cbv zeta. rewrite Hr. clear Hr Heq H200.
    destruct (save_device_config_cases w2) as (Hc & Hcc & Hcases).
    cbv zeta in Hc, Hcc, Hcases.
    change (io (env w2)) with (io (env w)) in Hcases.
    change (config w2) with (set_device_token (Some token) (config w)) in *.
    change (disk w2) with (disk w) in *.
    rewrite Ht.
    destruct Hcases as [(Hok & _ & Hconf)|[([e He] & Hfail & Hdisk)
                                          |([e He] & _ & Hfail & Hconf)]];
      [rewrite Hok|rewrite He|rewrite He]; cbn [fst snd]; rewrite Hc;
      (split; [reflexivity|]).
    + left. split; [reflexivity|]. split; [reflexivity|]. now right.
    + right. split; [reflexivity|]. split; [reflexivity|].
      split; [exact Hneq'|]. left. split; [exact Hfail|exact Hdisk].
    + right. split; [reflexivity|]. split; [reflexivity|].
      split; [exact Hneq'|]. right. split; [exact Hfail|exact Hconf].
Qed.

End Agent.

Lemma telemetry_heartbeat_401_drops_credential_witness :
  device_token
    (config (fst (snd (TelemetryAgent.send_heartbeat toy_hmac telemetry
                         (registered_world (Some (mkResponse 401 None)), 2)))))
  = None.
Proof.
  destruct (@telemetry_heartbeat_401_drops_credential toy_hmac telemetry
              (registered_world (Some (mkResponse 401 None))) 2 None)
    as (_ & _ & Hgone & _); [reflexivity|reflexivity|].
  now rewrite Hgone.
Defined.

Lemma telemetry_heartbeat_takes_new_token_witness :
  device_token
    (config (fst (snd (TelemetryAgent.send_heartbeat toy_hmac telemetry
                         (registered_world
                            (Some (mkResponse 200
                                     (Some (mkHeartbeatData (Some (Some "T2"))
                                                            None None [])))),
                          2)))))
  = Some "T2".
Proof.
  destruct (@telemetry_heartbeat_takes_new_token toy_hmac telemetry
              (registered_world
                 (Some (mkResponse 200
                          (Some (mkHeartbeatData (Some (Some "T2")) None None [])))))
              2 (mkHeartbeatData (Some (Some "T2")) None None []) "T2")
    as [Hnew _]; [reflexivity|reflexivity|discriminate|reflexivity|].
  now rewrite Hnew.
Defined.

End TelemetryAgentFacts.
